(** * The user-process virtual-memory subsystem: fault handler and mapping calls

    A shallow embedding of [src/userprog/exception.c] (the page-fault
    handler) and of [src/userprog/syscall.c] ([exit], [read], [write],
    [touch_addr], [mmap], [munmap_write], [munmap_free], [munmap]).

    The kernel state the two files act on is one record, [world]; every C
    function becomes a function in a small state monad whose results say
    whether the call returned, ended the process through [exit], or brought
    the kernel down.  Calls that leave the two files for I/O are recorded in
    an event log, in program order. *)

From Stdlib Require Import ZArith List Bool Lia.
From stdpp Require Import base option list gmap.

Local Open Scope Z_scope.

(** ** Machine words and addresses *)

(** Pointers and [unsigned] are 32-bit words, [int] and [off_t] their signed
    readings. *)
Definition wrap32 (z : Z) : Z := z mod 2 ^ 32.

Definition to_int (z : Z) : Z :=
  let u := wrap32 z in if u <? 2 ^ 31 then u else u - 2 ^ 32.

(** Modelled from the spec: [threads/vaddr.h] is not under [src/].  The page
    size is the spec's 4096; [PHYS_BASE] is the kernel base of the x86-32
    teaching kernel, 3 GiB. *)
Definition PGBITS : Z := 12.
Definition PGSIZE : Z := Z.shiftl 1 PGBITS.
Definition PGMASK : Z := Z.ones PGBITS.
Definition PHYS_BASE : Z := 0xc0000000.

Definition pg_ofs (va : Z) : Z := Z.land va PGMASK.
Definition pg_round_down (va : Z) : Z := Z.land va (Z.lnot PGMASK).
Definition is_user_vaddr (va : Z) : bool := va <? PHYS_BASE.

(** Modelled from the spec: the error-code bits [not_present], [write],
    [user] are the [PF_*] masks of [userprog/exception.h], which is not under
    [src/]; the flags of [threads/palloc.h] likewise. *)
Definition PF_P : Z := 1.
Definition PF_W : Z := 2.
Definition PF_U : Z := 4.
Definition PAL_ZERO : Z := 2.
Definition PAL_USER : Z := 4.

(** [open] hands out descriptors 2..129. *)
Definition FD_TABLE_SIZE : Z := 130.

(** ** Data *)

(** The purpose of a page.  The handler's [switch] has a [default] branch
    for other values; with the three purposes as the only values it is never
    taken, nor is the code after the [switch]. *)
Inductive page_purpose := FOR_FILE | FOR_STACK | FOR_MMAP.

#[global] Instance page_purpose_eq_dec : EqDecision page_purpose.
Proof. solve_decision. Defined.

(** [struct page], with the fields the two files read and write.  Pointers
    are words; 0 is [NULL]. *)
Record page := mk_page {
  page_file : Z;
  ofs : Z;
  page_addr : Z;
  frame_addr : Z;
  read_bytes : Z;
  zero_bytes : Z;
  is_writable : bool;
  purpose : page_purpose;
  is_swapped : bool;
  swap_i : Z
}.

Definition page_set_frame_addr (k : Z) (p : page) : page :=
  mk_page (page_file p) (ofs p) (page_addr p) k (read_bytes p) (zero_bytes p)
          (is_writable p) (purpose p) (is_swapped p) (swap_i p).

Definition page_set_is_swapped (b : bool) (p : page) : page :=
  mk_page (page_file p) (ofs p) (page_addr p) (frame_addr p) (read_bytes p)
          (zero_bytes p) (is_writable p) (purpose p) b (swap_i p).

(** [struct frame]: the tenant page, the eviction flag, the owner; and what
    [frame_alloc] was asked for. *)
Record frame := mk_frame {
  fr_page_addr : Z;
  is_evictable : bool;
  owner_thread : Z;
  fr_flags : Z;
  fr_pinned : bool
}.

Definition frame_set_page_addr (u : Z) (f : frame) : frame :=
  mk_frame u (is_evictable f) (owner_thread f) (fr_flags f) (fr_pinned f).
Definition frame_set_is_evictable (b : bool) (f : frame) : frame :=
  mk_frame (fr_page_addr f) b (owner_thread f) (fr_flags f) (fr_pinned f).
Definition frame_set_owner_thread (t : Z) (f : frame) : frame :=
  mk_frame (fr_page_addr f) (is_evictable f) t (fr_flags f) (fr_pinned f).

(** A page-table entry of the process's page directory. *)
Record pte := mk_pte {
  pte_frame : Z;
  pte_writable : bool;
  pte_dirty : bool
}.

(** [struct mapping].  [pages] links the [struct page] objects of the SPT
    through [MMAP_elem]; the objects are shared with the SPT, so the list
    holds their keys. *)
Record mapping := mk_mapping {
  m_id : Z;
  m_addr : Z;
  m_size : Z;
  m_file : Z;
  m_fd : Z;
  m_pages : list Z
}.

Definition mapping_push_page (p : Z) (m : mapping) : mapping :=
  mk_mapping (m_id m) (m_addr m) (m_size m) (m_file m) (m_fd m) (m_pages m ++ [p]).

(** [struct file]: the inode it reads, the inode's length, the position. *)
Record file := mk_file {
  f_inode : Z;
  f_length : Z;
  f_pos : Z
}.

Definition file_set_pos (n : Z) (f : file) : file :=
  mk_file (f_inode f) (f_length f) n.

(** Calls that leave the two files, in the order they are made. *)
Inductive event :=
| EvPrintfExit (status : Z)
| EvPrintfFailed
| EvTouch (a : Z)
| EvLockAcquire
| EvLockRelease
| EvFileSeek (f pos : Z)
| EvFileRead (f buf n got : Z)
| EvFileWrite (f buf n : Z)
| EvFileWriteAt (f buf n o : Z)
| EvFileClose (f : Z)
| EvMemset (dst n : Z)
| EvSDRead (slot kpage : Z)
| EvInputGetc (dst : Z)
| EvPutbuf (buf n : Z)
| EvPallocGetPage (kpage : Z).

#[global] Instance event_eq_dec : EqDecision event.
Proof. solve_decision. Defined.

(** The current thread's fields ([SPT], [pagedir], [mmap_table], [fd_table],
    [esp], [data_segment_start], [exit_status]) and the kernel's tables.

    [fd_table] gives the word found at an index: the [struct file *] of an
    open descriptor, nothing for [NULL].  [mmap] indexes it with any [fd]
    (it has no range check), so it is a map on all of [Z] and not an array
    of [FD_TABLE_SIZE] slots.

    [swap_used] is the swap allocator's bitmap, [next_page] and [next_file]
    are the cursors new kernel pages and [struct file] objects come from,
    and [pt_ok] tells whether a page-table page can still be had. *)
Record world := mk_world {
  SPT : gmap Z page;
  pagedir : gmap Z pte;
  frame_table : gmap Z frame;
  mmap_table : list mapping;
  fd_table : gmap Z Z;
  files : gmap Z file;
  swap_used : gset Z;
  esp : Z;
  data_segment_start : Z;
  exit_status : Z;
  cur_tid : Z;
  next_page : Z;
  next_file : Z;
  pt_ok : bool;
  log : list event
}.

Definition set_SPT (f : gmap Z page → gmap Z page) (w : world) : world :=
  mk_world (f (SPT w)) (pagedir w) (frame_table w) (mmap_table w) (fd_table w)
    (files w) (swap_used w) (esp w) (data_segment_start w) (exit_status w)
    (cur_tid w) (next_page w) (next_file w) (pt_ok w) (log w).
Definition set_pagedir (f : gmap Z pte → gmap Z pte) (w : world) : world :=
  mk_world (SPT w) (f (pagedir w)) (frame_table w) (mmap_table w) (fd_table w)
    (files w) (swap_used w) (esp w) (data_segment_start w) (exit_status w)
    (cur_tid w) (next_page w) (next_file w) (pt_ok w) (log w).
Definition set_frame_table (f : gmap Z frame → gmap Z frame) (w : world) : world :=
  mk_world (SPT w) (pagedir w) (f (frame_table w)) (mmap_table w) (fd_table w)
    (files w) (swap_used w) (esp w) (data_segment_start w) (exit_status w)
    (cur_tid w) (next_page w) (next_file w) (pt_ok w) (log w).
Definition set_mmap_table (f : list mapping → list mapping) (w : world) : world :=
  mk_world (SPT w) (pagedir w) (frame_table w) (f (mmap_table w)) (fd_table w)
    (files w) (swap_used w) (esp w) (data_segment_start w) (exit_status w)
    (cur_tid w) (next_page w) (next_file w) (pt_ok w) (log w).
Definition set_files (f : gmap Z file → gmap Z file) (w : world) : world :=
  mk_world (SPT w) (pagedir w) (frame_table w) (mmap_table w) (fd_table w)
    (f (files w)) (swap_used w) (esp w) (data_segment_start w) (exit_status w)
    (cur_tid w) (next_page w) (next_file w) (pt_ok w) (log w).
Definition set_swap_used (f : gset Z → gset Z) (w : world) : world :=
  mk_world (SPT w) (pagedir w) (frame_table w) (mmap_table w) (fd_table w)
    (files w) (f (swap_used w)) (esp w) (data_segment_start w) (exit_status w)
    (cur_tid w) (next_page w) (next_file w) (pt_ok w) (log w).
Definition set_esp (v : Z) (w : world) : world :=
  mk_world (SPT w) (pagedir w) (frame_table w) (mmap_table w) (fd_table w)
    (files w) (swap_used w) v (data_segment_start w) (exit_status w)
    (cur_tid w) (next_page w) (next_file w) (pt_ok w) (log w).
Definition set_exit_status (v : Z) (w : world) : world :=
  mk_world (SPT w) (pagedir w) (frame_table w) (mmap_table w) (fd_table w)
    (files w) (swap_used w) (esp w) (data_segment_start w) v
    (cur_tid w) (next_page w) (next_file w) (pt_ok w) (log w).
Definition set_next_page (v : Z) (w : world) : world :=
  mk_world (SPT w) (pagedir w) (frame_table w) (mmap_table w) (fd_table w)
    (files w) (swap_used w) (esp w) (data_segment_start w) (exit_status w)
    (cur_tid w) v (next_file w) (pt_ok w) (log w).
Definition set_next_file (v : Z) (w : world) : world :=
  mk_world (SPT w) (pagedir w) (frame_table w) (mmap_table w) (fd_table w)
    (files w) (swap_used w) (esp w) (data_segment_start w) (exit_status w)
    (cur_tid w) (next_page w) v (pt_ok w) (log w).
Definition emit (e : event) (w : world) : world :=
  mk_world (SPT w) (pagedir w) (frame_table w) (mmap_table w) (fd_table w)
    (files w) (swap_used w) (esp w) (data_segment_start w) (exit_status w)
    (cur_tid w) (next_page w) (next_file w) (pt_ok w) (log w ++ [e]).

(** ** The monad of kernel code *)

(** A call returns a value, or never returns because the process left through
    [exit], or the kernel stops (a failed [ASSERT], a wild pointer). *)
Inductive outcome (A : Type) :=
| Ret (a : A)
| Exit
| Panic.
Arguments Ret {A} a.
Arguments Exit {A}.
Arguments Panic {A}.

Definition M (A : Type) : Type := world → outcome A * world.

Definition ret {A} (a : A) : M A := fun w => (Ret a, w).

Definition bind {A B} (m : M A) (k : A → M B) : M B :=
  fun w =>
    match m w with
    | (Ret a, w') => k a w'
    | (Exit, w') => (Exit, w')
    | (Panic, w') => (Panic, w')
    end.

Definition gets {A} (f : world → A) : M A := fun w => (Ret (f w), w).
Definition modify (f : world → world) : M unit := fun w => (Ret tt, f w).
Definition trace (e : event) : M unit := modify (emit e).
Definition panic {A} : M A := fun w => (Panic, w).

Declare Scope kernel_scope.
Delimit Scope kernel_scope with kernel.
Notation "x ← y ; z" := (bind y (fun x => z))
  (at level 20, y at level 100, z at level 200, only parsing) : kernel_scope.
Notation "x ;; z" := (bind x (fun _ => z))
  (at level 100, z at level 200, only parsing, right associativity) : kernel_scope.
Local Open Scope kernel_scope.

(** ** [exit] (syscall.c) *)

(** [thread_exit] does not return; the teardown it runs is in files that are
    not under [src/]. *)
Definition exit {A} (status : Z) : M A :=
  fun w => (Exit, set_exit_status status (emit (EvPrintfExit status) w)).

(** ** Collaborators *)

(** Modelled from the spec: [SPT_search] and [SPT_insert] of [vm/page.c],
    which is not under [src/]: a per-process map from [vpage] to its entry,
    with [search(vpage)] and [insert(entry)].  A new entry is not swapped. *)
Definition SPT_search (upage : Z) : M (option page) :=
  gets (fun w => SPT w !! upage).

(** Modelled from the spec: [SPT_insert] of [vm/page.c], the SPT's
    [insert(entry)]; it returns the new [struct page *]. *)
Definition SPT_insert (f o upage kpage rb zb : Z) (writable : bool)
    (pu : page_purpose) : M Z :=
  modify (set_SPT <[upage := mk_page f o upage kpage rb zb writable pu false 0]>) ;;
  ret upage.

(** An assignment through a [struct page *]. *)
Definition page_update (upage : Z) (f : page → page) : M unit :=
  modify (set_SPT (alter f upage)).

(** Modelled from the spec: [frame_alloc], [find_frame] and [frame_free] of
    [vm/frame.c], which is not under [src/]: [alloc(zero_fill, pinned)]
    returns a frame ready to be installed, [free] drops the tenant.  Only
    the case in which a free frame is to be had is modelled: the frame comes
    from the allocation cursor.  The eviction that [vm/frame.c] runs when
    no frame is free (victim choice, write-back, removal of the victim's
    mapping) is not modelled. *)
Definition frame_alloc (flags : Z) (pinned : bool) : M Z :=
  fun w =>
    let kpage := next_page w in
    (Ret kpage,
     set_next_page (kpage + PGSIZE)
       (set_frame_table
          <[kpage := mk_frame 0 (negb pinned) 0 flags pinned]> w)).

(** An assignment through the [struct frame *] that [find_frame] returned. *)
Definition frame_update (kpage : Z) (f : frame → frame) : M unit :=
  modify (set_frame_table (alter f kpage)).

(** Modelled from the spec: [frame_free] of [vm/frame.c], the frame table's
    [free(frame_id)]. *)
Definition frame_free (kpage : Z) : M unit :=
  modify (set_frame_table (delete kpage)).

(** Modelled from the spec: [palloc_get_page] of [threads/palloc.c], not
    under [src/]. *)
Definition palloc_get_page (flags : Z) : M Z :=
  fun w =>
    let kpage := next_page w in
    (Ret kpage, emit (EvPallocGetPage kpage) (set_next_page (kpage + PGSIZE) w)).

(** Modelled from the spec: the MMU primitives [install], [clear] and
    [is_dirty] of [userprog/pagedir.c], not under [src/].  [install] fails
    when no page-table page can be had, which [pt_ok] records. *)
Definition pagedir_set_page (upage kpage : Z) (writable : bool) : M bool :=
  fun w =>
    if pt_ok w
    then (Ret true, set_pagedir <[upage := mk_pte kpage writable false]> w)
    else (Ret false, w).

(** Modelled from the spec: [pagedir_clear_page] of [userprog/pagedir.c],
    the MMU's [clear(pd, vpage)]. *)
Definition pagedir_clear_page (upage : Z) : M unit :=
  modify (set_pagedir (delete upage)).

(** Modelled from the spec: [pagedir_is_dirty] of [userprog/pagedir.c], the
    MMU's [is_dirty(pd, vpage)]; a page that is not mapped is not dirty. *)
Definition pagedir_is_dirty (upage : Z) : M bool :=
  gets (fun w => match pagedir w !! upage with
                 | Some e => pte_dirty e
                 | None => false
                 end).

(** Modelled from the spec: [SD_read] of [vm/swap.c], not under [src/], the
    one call the handler makes on a page that is in swap.  It stands for the
    spec's reload of a slot, [swap_read(slot, frame)] followed by
    [free slot] ("swap slots are allocated on eviction and freed on
    reload"): the page is read into the kernel page and the slot's bit in the
    bitmap is cleared. *)
Definition SD_read (slot kpage : Z) : M unit :=
  trace (EvSDRead slot kpage) ;;
  modify (set_swap_used (fun used => used ∖ {[ slot ]})).

(** Modelled from the spec: the file API of [filesys/file.c], not under
    [src/].  A read returns what is left of the file from the position, at
    most [n] bytes; a [struct file *] that is not an open file stops the
    kernel. *)
Definition file_seek (f pos : Z) : M unit :=
  fun w =>
    match files w !! f with
    | Some fo => (Ret tt, emit (EvFileSeek f pos) (set_files <[f := file_set_pos pos fo]> w))
    | None => (Panic, w)
    end.

(** Modelled from the spec: [file_read(file, dst, n)] of [filesys/file.c]:
    the bytes read, which moves the position. *)
Definition file_read (f buf n : Z) : M Z :=
  fun w =>
    match files w !! f with
    | Some fo =>
        let got := Z.max 0 (Z.min n (f_length fo - f_pos fo)) in
        (Ret got,
         emit (EvFileRead f buf n got)
           (set_files <[f := file_set_pos (f_pos fo + got) fo]> w))
    | None => (Panic, w)
    end.

(** Modelled from the spec: [file_length] of [filesys/file.c]. *)
Definition file_length (f : Z) : M Z :=
  fun w =>
    match files w !! f with
    | Some fo => (Ret (f_length fo), w)
    | None => (Panic, w)
    end.

(** Modelled from the spec: [file_reopen] of [filesys/file.c]: an independent
    handle on the same file, at position 0. *)
Definition file_reopen (f : Z) : M Z :=
  fun w =>
    match files w !! f with
    | Some fo =>
        let h := next_file w in
        (Ret h, set_next_file (h + 1) (set_files <[h := file_set_pos 0 fo]> w))
    | None => (Panic, w)
    end.

(** Modelled from the spec: [file_write_at(file, src, n, offset)] of
    [filesys/file.c]; the write is recorded in the log. *)
Definition file_write_at (f buf n o : Z) : M unit := trace (EvFileWriteAt f buf n o).

(** Modelled from the spec: [file_close] of [filesys/file.c]: the handle is
    no longer an open file. *)
Definition file_close (f : Z) : M unit :=
  trace (EvFileClose f) ;; modify (set_files (delete f)).

(** [memset (dst, 0, n)] on a kernel page. *)
Definition memset0 (dst n : Z) : M unit := trace (EvMemset dst n).

(** ** [page_fault] (exception.c) *)

(** The load of a file-backed page, as written twice in the handler (for
    [FOR_FILE] and, copied, for [FOR_MMAP]). *)
Definition load_from_file (p : page) : M unit :=
  let f := page_file p in
  let upage := page_addr p in
  let page_read_bytes := read_bytes p in
  let page_zero_bytes := zero_bytes p in
  let writable := is_writable p in
  file_seek f (ofs p) ;;
  kpage ← frame_alloc PAL_USER true ;
  tid ← gets cur_tid ;
  frame_update kpage (frame_set_page_addr upage) ;;
  frame_update kpage (frame_set_is_evictable true) ;;
  frame_update kpage (frame_set_owner_thread tid) ;;
  page_update upage (page_set_frame_addr kpage) ;;
  page_update upage (page_set_is_swapped false) ;;
  n ← file_read f kpage (to_int page_read_bytes) ;
  if negb (n =? to_int page_read_bytes)
  then frame_free kpage ;; exit (-1)
  else
    memset0 (wrap32 (kpage + page_read_bytes)) page_zero_bytes ;;
    ok ← pagedir_set_page upage kpage writable ;
    (if negb ok then trace EvPrintfFailed else ret tt) ;;
    ret tt.

(** The reload of a swapped file-backed page, as written twice in the handler. *)
Definition load_from_swap (p : page) : M unit :=
  let f := page_file p in
  let upage := page_addr p in
  let writable := is_writable p in
  let slot := swap_i p in
  file_seek f (ofs p) ;;
  kpage ← frame_alloc PAL_USER true ;
  tid ← gets cur_tid ;
  frame_update kpage (frame_set_page_addr upage) ;;
  frame_update kpage (frame_set_is_evictable true) ;;
  frame_update kpage (frame_set_owner_thread tid) ;;
  page_update upage (page_set_frame_addr kpage) ;;
  SD_read slot kpage ;;
  page_update upage (page_set_is_swapped false) ;;
  ok ← pagedir_set_page upage kpage writable ;
  (if negb ok then trace EvPrintfFailed else ret tt) ;;
  ret tt.

Definition page_fault (fault_addr error_code f_esp : Z) : M unit :=
  let not_present := Z.land error_code PF_P =? 0 in
  let write := negb (Z.land error_code PF_W =? 0) in
  let user := negb (Z.land error_code PF_U =? 0) in
  user_esp ← (if user then ret f_esp else gets esp) ;
  if (fault_addr =? 0) || negb (is_user_vaddr fault_addr) then exit (-1)
  else
    let fault_page_addr := pg_round_down fault_addr in
    fault_page ← SPT_search fault_page_addr ;
    match fault_page with
    | None =>
        if fault_addr <=? PHYS_BASE - 0x800000 then exit (-1)
        else if fault_addr >=? wrap32 (user_esp - 32) then
          kpage ← frame_alloc (Z.lor PAL_USER PAL_ZERO) false ;
          tid ← gets cur_tid ;
          frame_update kpage (frame_set_is_evictable true) ;;
          frame_update kpage (frame_set_owner_thread tid) ;;
          pagedir_set_page fault_page_addr kpage true ;;
          SPT_insert 0 0 fault_page_addr kpage 0 PGSIZE true FOR_STACK ;;
          modify (set_esp fault_addr) ;;
          ret tt
        else exit (-1)
    | Some p =>
        let upage := page_addr p in
        let writable := is_writable p in
        if write && negb writable then exit (-1)
        else
          match purpose p with
          | FOR_FILE =>
              if negb (is_swapped p) then load_from_file p else load_from_swap p
          | FOR_STACK =>
              if negb (is_swapped p) then
                kpage ← frame_alloc PAL_USER false ;
                page_update upage (page_set_frame_addr kpage) ;;
                pagedir_set_page upage kpage writable ;;
                modify (set_esp fault_addr) ;;
                ret tt
              else
                let slot := swap_i p in
                kpage ← frame_alloc PAL_USER false ;
                tid ← gets cur_tid ;
                frame_update kpage (frame_set_page_addr upage) ;;
                frame_update kpage (frame_set_is_evictable true) ;;
                frame_update kpage (frame_set_owner_thread tid) ;;
                page_update upage (page_set_frame_addr kpage) ;;
                page_update upage (page_set_is_swapped false) ;;
                SD_read slot kpage ;;
                pagedir_set_page upage kpage writable ;;
                modify (set_esp fault_addr) ;;
                ret tt
          | FOR_MMAP =>
              if negb (is_swapped p) then load_from_file p else load_from_swap p
          end
    end.

(** ** Loops *)

(** [for (j = j0; j < j0 + n; j++) body(j)].  In [read] and [write] the
    counter is an [int] compared with the [unsigned] size, so the loop makes
    [size] rounds. *)
Fixpoint for_upto (n : nat) (j : Z) (body : Z → M unit) : M unit :=
  match n with
  | O => ret tt
  | S n' => body j ;; for_upto n' (j + 1) body
  end.

(** A walk over a list or a hash table. *)
Fixpoint for_each {A} (l : list A) (body : A → M unit) : M unit :=
  match l with
  | [] => ret tt
  | x :: l' => body x ;; for_each l' body
  end.

(** ** Kernel accesses to user memory, [touch_addr], [read], [write] (syscall.c) *)

(** The dirty bit of a mapping, set. *)
Definition pte_set_dirty (e : pte) : pte :=
  mk_pte (pte_frame e) (pte_writable e) true.

(** Modelled from the spec: the MMU's side of a load or a store made by
    kernel code, under the contract of the page directory (present and
    writable bits, dirty bit, fault address).  An access to a page that the
    page directory maps goes through; a store needs the mapping to be
    writable and sets its dirty bit.  Any other access raises a page fault:
    [page_fault] runs with the address and the error code of the access
    (the present bit for a protection violation, the write bit for a store,
    the user bit clear), and when it returns the CPU restarts the access.
    [fuel] bounds the restarts: an access that faults with none left is cut
    off, with the outcome [Panic].  A kernel address is mapped only in the
    states whose page directory lists it. *)
Fixpoint mem_access (fuel : nat) (write : bool) (addr : Z) : M unit :=
  pt ← gets (fun w => pagedir w !! pg_round_down addr) ;
  match pt with
  | Some e =>
      if write then
        if pte_writable e
        then modify (set_pagedir (alter pte_set_dirty (pg_round_down addr)))
        else
          match fuel with
          | O => panic
          | S fuel' =>
              page_fault addr (Z.lor PF_P PF_W) 0 ;; mem_access fuel' write addr
          end
      else ret tt
  | None =>
      match fuel with
      | O => panic
      | S fuel' =>
          page_fault addr (if write then PF_W else 0) 0 ;;
          mem_access fuel' write addr
      end
  end.

(** The load [*temp_addr]. *)
Definition touch_addr (fuel : nat) (addr : Z) : M unit :=
  trace (EvTouch addr) ;;
  mem_access fuel false addr.

(** The kernel reads [n] bytes of user memory from [buf] on, lowest address
    first: what [putbuf] and [file_write] do with the buffer they are
    given. *)
Definition copy_in (fuel : nat) (buf n : Z) : M unit :=
  for_upto (Z.to_nat n) 0 (fun j => mem_access fuel false (wrap32 (buf + j))).

(** The kernel stores [n] bytes into user memory from [buf] on, lowest
    address first: what [file_read] does with the bytes it has read, and
    what the assignment [buffer_c[i] = ...] does with the four bytes of an
    [int]. *)
Definition copy_out (fuel : nat) (buf n : Z) : M unit :=
  for_upto (Z.to_nat n) 0 (fun j => mem_access fuel true (wrap32 (buf + j))).

(** [lock_acquire (&filesys_lock)] and [lock_release (&filesys_lock)]. *)
Definition lock_acquire : M unit := trace EvLockAcquire.
Definition lock_release : M unit := trace EvLockRelease.

(** Modelled from the spec: [file_write] of [filesys/file.c], not under
    [src/]; files do not grow. *)
Definition file_write (f buf n : Z) : M Z :=
  fun w =>
    match files w !! f with
    | Some fo =>
        let put := Z.max 0 (Z.min n (f_length fo - f_pos fo)) in
        (Ret put,
         emit (EvFileWrite f buf n)
           (set_files <[f := file_set_pos (f_pos fo + put) fo]> w))
    | None => (Panic, w)
    end.

(** [read].  The bytes [file_read] hands over are stored into the buffer by
    the kernel, and every key of the keyboard loop is stored as an [int], at
    [buffer + 4 * i]. *)
Definition read (fuel : nat) (fd buffer size : Z) : M Z :=
  if (fd <? 0) || (fd =? 1) || (fd >=? FD_TABLE_SIZE) then exit (-1)
  else
    for_upto (Z.to_nat size) 0 (fun j => touch_addr fuel (wrap32 (buffer + j))) ;;
    lock_acquire ;;
    if fd =? 0 then
      for_upto (Z.to_nat size) 0
        (fun i =>
           trace (EvInputGetc (wrap32 (buffer + 4 * i))) ;;
           copy_out fuel (wrap32 (buffer + 4 * i)) 4) ;;
      lock_release ;;
      ret (to_int size)
    else
      f ← gets (fun w => fd_table w !! fd) ;
      match f with
      | None => lock_release ;; ret (-1)
      | Some f =>
          r ← file_read f buffer (to_int size) ;
          copy_out fuel buffer r ;;
          lock_release ;;
          ret r
      end.

(** [write].  [putbuf] reads the [size] bytes of the buffer, [file_write]
    the bytes it writes. *)
Definition write (fuel : nat) (fd buffer size : Z) : M Z :=
  if (fd <? 1) || (fd >=? FD_TABLE_SIZE) then exit (-1)
  else
    for_upto (Z.to_nat size) 0 (fun j => touch_addr fuel (wrap32 (buffer + j))) ;;
    lock_acquire ;;
    if fd =? 1 then
      trace (EvPutbuf buffer size) ;;
      copy_in fuel buffer size ;;
      lock_release ;;
      ret (to_int size)
    else
      f ← gets (fun w => fd_table w !! fd) ;
      match f with
      | None => lock_release ;; ret (-1)
      | Some f =>
          r ← file_write f buffer (to_int size) ;
          copy_in fuel buffer r ;;
          lock_release ;;
          ret r
      end.

(** An assignment to a slot of [fd_table]. *)
Definition set_fd_table (f : gmap Z Z → gmap Z Z) (w : world) : world :=
  mk_world (SPT w) (pagedir w) (frame_table w) (mmap_table w) (f (fd_table w))
    (files w) (swap_used w) (esp w) (data_segment_start w) (exit_status w)
    (cur_tid w) (next_page w) (next_file w) (pt_ok w) (log w).

(** [close], the one caller of [file_close] in the file. *)
Definition close (fd : Z) : M unit :=
  if (fd <? 2) || (fd >=? FD_TABLE_SIZE) then exit (-1)
  else
    f ← gets (fun w => fd_table w !! fd) ;
    match f with
    | None => exit (-1)
    | Some f =>
        lock_acquire ;;
        file_close f ;;
        modify (set_fd_table (delete fd)) ;;
        lock_release
    end.

(** ** [mmap] (syscall.c) *)

(** Modelled from the spec: [find_mapping_addr] of [vm/mmap.c], which is not
    under [src/]: the first mapping of the table whose byte range holds the
    address (the overlap test of the spec's scenario 6).  The position in the
    table stands for the [struct mapping *]. *)
Definition find_mapping_addr (tbl : list mapping) (a : Z) : option (nat * mapping) :=
  list_find (λ m, m_addr m ≤ a < m_addr m + m_size m) tbl.

(** Modelled from the spec: [find_mapping_id] of [vm/mmap.c]: the first
    mapping of the table that has the id. *)
Definition find_mapping_id (tbl : list mapping) (i : Z) : option (nat * mapping) :=
  list_find (λ m, m_id m = i) tbl.

(** The page-wise loop of [mmap], [while (read_bytes > 0)]; [mi] is the
    mapping just pushed.  Every round takes at least one byte off
    [read_bytes], so [Z.to_nat read_bytes] rounds of fuel are enough. *)
Fixpoint mmap_pages (fuel : nat) (mi : nat) (mfile : Z)
    (read_bytes ofs addr : Z) : M unit :=
  if read_bytes >? 0 then
    match fuel with
    | O => panic
    | S fuel' =>
        let page_read_bytes := if read_bytes <? PGSIZE then read_bytes else PGSIZE in
        let page_zero_bytes := PGSIZE - page_read_bytes in
        kpage ← palloc_get_page 0 ;
        temp ← SPT_insert mfile ofs addr kpage page_read_bytes page_zero_bytes
                 true FOR_MMAP ;
        modify (set_mmap_table (alter (mapping_push_page temp) mi)) ;;
        n ← file_read mfile kpage page_read_bytes ;
        if negb (n =? page_read_bytes) then panic
        else
          memset0 (wrap32 (kpage + page_read_bytes)) page_zero_bytes ;;
          mmap_pages fuel' mi mfile (read_bytes - page_read_bytes)
            (ofs + page_read_bytes) (wrap32 (addr + PGSIZE))
    end
  else ret tt.

Definition mmap (fd addr : Z) : M Z :=
  if (fd =? 0) || (fd =? 1) || (addr =? 0) then ret (-1)
  else if negb (pg_ofs addr =? 0) then ret (-1)
  else
    f ← gets (fun w => fd_table w !! fd) ;
    match f with
    | None => ret (-1)
    | Some f =>
        len ← file_length f ;
        if len =? 0 then ret (-1)
        else
          hit ← gets (fun w => find_mapping_addr (mmap_table w) addr) ;
          if bool_decide (is_Some hit) then ret (-1)
          else
            dss ← gets data_segment_start ;
            if (addr >=? PHYS_BASE - PGSIZE) || (addr <=? dss) then ret (-1)
            else
              n ← gets (fun w => length (mmap_table w)) ;
              let id := Z.of_nat n + 1 in
              mfile ← file_reopen f ;
              modify (set_mmap_table
                        (fun t => t ++ [mk_mapping id addr len mfile fd []])) ;;
              mmap_pages (Z.to_nat len) n mfile len 0 addr ;;
              ret id
    end.

(** ** [munmap_write], [munmap_free], [munmap] (syscall.c) *)

(** [hash_first]/[hash_next] over the SPT. *)
Definition SPT_elements (w : world) : list page := (map_to_list (SPT w)).*2.

Definition munmap_write (mapping : Z) : M unit :=
  m ← gets (fun w => find_mapping_id (mmap_table w) mapping) ;
  match m with
  | None => exit (-1)
  | Some _ =>
      spt ← gets SPT_elements ;
      lock_acquire ;;
      for_each spt (fun p =>
        if bool_decide (purpose p ≠ FOR_MMAP) then ret tt
        else
          dirty ← pagedir_is_dirty (page_addr p) ;
          if dirty
          then file_write_at (page_file p) (page_addr p) (read_bytes p) (ofs p)
          else ret tt) ;;
      lock_release
  end.

Definition munmap_free (mapping : Z) : M unit :=
  m ← gets (fun w => find_mapping_id (mmap_table w) mapping) ;
  match m with
  | None => exit (-1)
  | Some (mi, m) =>
      for_each (m_pages m) (fun p =>
        frame_free p ;;
        pagedir_clear_page p ;;
        modify (set_SPT (delete p))) ;;
      modify (set_mmap_table (delete mi))
  end.

Definition munmap (mapping : Z) : M unit :=
  munmap_write mapping ;;
  munmap_free mapping.

(** ** [open], [filesize], [seek], [tell], [check_valid] (syscall.c) *)

(** [filesys_open] of [filesys/filesys.c], not under [src/], takes a name;
    what the name resolves to is an argument here: the inode and the length
    of the file, or nothing when there is no such file.  A found file gets a
    new [struct file] at position 0. *)
Definition filesys_open (found : option (Z * Z)) : M (option Z) :=
  fun w =>
    match found with
    | Some (inode, len) =>
        let h := next_file w in
        (Ret (Some h),
         set_next_file (h + 1) (set_files <[h := mk_file inode len 0]> w))
    | None => (Ret None, w)
    end.

(** The slot search of [open], [for (i = 2; i < 130; i++)]: [n] slots are
    left to look at, from [i] on. *)
Fixpoint open_scan (n : nat) (i : Z) (f : Z) : M Z :=
  match n with
  | O => lock_release ;; ret (-1)
  | S n' =>
      slot ← gets (fun w => fd_table w !! i) ;
      match slot with
      | None =>
          modify (set_fd_table <[i := f]>) ;;
          lock_release ;;
          ret i
      | Some _ => open_scan n' (i + 1) f
      end
  end.

Definition open (found : option (Z * Z)) : M Z :=
  lock_acquire ;;
  f ← filesys_open found ;
  match f with
  | None => lock_release ;; ret (-1)
  | Some f => open_scan 128 2 f
  end.

Definition filesize (fd : Z) : M Z :=
  if (fd <? 2) || (fd >=? FD_TABLE_SIZE) then exit (-1)
  else
    f ← gets (fun w => fd_table w !! fd) ;
    match f with
    | None => exit (-1)
    | Some f =>
        lock_acquire ;;
        r ← file_length f ;
        lock_release ;;
        ret r
    end.

Definition seek (fd position : Z) : M unit :=
  if (fd <? 2) || (fd >=? FD_TABLE_SIZE) then exit (-1)
  else
    f ← gets (fun w => fd_table w !! fd) ;
    match f with
    | None => exit (-1)
    | Some f =>
        lock_acquire ;;
        file_seek f (to_int position) ;;
        lock_release
    end.

(** Modelled from the spec: [file_tell] of [filesys/file.c], not under
    [src/], the reader of the position that the spec's [file_seek] sets. *)
Definition file_tell (f : Z) : M Z :=
  fun w =>
    match files w !! f with
    | Some fo => (Ret (f_pos fo), w)
    | None => (Panic, w)
    end.

Definition tell (fd : Z) : M Z :=
  if (fd <? 2) || (fd >=? FD_TABLE_SIZE) then exit (-1)
  else
    f ← gets (fun w => fd_table w !! fd) ;
    match f with
    | None => exit (-1)
    | Some f =>
        lock_acquire ;;
        r ← file_tell f ;
        lock_release ;;
        ret (wrap32 r)
    end.

(** Modelled from the spec: [pagedir_get_page] of [userprog/pagedir.c], not
    under [src/], the lookup in the page directory that the spec's [install]
    writes: the kernel address a user address is mapped to, nothing ([NULL])
    when its page is not mapped. *)
Definition pagedir_get_page (uaddr : Z) : M (option Z) :=
  gets (fun w => match pagedir w !! pg_round_down uaddr with
                 | Some e => Some (pte_frame e + pg_ofs uaddr)
                 | None => None
                 end).

Definition check_valid (addr : Z) : M unit :=
  if (addr =? 0) || negb (is_user_vaddr addr) then exit (-1)
  else
    kaddr ← pagedir_get_page addr ;
    match kaddr with
    | None => exit (-1)
    | Some _ => ret tt
    end.

(** ** Sample states *)

(** A process with descriptor 2 open on a file of 5000 bytes, an empty SPT
    and page directory, its data segment ending at [0x08050000]. *)
Definition sample_world : world :=
  mk_world ∅ ∅ ∅ [] {[ 2 := 100 ]} {[ 100 := mk_file 7 5000 0 ]} ∅
    (PHYS_BASE - 4) 0x08050000 0 1 0xc0100000 101 true [].

(** A stack page that was evicted to swap slot 3. *)
Definition swapped_stack_world : world :=
  set_SPT <[PHYS_BASE - PGSIZE :=
              mk_page 0 0 (PHYS_BASE - PGSIZE) 0 0 PGSIZE true FOR_STACK true 3]>
    sample_world.

(** A page of the executable that sits in swap slot 5, read-only or
    writable. *)
Definition swapped_file_page (writable : bool) : page :=
  mk_page 100 0 0x08048000 0 PGSIZE 0 writable FOR_FILE true 5.

(** A process whose SPT holds that page alone, with swap slot 5 in use. *)
Definition swapped_file_world (writable : bool) : world :=
  mk_world {[ 0x08048000 := swapped_file_page writable ]} ∅ ∅ []
    {[ 2 := 100 ]} {[ 100 := mk_file 7 5000 0 ]} {[ 5 ]}
    (PHYS_BASE - 4) 0x08050000 0 1 0xc0100000 101 true [].

(** The executable's first page, not yet loaded. *)
Definition lazy_file_page : page :=
  mk_page 100 0 0x08048000 0 PGSIZE 0 false FOR_FILE false 0.

(** A process with that page in its SPT, in a state in which no page-table
    page can be had. *)
Definition no_page_table_world : world :=
  mk_world {[ 0x08048000 := lazy_file_page ]} ∅ ∅ []
    {[ 2 := 100 ]} {[ 100 := mk_file 7 5000 0 ]} ∅
    (PHYS_BASE - 4) 0x08050000 0 1 0xc0100000 101 false [].

(** Two mappings of the sample file, at [0x20000000] (id 1) and at
    [0x20002000] (id 2); the first page of the second one is resident and
    dirty. *)
Definition two_mappings_world : world :=
  set_pagedir <[ 0x20002000 := mk_pte 0xc0200000 true true ]>
    (snd (mmap 2 0x20002000 (snd (mmap 2 0x20000000 sample_world)))).

(** Two mappings, the first one unmapped, then a third mapping. *)
Definition remap_run : M (Z * Z * Z) :=
  id1 ← mmap 2 0x20000000 ;
  id2 ← mmap 2 0x20002000 ;
  munmap id1 ;;
  id3 ← mmap 2 0x20004000 ;
  ret (id1, id2, id3).

(** The sample file mapped at [0x20000000], no page of it loaded yet. *)
Definition mapped_world : world := snd (mmap 2 0x20000000 sample_world).

(** ** Vocabulary of the statements *)

(** The process was ended with the given exit status. *)
Definition terminated_with {A} (status : Z) (r : outcome A * world) : Prop :=
  fst r = Exit ∧ exit_status (snd r) = status.

(** The [write] flag of the error code. *)
Definition ec_write (error_code : Z) : bool := negb (Z.land error_code PF_W =? 0).

(** The [user] flag of the error code. *)
Definition ec_user (error_code : Z) : bool := negb (Z.land error_code PF_U =? 0).

(** The stack pointer the handler compares with. *)
Definition user_esp (error_code f_esp : Z) (w : world) : Z :=
  if ec_user error_code then f_esp else esp w.

(** What [file_read] hands back when a page is loaded: the bytes left in the
    file from the entry's offset, at most [read_bytes]. *)
Definition page_got (p : page) (fo : file) : Z :=
  Z.max 0 (Z.min (to_int (read_bytes p)) (f_length fo - ofs p)).

(** A mapping with more pages linked at the end of its list. *)
Definition append_pages (ps : list Z) (m : mapping) : mapping :=
  mk_mapping (m_id m) (m_addr m) (m_size m) (m_file m) (m_fd m) (m_pages m ++ ps).

(** The SPT entry [mmap] makes for page [i] of a mapping of [len] bytes at
    [a], backed by the handle [mfile], with the kernel page [kpage]. *)
Definition mmap_entry (mfile a len kpage i : Z) : page :=
  mk_page mfile (i * PGSIZE) (wrap32 (a + i * PGSIZE)) kpage
    (Z.min PGSIZE (len - i * PGSIZE)) (PGSIZE - Z.min PGSIZE (len - i * PGSIZE))
    true FOR_MMAP false 0.

(** What [mmap] checks before it touches any table. *)
Definition mmap_valid (fd addr : Z) (w : world) (f : Z) (fo : file) : Prop :=
  fd ≠ 0 ∧ fd ≠ 1 ∧ addr ≠ 0 ∧ pg_ofs addr = 0 ∧
  fd_table w !! fd = Some f ∧ files w !! f = Some fo ∧
  f_length fo ≠ 0 ∧
  find_mapping_addr (mmap_table w) addr = None ∧
  data_segment_start w < addr < PHYS_BASE - PGSIZE.

(** [mmap] after its checks: the mapping record and the page loop. *)
Definition mmap_body (fd addr f len : Z) : M Z :=
  n ← gets (fun w => length (mmap_table w)) ;
  mfile ← file_reopen f ;
  modify (set_mmap_table
            (fun t => t ++ [mk_mapping (Z.of_nat n + 1) addr len mfile fd []])) ;;
  mmap_pages (Z.to_nat len) n mfile len 0 addr ;;
  ret (Z.of_nat n + 1).

(** A state with more events at the end of its log. *)
Definition add_log (evs : list event) (w : world) : world :=
  mk_world (SPT w) (pagedir w) (frame_table w) (mmap_table w) (fd_table w)
    (files w) (swap_used w) (esp w) (data_segment_start w) (exit_status w)
    (cur_tid w) (next_page w) (next_file w) (pt_ok w) (log w ++ evs).

(** The dirty bit the page directory holds for a page. *)
Definition dirty (w : world) (upage : Z) : bool :=
  match pagedir w !! upage with
  | Some e => pte_dirty e
  | None => false
  end.

(** The file writes of the write-back walk over a list of SPT entries: one
    for every entry that has purpose MMAP and a dirty page. *)
Definition writeback_events (w : world) (l : list page) : list event :=
  (λ p, EvFileWriteAt (page_file p) (page_addr p) (read_bytes p) (ofs p)) <$>
  filter (λ p, purpose p = FOR_MMAP ∧ dirty w (page_addr p) = true) l.

(** The events the page-fault handler can add to the log. *)
Definition handler_event (e : event) : bool :=
  match e with
  | EvPrintfExit _ | EvPrintfFailed | EvFileSeek _ _ | EvFileRead _ _ _ _
  | EvMemset _ _ | EvSDRead _ _ => true
  | _ => false
  end.

(** The events of the touch loop: a touch, or what a fault it raises adds. *)
Definition touch_phase_event (e : event) : bool :=
  match e with
  | EvTouch _ => true
  | _ => handler_event e
  end.

(** The addresses touched, in order. *)
Definition touches (evs : list event) : list Z :=
  omap (λ e, match e with EvTouch a => Some a | _ => None end) evs.

(** The touch loop of [read] and [write] over the first [n] bytes of the
    buffer. *)
Definition touch_loop (fuel : nat) (b n : Z) : M unit :=
  for_upto (Z.to_nat n) 0 (fun j => touch_addr fuel (wrap32 (b + j))).

(** Byte [j] of the buffer is touched in its turn: after the touches of the
    bytes before it have returned, its own touch returns and leaves the
    byte's page mapped; and if the page was not mapped when the byte was
    touched, the touch raised a fault from which [page_fault] returned. *)
Definition touched_in_turn (fuel : nat) (b : Z) (w : world) (j : Z) : Prop :=
  ∃ wj wj',
    touch_loop fuel b j w = (Ret tt, wj) ∧
    touch_addr fuel (wrap32 (b + j)) wj = (Ret tt, wj') ∧
    is_Some (pagedir wj' !! pg_round_down (wrap32 (b + j))) ∧
    (pagedir wj !! pg_round_down (wrap32 (b + j)) = None →
     ∃ wh, page_fault (wrap32 (b + j)) 0 0 (emit (EvTouch (wrap32 (b + j))) wj)
           = (Ret tt, wh)).

(** The two calls, by name. *)
Definition rw_call (fuel : nat) (is_write : bool) (fd buffer size : Z) : M Z :=
  if is_write then write fuel fd buffer size else read fuel fd buffer size.

(** The descriptor passes the first check of the call. *)
Definition rw_fd_checked (is_write : bool) (fd : Z) : bool :=
  if is_write then negb ((fd <? 1) || (fd >=? FD_TABLE_SIZE))
  else negb ((fd <? 0) || (fd =? 1) || (fd >=? FD_TABLE_SIZE)).

(** Code that touches nothing: whatever its outcome, it adds no touch to
    the log. *)
Definition quiet {A} (m : M A) : Prop :=
  ∀ w r w', m w = (r, w') →
    ∃ evs, log w' = log w ++ evs ∧ touches evs = [].

(** The pages of the [n] bytes from [buf + j] on. *)
Definition byte_pages (buf j : Z) (n : nat) : list Z :=
  (λ i : nat, pg_round_down (wrap32 (buf + (j + Z.of_nat i)))) <$> seq 0 n.

(** Every SPT entry is keyed by its own page. *)
Definition spt_wf (w : world) : Prop :=
  ∀ k p, SPT w !! k = Some p → page_addr p = k.

(** A process whose descriptor slots 2 to 129 are all taken. *)
Definition full_fd_world : world :=
  set_fd_table (fun _ => list_to_map ((λ i, (i, 100)) <$> seqZ 2 128)) sample_world.

(** The events on [filesys_lock]. *)
Definition is_lock_event (e : event) : bool :=
  match e with
  | EvLockAcquire | EvLockRelease => true
  | _ => false
  end.

(** The fields no run of the handler writes, and the keys it never
    removes. *)
Definition handler_keeps (w w' : world) : Prop :=
  mmap_table w' = mmap_table w ∧
  fd_table w' = fd_table w ∧
  data_segment_start w' = data_segment_start w ∧
  cur_tid w' = cur_tid w ∧
  next_file w' = next_file w ∧
  pt_ok w' = pt_ok w ∧
  (∀ k, is_Some (SPT w !! k) → is_Some (SPT w' !! k)) ∧
  (∀ k, is_Some (pagedir w !! k) → is_Some (pagedir w' !! k)) ∧
  (∀ f, is_Some (files w' !! f) ↔ is_Some (files w !! f)).

(** What [mmap] leaves alone; [h] is the handle of the mapping. *)
Definition mmap_keeps (h : Z) (w w' : world) : Prop :=
  fd_table w' = fd_table w ∧
  pagedir w' = pagedir w ∧
  frame_table w' = frame_table w ∧
  esp w' = esp w ∧
  exit_status w' = exit_status w ∧
  pt_ok w' = pt_ok w ∧
  (∀ g, g ≠ h → files w' !! g = files w !! g) ∧
  ∃ evs, log w' = log w ++ evs ∧ Forall (λ e, is_lock_event e = false) evs.

(** * Properties *)

(** ** Running monadic code *)

(** One equation per primitive: what a call followed by a continuation does
    to the state.  Programs are run by rewriting with these, one call at a
    time. *)

Lemma bind_Ret {A B} (m : M A) (k : A → M B) w a w' :
  m w = (Ret a, w') → bind m k w = k a w'.
Proof. intros H. unfold bind. by rewrite H. Qed.

Lemma bind_Exit {A B} (m : M A) (k : A → M B) w w' :
  m w = (Exit, w') → bind m k w = (Exit, w').
Proof. intros H. unfold bind. by rewrite H. Qed.

Lemma bind_Panic {A B} (m : M A) (k : A → M B) w w' :
  m w = (Panic, w') → bind m k w = (Panic, w').
Proof. intros H. unfold bind. by rewrite H. Qed.

Lemma bind_assoc {A B C} (m : M A) (k : A → M B) (h : B → M C) w :
  bind (bind m k) h w = bind m (fun a => bind (k a) h) w.
Proof. unfold bind. by destruct (m w) as [[a| |] w1]. Qed.

Lemma bind_ret {A B} (a : A) (k : A → M B) w : bind (ret a) k w = k a w.
Proof. reflexivity. Qed.

Lemma bind_gets {A B} (f : world → A) (k : A → M B) w :
  bind (gets f) k w = k (f w) w.
Proof. reflexivity. Qed.

Lemma bind_modify {B} (f : world → world) (k : unit → M B) w :
  bind (modify f) k w = k tt (f w).
Proof. reflexivity. Qed.

Lemma bind_trace {B} e (k : unit → M B) w : bind (trace e) k w = k tt (emit e w).
Proof. reflexivity. Qed.

Lemma bind_exit {A B} status (k : A → M B) w :
  bind (exit status) k w = exit status w.
Proof. reflexivity. Qed.

Lemma bind_panic {A B} (k : A → M B) w : bind panic k w = panic w.
Proof. reflexivity. Qed.

Lemma bind_frame_alloc {B} flags pinned (k : Z → M B) w :
  bind (frame_alloc flags pinned) k w =
  k (next_page w)
    (set_next_page (next_page w + PGSIZE)
       (set_frame_table
          <[next_page w := mk_frame 0 (negb pinned) 0 flags pinned]> w)).
Proof. reflexivity. Qed.

Lemma bind_palloc_get_page {B} flags (k : Z → M B) w :
  bind (palloc_get_page flags) k w =
  k (next_page w)
    (emit (EvPallocGetPage (next_page w)) (set_next_page (next_page w + PGSIZE) w)).
Proof. reflexivity. Qed.

Lemma bind_pagedir_set_page {B} upage kpage writable (k : bool → M B) w :
  bind (pagedir_set_page upage kpage writable) k w =
  if pt_ok w
  then k true (set_pagedir <[upage := mk_pte kpage writable false]> w)
  else k false w.
Proof. unfold bind, pagedir_set_page. by destruct (pt_ok w). Qed.

Lemma bind_file_seek {B} f pos (k : unit → M B) w fo :
  files w !! f = Some fo →
  bind (file_seek f pos) k w =
  k tt (emit (EvFileSeek f pos) (set_files <[f := file_set_pos pos fo]> w)).
Proof. intros H. unfold bind, file_seek. by rewrite H. Qed.

Lemma bind_file_seek_closed {B} f pos (k : unit → M B) w :
  files w !! f = None → bind (file_seek f pos) k w = (Panic, w).
Proof. intros H. unfold bind, file_seek. by rewrite H. Qed.

Lemma bind_file_read {B} f buf n (k : Z → M B) w fo :
  files w !! f = Some fo →
  bind (file_read f buf n) k w =
  k (Z.max 0 (Z.min n (f_length fo - f_pos fo)))
    (emit (EvFileRead f buf n (Z.max 0 (Z.min n (f_length fo - f_pos fo))))
       (set_files
          <[f := file_set_pos (f_pos fo + Z.max 0 (Z.min n (f_length fo - f_pos fo))) fo]>
          w)).
Proof. intros H. unfold bind, file_read. by rewrite H. Qed.

Lemma bind_file_read_closed {B} f buf n (k : Z → M B) w :
  files w !! f = None → bind (file_read f buf n) k w = (Panic, w).
Proof. intros H. unfold bind, file_read. by rewrite H. Qed.

Lemma bind_file_write_closed {B} f buf n (k : Z → M B) w :
  files w !! f = None → bind (file_write f buf n) k w = (Panic, w).
Proof. intros H. unfold bind, file_write. by rewrite H. Qed.

Lemma bind_file_write {B} f buf n (k : Z → M B) w fo :
  files w !! f = Some fo →
  bind (file_write f buf n) k w =
  k (Z.max 0 (Z.min n (f_length fo - f_pos fo)))
    (emit (EvFileWrite f buf n)
       (set_files
          <[f := file_set_pos (f_pos fo + Z.max 0 (Z.min n (f_length fo - f_pos fo))) fo]>
          w)).
Proof. intros H. unfold bind, file_write. by rewrite H. Qed.

Lemma bind_file_length {B} f (k : Z → M B) w fo :
  files w !! f = Some fo →
  bind (file_length f) k w = k (f_length fo) w.
Proof. intros H. unfold bind, file_length. by rewrite H. Qed.

Lemma bind_file_reopen {B} f (k : Z → M B) w fo :
  files w !! f = Some fo →
  bind (file_reopen f) k w =
  k (next_file w)
    (set_next_file (next_file w + 1)
       (set_files <[next_file w := file_set_pos 0 fo]> w)).
Proof. intros H. unfold bind, file_reopen. by rewrite H. Qed.

(** Reading a field through the setters. *)
Ltac fields :=
  cbn [SPT pagedir frame_table mmap_table fd_table files swap_used esp
       data_segment_start exit_status cur_tid next_page next_file pt_ok log
       set_SPT set_pagedir set_frame_table set_mmap_table set_files set_swap_used set_esp
       set_exit_status set_next_page set_next_file emit fst snd].

Ltac fields_in H :=
  cbn [SPT pagedir frame_table mmap_table fd_table files swap_used esp
       data_segment_start exit_status cur_tid next_page next_file pt_ok log
       set_SPT set_pagedir set_frame_table set_mmap_table set_files set_swap_used set_esp
       set_exit_status set_next_page set_next_file emit fst snd] in H.

(** Two states with the same fields are the same state. *)
Lemma world_eq w1 w2 :
  SPT w1 = SPT w2 → pagedir w1 = pagedir w2 → frame_table w1 = frame_table w2 →
  mmap_table w1 = mmap_table w2 → fd_table w1 = fd_table w2 →
  files w1 = files w2 → swap_used w1 = swap_used w2 → esp w1 = esp w2 →
  data_segment_start w1 = data_segment_start w2 →
  exit_status w1 = exit_status w2 → cur_tid w1 = cur_tid w2 →
  next_page w1 = next_page w2 → next_file w1 = next_file w2 →
  pt_ok w1 = pt_ok w2 → log w1 = log w2 → w1 = w2.
Proof. destruct w1, w2; cbn; intros; by subst. Qed.

(** The calls that need no fact about the state. *)
Ltac run1 :=
  first
    [ rewrite bind_assoc | rewrite bind_ret | rewrite bind_gets
    | rewrite bind_modify | rewrite bind_trace | rewrite bind_exit
    | rewrite bind_panic | rewrite bind_frame_alloc
    | rewrite bind_palloc_get_page | progress cbn [negb] ].

Ltac run := unfold frame_update, page_update, frame_free, pagedir_clear_page,
              SD_read, memset0, file_write_at, lock_acquire, lock_release,
              SPT_insert, SPT_search;
            repeat run1.

Lemma exit_terminated {A} status w : terminated_with status (@exit A status w).
Proof. done. Qed.

(** The handler up to the SPT lookup. *)
Lemma page_fault_unfold fault_addr error_code f_esp w :
  fault_addr ≠ 0 → is_user_vaddr fault_addr = true →
  page_fault fault_addr error_code f_esp w =
  match SPT w !! pg_round_down fault_addr with
  | None =>
      if fault_addr <=? PHYS_BASE - 0x800000 then exit (-1) w
      else if fault_addr >=? wrap32 (user_esp error_code f_esp w - 32) then
        (kpage ← frame_alloc (Z.lor PAL_USER PAL_ZERO) false ;
         tid ← gets cur_tid ;
         frame_update kpage (frame_set_is_evictable true) ;;
         frame_update kpage (frame_set_owner_thread tid) ;;
         pagedir_set_page (pg_round_down fault_addr) kpage true ;;
         SPT_insert 0 0 (pg_round_down fault_addr) kpage 0 PGSIZE true FOR_STACK ;;
         modify (set_esp fault_addr) ;;
         ret tt) w
      else exit (-1) w
  | Some p =>
      if ec_write error_code && negb (is_writable p) then exit (-1) w
      else
        match purpose p with
        | FOR_FILE | FOR_MMAP =>
            if negb (is_swapped p) then load_from_file p w else load_from_swap p w
        | FOR_STACK =>
            if negb (is_swapped p) then
              (kpage ← frame_alloc PAL_USER false ;
               page_update (page_addr p) (page_set_frame_addr kpage) ;;
               pagedir_set_page (page_addr p) kpage (is_writable p) ;;
               modify (set_esp fault_addr) ;;
               ret tt) w
            else
              (kpage ← frame_alloc PAL_USER false ;
               tid ← gets cur_tid ;
               frame_update kpage (frame_set_page_addr (page_addr p)) ;;
               frame_update kpage (frame_set_is_evictable true) ;;
               frame_update kpage (frame_set_owner_thread tid) ;;
               page_update (page_addr p) (page_set_frame_addr kpage) ;;
               page_update (page_addr p) (page_set_is_swapped false) ;;
               SD_read (swap_i p) kpage ;;
               pagedir_set_page (page_addr p) kpage (is_writable p) ;;
               modify (set_esp fault_addr) ;;
               ret tt) w
        end
  end.
Proof.
  intros Hnz Hu. unfold page_fault, user_esp, ec_user, ec_write, SPT_search.
  assert ((fault_addr =? 0) = false) as Hz by lia.
  destruct (negb (Z.land error_code PF_U =? 0));
    [rewrite bind_ret | rewrite bind_gets];
    rewrite Hz, Hu; cbn [orb negb]; rewrite bind_gets;
    (destruct (SPT w !! pg_round_down fault_addr) as [p|];
      [destruct (negb (Z.land error_code PF_W =? 0) && negb (is_writable p));
       [reflexivity | by destruct (purpose p), (negb (is_swapped p))]
      |destruct (fault_addr <=? PHYS_BASE - 8388608); [reflexivity|];
       match goal with |- context [?a >=? ?b] => destruct (a >=? b) end;
       reflexivity]).
Qed.

(** ** Words *)

Lemma wrap32_small z : 0 ≤ z < 4294967296 → wrap32 z = z.
Proof. intros H. unfold wrap32. change (2 ^ 32) with 4294967296. by apply Z.mod_small. Qed.

Lemma to_int_small z : 0 ≤ z < 2147483648 → to_int z = z.
Proof.
  intros H. unfold to_int. rewrite wrap32_small by lia.
  change (2 ^ 31) with 2147483648.
  destruct (Z.ltb_spec z 2147483648); lia.
Qed.

(** ** Stack growth: no SPT entry for the faulting page *)

Lemma page_fault_below_stack_limit fault_addr error_code f_esp w :
  fault_addr ≠ 0 →
  SPT w !! pg_round_down fault_addr = None →
  fault_addr < PHYS_BASE - 0x800000 →
  terminated_with (-1) (page_fault fault_addr error_code f_esp w).
Proof.
  intros Hnz Hspt Hlt.
  rewrite page_fault_unfold, Hspt; [|done|unfold is_user_vaddr, PHYS_BASE in *; lia].
  replace (fault_addr <=? PHYS_BASE - 8388608) with true by lia. done.
Qed.

Lemma page_fault_stack_growth fault_addr error_code f_esp w :
  is_user_vaddr fault_addr = true →
  SPT w !! pg_round_down fault_addr = None →
  PHYS_BASE - 0x800000 < fault_addr →
  wrap32 (user_esp error_code f_esp w - 32) ≤ fault_addr →
  ∃ w',
    page_fault fault_addr error_code f_esp w = (Ret tt, w') ∧
    SPT w' = <[pg_round_down fault_addr :=
                 mk_page 0 0 (pg_round_down fault_addr) (next_page w) 0 PGSIZE
                   true FOR_STACK false 0]> (SPT w) ∧
    frame_table w' !! next_page w =
      Some (mk_frame 0 true (cur_tid w) (Z.lor PAL_USER PAL_ZERO) false) ∧
    (pt_ok w = true →
     pagedir w' = <[pg_round_down fault_addr := mk_pte (next_page w) true false]>
                    (pagedir w)) ∧
    esp w' = fault_addr ∧
    exit_status w' = exit_status w.
Proof.
  intros Hu Hspt Hlim Hesp.
  rewrite page_fault_unfold, Hspt; [|unfold PHYS_BASE in *; lia|done].
  replace (fault_addr <=? PHYS_BASE - 8388608) with false by lia.
  replace (fault_addr >=? wrap32 (user_esp error_code f_esp w - 32)) with true by lia.
  unfold bind, frame_alloc, gets, frame_update, modify, pagedir_set_page, SPT_insert, ret.
  simpl. destruct (pt_ok w) eqn:Hpt; simpl;
    (eexists; split; [reflexivity|]); simpl;
    repeat split; try done;
    by rewrite !lookup_alter_eq, lookup_insert_eq.
Qed.

Lemma page_fault_outside_window fault_addr error_code f_esp w :
  is_user_vaddr fault_addr = true →
  SPT w !! pg_round_down fault_addr = None →
  PHYS_BASE - 0x800000 < fault_addr →
  fault_addr < wrap32 (user_esp error_code f_esp w - 32) →
  terminated_with (-1) (page_fault fault_addr error_code f_esp w).
Proof.
  intros Hu Hspt Hlim Hesp.
  rewrite page_fault_unfold, Hspt; [|unfold PHYS_BASE in *; lia|done].
  replace (fault_addr <=? PHYS_BASE - 8388608) with false by lia.
  replace (fault_addr >=? wrap32 (user_esp error_code f_esp w - 32)) with false by lia.
  done.
Qed.

(** C1: a fault with no SPT entry at the address [PHYS_BASE - 8 MiB] itself,
    inside the 32-byte window below the stack pointer, ends the process with
    status -1 and leaves the SPT as it was: the handler's bound test is
    [fault_addr <= PHYS_BASE - 0x800000]. *)
Theorem page_fault_at_stack_limit error_code f_esp w :
  SPT w !! pg_round_down (PHYS_BASE - 0x800000) = None →
  wrap32 (user_esp error_code f_esp w - 32) ≤ PHYS_BASE - 0x800000 →
  terminated_with (-1) (page_fault (PHYS_BASE - 0x800000) error_code f_esp w) ∧
  SPT (snd (page_fault (PHYS_BASE - 0x800000) error_code f_esp w)) = SPT w.
Proof.
  intros Hspt _.
  rewrite page_fault_unfold, Hspt; done.
Qed.

Lemma page_fault_at_stack_limit_witness :
  terminated_with (-1)
    (page_fault (PHYS_BASE - 0x800000) 6 (PHYS_BASE - 0x800000 + 16) sample_world) ∧
  SPT (snd (page_fault (PHYS_BASE - 0x800000) 6 (PHYS_BASE - 0x800000 + 16)
              sample_world)) = SPT sample_world.
Proof.
  apply (page_fault_at_stack_limit 6 (PHYS_BASE - 0x800000 + 16) sample_world).
  - reflexivity.
  - vm_compute. discriminate.
Defined.

(** ** Faults the handler refuses outright *)

Lemma page_fault_bad_addr fault_addr error_code f_esp w :
  fault_addr = 0 ∨ is_user_vaddr fault_addr = false →
  page_fault fault_addr error_code f_esp w = exit (-1) w.
Proof.
  intros Hbad. unfold page_fault.
  assert ((fault_addr =? 0) || negb (is_user_vaddr fault_addr) = true) as ->.
  { destruct Hbad as [-> | ->]; [done | apply orb_true_r]. }
  by destruct (negb (Z.land error_code PF_U =? 0)).
Qed.

Lemma page_fault_Ret_addr fault_addr error_code f_esp w w' :
  page_fault fault_addr error_code f_esp w = (Ret tt, w') →
  fault_addr ≠ 0 ∧ is_user_vaddr fault_addr = true.
Proof.
  intros Hrun.
  destruct (decide (fault_addr = 0)) as [Hz|Hz].
  { rewrite page_fault_bad_addr in Hrun by auto. discriminate. }
  destruct (is_user_vaddr fault_addr) eqn:Hu; [done|].
  rewrite page_fault_bad_addr in Hrun by auto. discriminate.
Qed.

Lemma page_fault_write_protected fault_addr error_code f_esp w p :
  fault_addr ≠ 0 → is_user_vaddr fault_addr = true →
  SPT w !! pg_round_down fault_addr = Some p →
  ec_write error_code = true → is_writable p = false →
  page_fault fault_addr error_code f_esp w = exit (-1) w.
Proof.
  intros Hnz Hu Hspt Hw Hro.
  rewrite page_fault_unfold, Hspt, Hw, Hro by assumption. reflexivity.
Qed.

(** ** Faults on an existing stack entry *)

(** C8: when a fault on a page whose SPT entry has purpose STACK, swapped or
    not, is served (the handler returns), the thread's recorded stack
    pointer is the fault address afterwards. *)
Theorem page_fault_stack_entry_sets_esp fault_addr error_code f_esp w p w' :
  SPT w !! pg_round_down fault_addr = Some p →
  purpose p = FOR_STACK →
  page_fault fault_addr error_code f_esp w = (Ret tt, w') →
  esp w' = fault_addr.
Proof.
  intros Hspt Hpu Hrun.
  destruct (page_fault_Ret_addr _ _ _ _ _ Hrun) as [Hnz Hu].
  rewrite page_fault_unfold, Hspt, Hpu in Hrun by assumption.
  destruct (ec_write error_code && negb (is_writable p)); [discriminate Hrun|].
  unfold frame_update, page_update, SD_read in Hrun.
  destruct (negb (is_swapped p)).
  - rewrite bind_frame_alloc, bind_modify, bind_pagedir_set_page in Hrun.
    fields_in Hrun.
    destruct (pt_ok w); rewrite bind_modify in Hrun; unfold ret in Hrun;
      injection Hrun as <-; reflexivity.
  - rewrite bind_frame_alloc, bind_gets, !bind_modify, bind_assoc, bind_trace,
      bind_modify, bind_pagedir_set_page in Hrun.
    fields_in Hrun.
    destruct (pt_ok w); rewrite bind_modify in Hrun; unfold ret in Hrun;
      injection Hrun as <-; reflexivity.
Qed.

Lemma page_fault_stack_entry_sets_esp_witness :
  esp (snd (page_fault (PHYS_BASE - 100) 6 (PHYS_BASE - 100) swapped_stack_world))
  = PHYS_BASE - 100.
Proof.
  apply (page_fault_stack_entry_sets_esp (PHYS_BASE - 100) 6 (PHYS_BASE - 100)
           swapped_stack_world
           (mk_page 0 0 (PHYS_BASE - PGSIZE) 0 0 PGSIZE true FOR_STACK true 3)).
  - vm_compute. reflexivity.
  - reflexivity.
  - vm_compute. reflexivity.
Defined.

(** The two stack paths do return whenever the access is permitted. *)
Lemma page_fault_stack_entry_returns fault_addr error_code f_esp w p :
  fault_addr ≠ 0 → is_user_vaddr fault_addr = true →
  SPT w !! pg_round_down fault_addr = Some p →
  purpose p = FOR_STACK →
  ec_write error_code && negb (is_writable p) = false →
  ∃ w', page_fault fault_addr error_code f_esp w = (Ret tt, w') ∧
        esp w' = fault_addr.
Proof.
  intros Hnz Hu Hspt Hpu Hperm.
  rewrite page_fault_unfold, Hspt, Hpu, Hperm by assumption.
  destruct (negb (is_swapped p)); run; rewrite bind_pagedir_set_page; fields;
    destruct (pt_ok w); run; unfold ret;
    (eexists; split; [reflexivity|]); reflexivity.
Qed.

(** ** Faults on file-backed entries *)

(** The state a reload from swap leaves, field by field. *)
Lemma load_from_swap_run p w fo :
  files w !! page_file p = Some fo →
  load_from_swap p w =
  (Ret tt,
   mk_world
     (alter (page_set_is_swapped false) (page_addr p)
        (alter (page_set_frame_addr (next_page w)) (page_addr p) (SPT w)))
     (if pt_ok w
      then <[page_addr p := mk_pte (next_page w) (is_writable p) false]> (pagedir w)
      else pagedir w)
     (<[next_page w := mk_frame (page_addr p) true (cur_tid w) PAL_USER true]>
        (frame_table w))
     (mmap_table w) (fd_table w)
     (<[page_file p := file_set_pos (ofs p) fo]> (files w))
     (swap_used w ∖ {[ swap_i p ]}) (esp w) (data_segment_start w)
     (exit_status w) (cur_tid w)
     (next_page w + PGSIZE) (next_file w) (pt_ok w)
     (log w ++ [EvFileSeek (page_file p) (ofs p); EvSDRead (swap_i p) (next_page w)]
            ++ (if pt_ok w then [] else [EvPrintfFailed]))).
Proof.
  intros Hf. unfold load_from_swap.
  rewrite (bind_file_seek _ _ _ _ _ Hf). run.
  rewrite bind_pagedir_set_page. fields.
  destruct (pt_ok w) eqn:Hpt; run; unfold ret; f_equal;
    apply world_eq; fields; try reflexivity;
    rewrite ?Hpt, <- ?(assoc_L (++)); simpl app;
    rewrite ?alter_insert_eq; reflexivity.
Qed.

(** The state a complete load from the file leaves, field by field. *)
Lemma load_from_file_full p w fo :
  files w !! page_file p = Some fo →
  page_got p fo = to_int (read_bytes p) →
  load_from_file p w =
  (Ret tt,
   mk_world
     (alter (page_set_is_swapped false) (page_addr p)
        (alter (page_set_frame_addr (next_page w)) (page_addr p) (SPT w)))
     (if pt_ok w
      then <[page_addr p := mk_pte (next_page w) (is_writable p) false]> (pagedir w)
      else pagedir w)
     (<[next_page w := mk_frame (page_addr p) true (cur_tid w) PAL_USER true]>
        (frame_table w))
     (mmap_table w) (fd_table w)
     (<[page_file p := file_set_pos (ofs p + page_got p fo) fo]> (files w))
     (swap_used w) (esp w) (data_segment_start w) (exit_status w) (cur_tid w)
     (next_page w + PGSIZE) (next_file w) (pt_ok w)
     (log w ++ [EvFileSeek (page_file p) (ofs p);
                EvFileRead (page_file p) (next_page w) (to_int (read_bytes p))
                  (page_got p fo);
                EvMemset (wrap32 (next_page w + read_bytes p)) (zero_bytes p)]
            ++ (if pt_ok w then [] else [EvPrintfFailed]))).
Proof.
  intros Hf Hgot. unfold load_from_file.
  rewrite (bind_file_seek _ _ _ _ _ Hf). run.
  erewrite bind_file_read by (fields; apply lookup_insert_eq).
  cbn [f_length f_pos file_set_pos]. fold (page_got p fo).
  rewrite Hgot, Z.eqb_refl. run.
  rewrite bind_pagedir_set_page. fields.
  destruct (pt_ok w) eqn:Hpt; run; unfold ret; f_equal;
    apply world_eq; fields; try reflexivity;
    rewrite ?Hpt, <- ?(assoc_L (++)); simpl app;
    rewrite ?alter_insert_eq, ?insert_insert_eq; reflexivity.
Qed.

(** The state a short read leaves: the frame is given back and the process
    ends with status -1. *)
Lemma load_from_file_short p w fo :
  files w !! page_file p = Some fo →
  page_got p fo ≠ to_int (read_bytes p) →
  load_from_file p w =
  (Exit,
   mk_world
     (alter (page_set_is_swapped false) (page_addr p)
        (alter (page_set_frame_addr (next_page w)) (page_addr p) (SPT w)))
     (pagedir w)
     (delete (next_page w)
        (<[next_page w := mk_frame (page_addr p) true (cur_tid w) PAL_USER true]>
           (frame_table w)))
     (mmap_table w) (fd_table w)
     (<[page_file p := file_set_pos (ofs p + page_got p fo) fo]> (files w))
     (swap_used w) (esp w) (data_segment_start w) (-1) (cur_tid w)
     (next_page w + PGSIZE) (next_file w) (pt_ok w)
     (log w ++ [EvFileSeek (page_file p) (ofs p);
                EvFileRead (page_file p) (next_page w) (to_int (read_bytes p))
                  (page_got p fo);
                EvPrintfExit (-1)])).
Proof.
  intros Hf Hgot. unfold load_from_file.
  rewrite (bind_file_seek _ _ _ _ _ Hf). run.
  erewrite bind_file_read by (fields; apply lookup_insert_eq).
  cbn [f_length f_pos file_set_pos]. fold (page_got p fo).
  apply Z.eqb_neq in Hgot. rewrite Hgot. run.
  unfold exit. f_equal.
  apply world_eq; fields; try reflexivity;
    rewrite <- ?(assoc_L (++)); simpl app;
    rewrite ?alter_insert_eq, ?insert_insert_eq; reflexivity.
Qed.

(** A page whose bytes all lie inside the file is read in full. *)
Lemma page_got_full p fo :
  0 ≤ read_bytes p ≤ PGSIZE →
  ofs p + read_bytes p ≤ f_length fo →
  page_got p fo = to_int (read_bytes p).
Proof.
  intros Hrb Hlen. unfold page_got.
  rewrite to_int_small by (change PGSIZE with 4096 in Hrb; lia). lia.
Qed.



(** A short read while a FILE or MMAP page is loaded gives the frame back
    and ends the process with status -1. *)
Lemma page_fault_short_read fault_addr error_code f_esp w p fo :
  fault_addr ≠ 0 → is_user_vaddr fault_addr = true →
  SPT w !! pg_round_down fault_addr = Some p →
  purpose p = FOR_FILE ∨ purpose p = FOR_MMAP →
  is_swapped p = false →
  ec_write error_code && negb (is_writable p) = false →
  files w !! page_file p = Some fo →
  page_got p fo ≠ to_int (read_bytes p) →
  terminated_with (-1) (page_fault fault_addr error_code f_esp w) ∧
  frame_table (snd (page_fault fault_addr error_code f_esp w)) !! next_page w = None.
Proof.
  intros Hnz Hu Hspt Hpu Hsw Hperm Hf Hshort.
  rewrite page_fault_unfold, Hspt, Hperm, Hsw by assumption. cbn [negb].
  assert (match purpose p with
          | FOR_FILE | FOR_MMAP => load_from_file p w
          | FOR_STACK =>
              (kpage ← frame_alloc PAL_USER false ;
               page_update (page_addr p) (page_set_frame_addr kpage) ;;
               pagedir_set_page (page_addr p) kpage (is_writable p) ;;
               modify (set_esp fault_addr) ;;
               ret tt) w
          end = load_from_file p w) as ->.
  { by destruct Hpu as [-> | ->]. }
  rewrite (load_from_file_short _ _ _ Hf Hshort).
  split; [done|]. fields. apply lookup_delete_eq.
Qed.

(** C4: when [pagedir_set_page] fails while a FILE or MMAP page is loaded
    (the file read being complete), the handler prints its message and
    returns: the frame stays in the frame table, no mapping is installed, and
    the exit status is not set. *)
Theorem page_fault_install_failure fault_addr error_code f_esp w p fo :
  fault_addr ≠ 0 → is_user_vaddr fault_addr = true →
  SPT w !! pg_round_down fault_addr = Some p →
  purpose p = FOR_FILE ∨ purpose p = FOR_MMAP →
  is_swapped p = false →
  ec_write error_code && negb (is_writable p) = false →
  files w !! page_file p = Some fo →
  page_got p fo = to_int (read_bytes p) →
  pt_ok w = false →
  ∃ w',
    page_fault fault_addr error_code f_esp w = (Ret tt, w') ∧
    frame_table w' !! next_page w =
      Some (mk_frame (page_addr p) true (cur_tid w) PAL_USER true) ∧
    pagedir w' = pagedir w ∧
    exit_status w' = exit_status w ∧
    last (log w') = Some EvPrintfFailed.
Proof.
  intros Hnz Hu Hspt Hpu Hsw Hperm Hf Hfull Hpt.
  rewrite page_fault_unfold, Hspt, Hperm, Hsw by assumption. cbn [negb].
  assert (match purpose p with
          | FOR_FILE | FOR_MMAP => load_from_file p w
          | FOR_STACK =>
              (kpage ← frame_alloc PAL_USER false ;
               page_update (page_addr p) (page_set_frame_addr kpage) ;;
               pagedir_set_page (page_addr p) kpage (is_writable p) ;;
               modify (set_esp fault_addr) ;;
               ret tt) w
          end = load_from_file p w) as ->.
  { by destruct Hpu as [-> | ->]. }
  rewrite (load_from_file_full _ _ _ Hf Hfull), Hpt.
  eexists. split; [reflexivity|]. fields.
  split; [apply lookup_insert_eq|].
  repeat split. by rewrite (assoc_L (++)), last_snoc.
Qed.

Lemma page_fault_install_failure_witness :
  ∃ w',
    page_fault 0x08048abc 4 (PHYS_BASE - 4) no_page_table_world = (Ret tt, w') ∧
    frame_table w' !! 0xc0100000 = Some (mk_frame 0x08048000 true 1 PAL_USER true) ∧
    pagedir w' = ∅ ∧
    exit_status w' = 0 ∧
    last (log w') = Some EvPrintfFailed.
Proof.
  apply (page_fault_install_failure 0x08048abc 4 (PHYS_BASE - 4)
           no_page_table_world lazy_file_page (mk_file 7 5000 0)).
  - discriminate.
  - reflexivity.
  - vm_compute. reflexivity.
  - left. reflexivity.
  - reflexivity.
  - reflexivity.
  - vm_compute. reflexivity.
  - vm_compute. reflexivity.
  - reflexivity.
Defined.

(** ** [mmap] *)

Lemma wrap32_add_l x y : wrap32 (wrap32 x + y) = wrap32 (x + y).
Proof. unfold wrap32. apply Zplus_mod_idemp_l. Qed.

Lemma wrap32_page_ne a i j :
  0 ≤ i < j → j * PGSIZE < 4294967296 →
  wrap32 (a + i * PGSIZE) ≠ wrap32 (a + j * PGSIZE).
Proof.
  unfold wrap32. change PGSIZE with 4096. change (2 ^ 32) with 4294967296.
  intros Hij Hj Heq.
  assert ((a + j * 4096 - (a + i * 4096)) mod 4294967296 = 0) as H0.
  { rewrite Zminus_mod, Heq, Z.sub_diag. reflexivity. }
  replace (a + j * 4096 - (a + i * 4096)) with ((j - i) * 4096) in H0 by lia.
  rewrite Z.mod_small in H0 by lia. lia.
Qed.

Lemma append_pages_nil m : append_pages [] m = m.
Proof. destruct m. unfold append_pages. cbn. by rewrite app_nil_r. Qed.

Lemma append_pages_cons p ps m :
  append_pages ps (mapping_push_page p m) = append_pages (p :: ps) m.
Proof. unfold append_pages, mapping_push_page. cbn. by rewrite <- (assoc_L (++)). Qed.

(** The page loop: with a handle that still has [read_bytes] bytes ahead of
    its position, every round reads its page in full and the loop returns. *)
Lemma mmap_pages_spec fuel : ∀ mi mfile rb o a w fo,
  files w !! mfile = Some fo →
  0 ≤ f_pos fo → f_pos fo + rb ≤ f_length fo →
  (Z.to_nat rb ≤ fuel)%nat → rb < 4294967296 →
  0 ≤ a < 4294967296 →
  ∃ w' evs ps,
    mmap_pages fuel mi mfile rb o a w = (Ret tt, w') ∧
    (∀ i, 0 ≤ i → i * PGSIZE < rb →
       SPT w' !! wrap32 (a + i * PGSIZE) =
         Some (mk_page mfile (o + i * PGSIZE) (wrap32 (a + i * PGSIZE))
                 (next_page w + i * PGSIZE)
                 (Z.min PGSIZE (rb - i * PGSIZE))
                 (PGSIZE - Z.min PGSIZE (rb - i * PGSIZE))
                 true FOR_MMAP false 0) ∧
       EvPallocGetPage (next_page w + i * PGSIZE) ∈ evs ∧
       EvFileRead mfile (next_page w + i * PGSIZE)
         (Z.min PGSIZE (rb - i * PGSIZE)) (Z.min PGSIZE (rb - i * PGSIZE)) ∈ evs) ∧
    (∀ k, (∀ i, 0 ≤ i → i * PGSIZE < rb → k ≠ wrap32 (a + i * PGSIZE)) →
       SPT w' !! k = SPT w !! k) ∧
    pagedir w' = pagedir w ∧
    frame_table w' = frame_table w ∧
    mmap_table w' = alter (append_pages ps) mi (mmap_table w) ∧
    log w' = log w ++ evs.
Proof.
  induction fuel as [|fuel IH];
    intros mi mfile rb o a w fo Hf Hpos Hlen Hfuel Hrb Ha;
    cbn [mmap_pages]; destruct (Z.gtb_spec rb 0) as [Hgt|Hle]; try lia.
  1,3: exists w, [], []; (split; [reflexivity|]);
    (split; [intros i Hi Hlt; change PGSIZE with 4096 in Hlt; lia|]);
    (split; [done|]); (split; [done|]); (split; [done|]);
    (split; [|by rewrite app_nil_r]);
    symmetry; apply list_alter_id; intros; apply append_pages_nil.
  set (prb := if rb <? PGSIZE then rb else PGSIZE).
  assert (prb = Z.min PGSIZE rb ∧ 0 < prb ≤ rb) as [Hprb Hprb'].
  { unfold prb. change PGSIZE with 4096.
    destruct (Z.ltb_spec rb 4096); lia. }
  run.
  erewrite bind_file_read by (fields; exact Hf).
  replace (Z.max 0 (Z.min prb (f_length fo - f_pos fo))) with prb by lia.
  rewrite Z.eqb_refl. run.
  match goal with |- context [mmap_pages fuel mi mfile _ _ _ ?w1] =>
    set (W1 := w1) end.
  destruct (IH mi mfile (rb - prb) (o + prb) (wrap32 (a + PGSIZE)) W1
              (file_set_pos (f_pos fo + prb) fo))
    as (w' & evs & ps & Hrun & Hcov & Hoth & Hpd & Hft & Hmt & Hlog).
  { unfold W1. fields. apply lookup_insert_eq. }
  { cbn. lia. }
  { cbn. lia. }
  { lia. }
  { lia. }
  { unfold wrap32. change (2 ^ 32) with 4294967296.
    apply Z.mod_pos_bound. lia. }
  exists w',
    ([EvPallocGetPage (next_page w); EvFileRead mfile (next_page w) prb prb;
      EvMemset (wrap32 (next_page w + prb)) (PGSIZE - prb)] ++ evs),
    (a :: ps).
  split; [exact Hrun|].
  assert (next_page W1 = next_page w + PGSIZE) as Hnp by reflexivity.
  assert (∀ j, 0 ≤ j → wrap32 (wrap32 (a + PGSIZE) + j * PGSIZE)
                        = wrap32 (a + (j + 1) * PGSIZE)) as Hshift.
  { intros j Hj. rewrite wrap32_add_l. f_equal. lia. }
  assert (∀ j, 0 ≤ j → j * PGSIZE < rb - prb →
            a ≠ wrap32 (wrap32 (a + PGSIZE) + j * PGSIZE)) as Hfresh.
  { intros j Hj Hlt. rewrite Hshift by done.
    rewrite <- (wrap32_small a) at 1 by done.
    replace a with (a + 0 * PGSIZE) at 1 by lia.
    apply wrap32_page_ne; change PGSIZE with 4096 in *; lia. }
  split.
  { intros i Hi Hlt.
    destruct (decide (i = 0)) as [->|Hne].
    - rewrite Z.mul_0_l, !Z.add_0_r, Z.sub_0_r, <- Hprb, (wrap32_small a) by done.
      split; [|split; [apply list_elem_of_here
                      |apply list_elem_of_further, list_elem_of_here]].
      rewrite Hoth by exact Hfresh.
      unfold W1. fields. apply lookup_insert_eq.
    - assert (prb = PGSIZE) as Hfullpage.
      { change PGSIZE with 4096 in *. lia. }
      destruct (Hcov (i - 1)) as (Hs & He1 & He2);
        [lia | change PGSIZE with 4096 in *; lia |].
      rewrite Hshift, Hnp, Hfullpage in * by lia.
      replace (i - 1 + 1) with i in Hs by lia.
      replace (o + PGSIZE + (i - 1) * PGSIZE) with (o + i * PGSIZE) in Hs by lia.
      replace (rb - PGSIZE - (i - 1) * PGSIZE) with (rb - i * PGSIZE) in * by lia.
      replace (next_page w + PGSIZE + (i - 1) * PGSIZE)
        with (next_page w + i * PGSIZE) in * by lia.
      split; [exact Hs|].
      split; apply elem_of_app; by right. }
  split.
  { intros k Hk. rewrite Hoth.
    - unfold W1. fields. apply lookup_insert_ne.
      specialize (Hk 0). rewrite Z.mul_0_l, Z.add_0_r, wrap32_small in Hk by done.
      intros ->. apply Hk; [lia | lia | done].
    - intros j Hj Hlt. rewrite Hshift by done.
      apply Hk; change PGSIZE with 4096 in *; lia. }
  split; [by rewrite Hpd|].
  split; [by rewrite Hft|].
  split.
  { rewrite Hmt. unfold W1. fields.
    rewrite list_alter_alter_eq. apply list_alter_ext; [|done].
    intros m _. apply append_pages_cons. }
  rewrite Hlog. unfold W1. fields.
  by rewrite <- !(assoc_L (++)).
Qed.

(** Every call either fails a check and returns -1 with the state as it
    was, or meets a descriptor whose [struct file] is gone, or passes all
    checks and runs [mmap_body]. *)
Lemma mmap_unfold fd addr w :
  mmap fd addr w = (Ret (-1), w) ∨
  (∃ f, fd_table w !! fd = Some f ∧ files w !! f = None) ∨
  (∃ f fo, mmap_valid fd addr w f fo ∧
           mmap fd addr w = mmap_body fd addr f (f_length fo) w).
Proof.
  unfold mmap.
  destruct (Z.eqb_spec fd 0) as [|Hfd0]; [by left|].
  destruct (Z.eqb_spec fd 1) as [|Hfd1]; [by left|].
  destruct (Z.eqb_spec addr 0) as [|Haddr]; [by left|].
  cbn [orb].
  destruct (Z.eqb_spec (pg_ofs addr) 0) as [Hofs|]; [|by left].
  cbn [negb]. rewrite bind_gets.
  destruct (fd_table w !! fd) as [f|] eqn:Hfd; [|by left].
  destruct (files w !! f) as [fo|] eqn:Hf; [|right; left; eauto].
  rewrite (bind_file_length _ _ _ _ Hf).
  destruct (Z.eqb_spec (f_length fo) 0) as [|Hlen]; [by left|].
  rewrite bind_gets.
  destruct (find_mapping_addr (mmap_table w) addr) as [hit|] eqn:Hhit.
  { left. by rewrite bool_decide_eq_true_2. }
  rewrite bool_decide_eq_false_2 by (by intros [? ?]).
  rewrite bind_gets.
  destruct (Z.geb_spec addr (PHYS_BASE - PGSIZE)) as [|Hhi]; [by left|].
  destruct (Z.leb_spec addr (data_segment_start w)) as [|Hlo]; [by left|].
  cbn [orb]. right. right. exists f, fo.
  split; [unfold mmap_valid; repeat split; done || lia|].
  reflexivity.
Qed.

(** The checks [mmap] does make: a call whose descriptor is stdin or stdout,
    whose address is null or not page-aligned, whose slot is empty or names
    an empty file, whose address itself lies in an existing mapping, or
    whose address is not strictly between the data-segment top and
    [PHYS_BASE - PGSIZE], returns -1 and leaves the whole state as it was,
    as long as the word found in the slot is an open file. *)
Lemma mmap_validation_failure fd addr w :
  (∀ f, fd_table w !! fd = Some f → is_Some (files w !! f)) →
  fd = 0 ∨ fd = 1 ∨ addr = 0 ∨ pg_ofs addr ≠ 0 ∨
  fd_table w !! fd = None ∨
  (∃ f fo, fd_table w !! fd = Some f ∧ files w !! f = Some fo ∧ f_length fo = 0) ∨
  (∃ m, m ∈ mmap_table w ∧ m_addr m ≤ addr < m_addr m + m_size m) ∨
  addr ≤ data_segment_start w ∨ PHYS_BASE - PGSIZE ≤ addr →
  mmap fd addr w = (Ret (-1), w).
Proof.
  intros Hwf Hbad.
  destruct (mmap_unfold fd addr w) as [Hret | [(f & Hfd & Hf) | (f & fo & Hv & _)]];
    [exact Hret | |].
  { destruct (Hwf f Hfd) as [fo Hfo]. congruence. }
  exfalso.
  destruct Hv as (Hfd0 & Hfd1 & Haddr & Hofs & Hfd & Hf & Hlen & Hhit & Hrange).
  destruct Hbad as [?|[?|[?|[?|[Hnone|[(f' & fo' & Hfd' & Hf' & Hlen')|[(m & Hm & Hin)|[?|?]]]]]]]];
    try done; try lia.
  - congruence.
  - rewrite Hfd in Hfd'. injection Hfd' as <-. rewrite Hf in Hf'. congruence.
  - unfold find_mapping_addr in Hhit. apply list_find_None in Hhit.
    rewrite Forall_forall in Hhit. by apply (Hhit m).
Qed.

Lemma mmap_validation_failure_witness :
  mmap 2 0x20000800 sample_world = (Ret (-1), sample_world).
Proof.
  apply mmap_validation_failure.
  - intros f Hf. vm_compute in Hf. injection Hf as <-. vm_compute. eauto.
  - right. right. right. left. vm_compute. discriminate.
Defined.

Lemma page_index_bound len i :
  0 ≤ i < (len + PGSIZE - 1) / PGSIZE ↔ 0 ≤ i ∧ i * PGSIZE < len.
Proof.
  change PGSIZE with 4096.
  split.
  - intros [Hi Hlt]. split; [done|].
    destruct (Z.lt_ge_cases (i * 4096) len) as [|Hge]; [done|exfalso].
    assert ((len + 4096 - 1) / 4096 ≤ i); [|lia].
    apply Z.lt_succ_r, Z.div_lt_upper_bound; lia.
  - intros [Hi Hlt]. split; [done|].
    enough (i + 1 ≤ (len + 4096 - 1) / 4096) by lia.
    apply Z.div_le_lower_bound; lia.
Qed.

(** The run of [mmap_body] on a file of [len] bytes. *)
Lemma mmap_body_spec fd addr f w fo :
  files w !! f = Some fo →
  f_length fo < 2147483648 →
  0 ≤ addr < 4294967296 →
  ∃ w' evs ps,
    mmap_body fd addr f (f_length fo) w
      = (Ret (Z.of_nat (length (mmap_table w)) + 1), w') ∧
    (∀ i, 0 ≤ i < (f_length fo + PGSIZE - 1) / PGSIZE →
       SPT w' !! wrap32 (addr + i * PGSIZE) =
         Some (mmap_entry (next_file w) addr (f_length fo)
                 (next_page w + i * PGSIZE) i) ∧
       EvPallocGetPage (next_page w + i * PGSIZE) ∈ evs ∧
       EvFileRead (next_file w) (next_page w + i * PGSIZE)
         (Z.min PGSIZE (f_length fo - i * PGSIZE))
         (Z.min PGSIZE (f_length fo - i * PGSIZE)) ∈ evs) ∧
    (∀ k, (∀ i, 0 ≤ i < (f_length fo + PGSIZE - 1) / PGSIZE →
             k ≠ wrap32 (addr + i * PGSIZE)) →
       SPT w' !! k = SPT w !! k) ∧
    pagedir w' = pagedir w ∧
    frame_table w' = frame_table w ∧
    mmap_table w' =
      mmap_table w ++
        [mk_mapping (Z.of_nat (length (mmap_table w)) + 1) addr (f_length fo)
           (next_file w) fd ps] ∧
    log w' = log w ++ evs.
Proof.
  intros Hf Hlen Haddr. unfold mmap_body.
  rewrite bind_gets, (bind_file_reopen _ _ _ _ Hf), bind_modify.
  match goal with |- context [bind (mmap_pages _ _ _ _ _ _) _ ?w1] =>
    set (W1 := w1) end.
  destruct (mmap_pages_spec (Z.to_nat (f_length fo)) (length (mmap_table w))
              (next_file w) (f_length fo) 0 addr W1 (file_set_pos 0 fo))
    as (w' & evs & ps & Hrun & Hcov & Hoth & Hpd & Hft & Hmt & Hlog).
  { unfold W1. fields. apply lookup_insert_eq. }
  { cbn. lia. }
  { cbn. lia. }
  { lia. }
  { lia. }
  { done. }
  exists w', evs, ps.
  rewrite (bind_Ret _ _ _ _ _ Hrun). split; [reflexivity|].
  split.
  { intros i Hi. apply page_index_bound in Hi as [Hi Hlt].
    destruct (Hcov i Hi Hlt) as (Hs & He1 & He2).
    rewrite Z.add_0_l in Hs. done. }
  split.
  { intros k Hk. rewrite Hoth; [done|].
    intros i Hi Hlt. apply Hk, page_index_bound. done. }
  split; [done|]. split; [done|]. split; [|done].
  rewrite Hmt. unfold W1. fields.
  replace (length (mmap_table w)) with (length (mmap_table w) + 0)%nat at 1 by lia.
  rewrite alter_app_r. cbn. unfold append_pages. cbn. reflexivity.
Qed.

(** C2: what a successful [mmap] of a file of [len] bytes does.  The
    entries are as the claim has them: for each of the ceil(len/PGSIZE)
    covered pages one SPT entry with purpose MMAP, not swapped, writable,
    with offset [i * PGSIZE], [read_bytes] the rest of the file up to a page
    and [zero_bytes] the remainder of the page, no MMU mapping installed and
    no frame taken from the frame table.  Against the claim, the page loop
    also takes a kernel page from [palloc_get_page] for every page, records it
    in the entry and reads the page's [read_bytes] bytes of the re-opened file
    into it at [mmap] time, although the handler's MMAP branch loads the page
    again, into a frame of its own, at the first fault. *)
Theorem mmap_creates_entries fd addr w id w' f fo :
  mmap fd addr w = (Ret id, w') → id ≠ -1 →
  fd_table w !! fd = Some f → files w !! f = Some fo →
  f_length fo < 2147483648 → 0 ≤ addr →
  id = Z.of_nat (length (mmap_table w)) + 1 ∧
  (∀ i, 0 ≤ i < (f_length fo + PGSIZE - 1) / PGSIZE →
     SPT w' !! wrap32 (addr + i * PGSIZE) =
       Some (mmap_entry (next_file w) addr (f_length fo)
               (next_page w + i * PGSIZE) i) ∧
     EvPallocGetPage (next_page w + i * PGSIZE)
       ∈ drop (length (log w)) (log w') ∧
     EvFileRead (next_file w) (next_page w + i * PGSIZE)
       (Z.min PGSIZE (f_length fo - i * PGSIZE))
       (Z.min PGSIZE (f_length fo - i * PGSIZE))
       ∈ drop (length (log w)) (log w')) ∧
  (∀ k, (∀ i, 0 ≤ i < (f_length fo + PGSIZE - 1) / PGSIZE →
           k ≠ wrap32 (addr + i * PGSIZE)) →
     SPT w' !! k = SPT w !! k) ∧
  pagedir w' = pagedir w ∧
  frame_table w' = frame_table w ∧
  ∃ ps, mmap_table w' =
          mmap_table w ++ [mk_mapping id addr (f_length fo) (next_file w) fd ps].
Proof.
  intros Hrun Hid Hfd Hf Hlen Haddr.
  destruct (mmap_unfold fd addr w) as [Hret | [(f' & Hfd' & Hf') | (f' & fo' & Hv & Hbody)]].
  { rewrite Hret in Hrun. congruence. }
  { congruence. }
  destruct Hv as (_ & _ & _ & _ & Hfd' & Hf' & _ & _ & Hrange).
  rewrite Hfd in Hfd'. injection Hfd' as <-.
  rewrite Hf in Hf'. injection Hf' as <-.
  destruct (mmap_body_spec fd addr f w fo Hf Hlen)
    as (w1 & evs & ps & Hrun' & Hcov & Hoth & Hpd & Hft & Hmt & Hlog).
  { change PGSIZE with 4096 in Hrange.
    change PHYS_BASE with 3221225472 in Hrange. lia. }
  rewrite Hbody, Hrun' in Hrun. injection Hrun as <- <-.
  rewrite Hlog, drop_app_length.
  split; [done|]. split; [done|]. split; [done|]. split; [done|]. split; [done|].
  by exists ps.
Qed.

Lemma mmap_creates_entries_witness :
  1 = Z.of_nat (length (mmap_table sample_world)) + 1 ∧
  (∀ i, 0 ≤ i < (5000 + PGSIZE - 1) / PGSIZE →
     SPT (snd (mmap 2 0x20000000 sample_world)) !! wrap32 (0x20000000 + i * PGSIZE) =
       Some (mmap_entry 101 0x20000000 5000 (0xc0100000 + i * PGSIZE) i) ∧
     EvPallocGetPage (0xc0100000 + i * PGSIZE)
       ∈ drop 0 (log (snd (mmap 2 0x20000000 sample_world))) ∧
     EvFileRead 101 (0xc0100000 + i * PGSIZE)
       (Z.min PGSIZE (5000 - i * PGSIZE)) (Z.min PGSIZE (5000 - i * PGSIZE))
       ∈ drop 0 (log (snd (mmap 2 0x20000000 sample_world)))) ∧
  (∀ k, (∀ i, 0 ≤ i < (5000 + PGSIZE - 1) / PGSIZE →
           k ≠ wrap32 (0x20000000 + i * PGSIZE)) →
     SPT (snd (mmap 2 0x20000000 sample_world)) !! k = SPT sample_world !! k) ∧
  pagedir (snd (mmap 2 0x20000000 sample_world)) = pagedir sample_world ∧
  frame_table (snd (mmap 2 0x20000000 sample_world)) = frame_table sample_world ∧
  ∃ ps, mmap_table (snd (mmap 2 0x20000000 sample_world)) =
          mmap_table sample_world ++ [mk_mapping 1 0x20000000 5000 101 2 ps].
Proof.
  apply (mmap_creates_entries 2 0x20000000 sample_world 1
           (snd (mmap 2 0x20000000 sample_world)) 100 (mk_file 7 5000 0)).
  - vm_compute. reflexivity.
  - discriminate.
  - vm_compute. reflexivity.
  - vm_compute. reflexivity.
  - vm_compute. reflexivity.
  - vm_compute. discriminate.
Defined.

(** C2 at a concrete call: this successful [mmap] of a 5000-byte file takes
    two kernel pages and reads the whole file, 4096 and 904 bytes, before it
    returns. *)
Lemma mmap_reads_file_counterexample :
  fst (mmap 2 0x20000000 sample_world) = Ret 1 ∧
  log (snd (mmap 2 0x20000000 sample_world)) =
    [EvPallocGetPage 0xc0100000; EvFileRead 101 0xc0100000 4096 4096;
     EvMemset 0xc0101000 0;
     EvPallocGetPage 0xc0101000; EvFileRead 101 0xc0101000 904 904;
     EvMemset 0xc0101388 3192].
Proof. vm_compute. split; reflexivity. Qed.

(** ** [munmap] *)

Lemma add_log_nil w : add_log [] w = w.
Proof. destruct w. unfold add_log. cbn. by rewrite app_nil_r. Qed.

Lemma add_log_add_log evs1 evs2 w :
  add_log evs2 (add_log evs1 w) = add_log (evs1 ++ evs2) w.
Proof. unfold add_log. cbn. by rewrite (assoc_L (++)). Qed.

Lemma writeback_walk l : ∀ w,
  for_each l (fun p =>
      if bool_decide (purpose p ≠ FOR_MMAP) then ret tt
      else
        dirty ← pagedir_is_dirty (page_addr p) ;
        if dirty
        then file_write_at (page_file p) (page_addr p) (read_bytes p) (ofs p)
        else ret tt) w
  = (Ret tt, add_log (writeback_events w l) w).
Proof.
  induction l as [|p l IH]; intros w; cbn [for_each].
  { by rewrite add_log_nil. }
  unfold writeback_events. rewrite filter_cons.
  destruct (decide (purpose p = FOR_MMAP)) as [Hpu|Hpu].
  - rewrite bool_decide_eq_false_2 by (by intros ?).
    unfold pagedir_is_dirty. rewrite bind_assoc, bind_gets. fold (dirty w (page_addr p)).
    destruct (dirty w (page_addr p)) eqn:Hd.
    + rewrite decide_True by done.
      unfold file_write_at. rewrite bind_trace, IH.
      f_equal. rewrite fmap_cons. unfold writeback_events.
      change (emit ?e w) with (add_log [e] w). rewrite add_log_add_log.
      reflexivity.
    + rewrite decide_False by (intros [_ ?]; congruence).
      rewrite bind_ret. apply IH.
  - rewrite bool_decide_eq_true_2 by done.
    rewrite decide_False by (by intros [? _]).
    rewrite bind_ret. apply IH.
Qed.

Lemma munmap_write_run id w :
  is_Some (find_mapping_id (mmap_table w) id) →
  munmap_write id w =
  (Ret tt,
   add_log ([EvLockAcquire] ++ writeback_events w (SPT_elements w) ++ [EvLockRelease]) w).
Proof.
  intros [m Hm]. unfold munmap_write, lock_acquire, lock_release.
  rewrite bind_gets, Hm, bind_gets, bind_trace.
  change (emit ?e w) with (add_log [e] w).
  erewrite bind_Ret by apply writeback_walk.
  unfold trace, modify.
  change (emit ?e ?w') with (add_log [e] w').
  by rewrite !add_log_add_log.
Qed.

(** The teardown walk changes neither the mapping table nor the open files
    nor the log; it removes the SPT entries of the pages it walks. *)
Lemma unmap_walk ps : ∀ w,
  ∃ w',
    for_each ps (fun p =>
      frame_free p ;;
      pagedir_clear_page p ;;
      modify (set_SPT (delete p))) w = (Ret tt, w') ∧
    mmap_table w' = mmap_table w ∧
    files w' = files w ∧
    log w' = log w ∧
    (∀ k, k ∉ ps → SPT w' !! k = SPT w !! k) ∧
    (∀ k, k ∈ ps → SPT w' !! k = None).
Proof.
  induction ps as [|p ps IH]; intros w; cbn [for_each].
  { exists w. repeat split; try done. intros ? Hk. by apply not_elem_of_nil in Hk. }
  run.
  match goal with |- context [for_each ps _ ?w1] => set (W1 := w1) end.
  destruct (IH W1) as (w' & Hrun & Hmt & Hf & Hlog & Hkeep & Hgone).
  exists w'. split; [exact Hrun|].
  split; [by rewrite Hmt|]. split; [by rewrite Hf|]. split; [by rewrite Hlog|].
  split.
  - intros k Hk. apply not_elem_of_cons in Hk as [Hne Hk].
    rewrite Hkeep by done. unfold W1. fields. by apply lookup_delete_ne.
  - intros k Hk.
    destruct (decide (k ∈ ps)) as [Hin|Hnin]; [by apply Hgone|].
    apply elem_of_cons in Hk as [->|Hk]; [|done].
    rewrite Hkeep by done. unfold W1. fields. apply lookup_delete_eq.
Qed.

Lemma munmap_run id w mi m :
  find_mapping_id (mmap_table w) id = Some (mi, m) →
  ∃ w',
    munmap id w = (Ret tt, w') ∧
    mmap_table w' = delete mi (mmap_table w) ∧
    files w' = files w ∧
    log w' = log w ++ [EvLockAcquire] ++ writeback_events w (SPT_elements w)
                   ++ [EvLockRelease] ∧
    (∀ k, k ∉ m_pages m → SPT w' !! k = SPT w !! k) ∧
    (∀ k, k ∈ m_pages m → SPT w' !! k = None).
Proof.
  intros Hm. unfold munmap.
  erewrite bind_Ret by (apply munmap_write_run; eauto).
  unfold munmap_free. rewrite bind_gets.
  replace (mmap_table (add_log _ w)) with (mmap_table w) by reflexivity.
  rewrite Hm.
  match goal with |- context [bind (for_each _ _) _ ?w1] => set (W1 := w1) end.
  destruct (unmap_walk (m_pages m) W1)
    as (w' & Hrun & Hmt & Hf & Hlog & Hkeep & Hgone).
  rewrite (bind_Ret _ _ _ _ _ Hrun).
  eexists. split; [reflexivity|]. fields.
  rewrite Hmt, Hf, Hlog. repeat split; try done.
Qed.

(** C5: [munmap] of an existing mapping returns with the mapping record
    removed from the table, but the mapping's re-opened file handle is still
    open afterwards and no [file_close] was called: the call in
    [munmap_free] is commented out. *)
Theorem munmap_leaves_file_open id w mi m :
  find_mapping_id (mmap_table w) id = Some (mi, m) →
  ∃ w',
    munmap id w = (Ret tt, w') ∧
    mmap_table w' = delete mi (mmap_table w) ∧
    files w' !! m_file m = files w !! m_file m ∧
    ∀ f, EvFileClose f ∉ drop (length (log w)) (log w').
Proof.
  intros Hm.
  destruct (munmap_run id w mi m Hm) as (w' & Hrun & Hmt & Hf & Hlog & _).
  exists w'. split; [done|]. split; [done|]. split; [by rewrite Hf|].
  intros f. rewrite Hlog, drop_app_length.
  rewrite !elem_of_app, !list_elem_of_singleton. unfold writeback_events.
  rewrite list_elem_of_fmap. intros [?|[(p & ? & _)|?]]; discriminate.
Qed.

(** C9: [munmap] of an existing mapping writes, between taking and releasing
    the filesystem lock, every page of the process's SPT that has purpose
    MMAP and is dirty, at its recorded offset and length, whichever mapping
    the page belongs to. *)
Theorem munmap_writes_every_dirty_mmap_page id w :
  is_Some (find_mapping_id (mmap_table w) id) →
  ∃ w',
    munmap id w = (Ret tt, w') ∧
    drop (length (log w)) (log w') =
      [EvLockAcquire] ++ writeback_events w (SPT_elements w) ++ [EvLockRelease] ∧
    ∀ k p,
      SPT w !! k = Some p → purpose p = FOR_MMAP → dirty w (page_addr p) = true →
      EvFileWriteAt (page_file p) (page_addr p) (read_bytes p) (ofs p)
        ∈ drop (length (log w)) (log w').
Proof.
  intros [[mi m] Hm].
  destruct (munmap_run id w mi m Hm) as (w' & Hrun & _ & _ & Hlog & _).
  exists w'. split; [done|].
  rewrite Hlog, drop_app_length. split; [done|].
  intros k p Hk Hpu Hd.
  apply elem_of_app. right. apply elem_of_app. left.
  unfold writeback_events. apply list_elem_of_fmap.
  exists p. split; [done|].
  apply list_elem_of_filter. split; [done|].
  unfold SPT_elements. apply list_elem_of_fmap.
  exists (k, p). split; [done|]. by apply elem_of_map_to_list.
Qed.

Lemma munmap_leaves_file_open_witness :
  ∃ w',
    munmap 1 two_mappings_world = (Ret tt, w') ∧
    mmap_table w' = delete 0%nat (mmap_table two_mappings_world) ∧
    files w' !! 101 = Some (mk_file 7 5000 5000) ∧
    ∀ f, EvFileClose f ∉ drop (length (log two_mappings_world)) (log w').
Proof.
  change (Some (mk_file 7 5000 5000)) with (files two_mappings_world !! 101).
  apply (munmap_leaves_file_open 1 two_mappings_world 0%nat
           (mk_mapping 1 0x20000000 5000 101 2 [0x20000000; 0x20001000])).
  vm_compute. reflexivity.
Defined.

Lemma munmap_writes_every_dirty_mmap_page_witness :
  ∃ w',
    munmap 1 two_mappings_world = (Ret tt, w') ∧
    drop (length (log two_mappings_world)) (log w') =
      [EvLockAcquire]
        ++ writeback_events two_mappings_world (SPT_elements two_mappings_world)
        ++ [EvLockRelease] ∧
    ∀ k p,
      SPT two_mappings_world !! k = Some p → purpose p = FOR_MMAP →
      dirty two_mappings_world (page_addr p) = true →
      EvFileWriteAt (page_file p) (page_addr p) (read_bytes p) (ofs p)
        ∈ drop (length (log two_mappings_world)) (log w').
Proof.
  apply (munmap_writes_every_dirty_mmap_page 1 two_mappings_world).
  vm_compute. eauto.
Defined.

(** Unmapping mapping 1 writes the dirty page at [0x20002000], which belongs
    to mapping 2, to the file of mapping 2. *)
Example munmap_writes_other_mapping :
  drop (length (log two_mappings_world)) (log (snd (munmap 1 two_mappings_world))) =
    [EvLockAcquire; EvFileWriteAt 102 0x20002000 4096 0; EvLockRelease] ∧
  (λ m, (m_id m, m_pages m)) <$> mmap_table (snd (munmap 1 two_mappings_world)) =
    [(2, [0x20002000; 0x20003000])].
Proof. vm_compute. split; reflexivity. Qed.

(** ** Mapping ids *)

(** C7: after [mmap], [mmap], [munmap] of the first mapping and a third
    [mmap], all successful, the third call has returned the id 2 while the
    second mapping, which has id 2, is still in the table: the id is
    [list_size (&t->mmap_table) + 1]. *)
Theorem mmap_id_reused :
  fst (remap_run sample_world) = Ret (1, 2, 2) ∧
  (λ m, (m_id m, m_addr m)) <$> mmap_table (snd (remap_run sample_world)) =
    [(2, 0x20002000); (2, 0x20004000)].
Proof. vm_compute. split; reflexivity. Qed.

(** ** [read] and [write]: the buffer is touched before the lock is taken *)

Lemma touches_app evs1 evs2 : touches (evs1 ++ evs2) = touches evs1 ++ touches evs2.
Proof. apply omap_app. Qed.

Lemma touches_handler evs : forallb handler_event evs = true → touches evs = [].
Proof.
  induction evs as [|e evs IH]; [done|].
  cbn [forallb]. intros [He Hevs]%andb_true_iff.
  destruct e; try discriminate He; exact (IH Hevs).
Qed.

Lemma handler_touch_phase evs :
  forallb handler_event evs = true → forallb touch_phase_event evs = true.
Proof.
  induction evs as [|e evs IH]; [done|].
  cbn [forallb]. intros [He Hevs]%andb_true_iff.
  rewrite IH by done. by destruct e.
Qed.

(** Whatever the handler does, it adds only handler events to the log. *)
Lemma page_fault_log fault_addr error_code f_esp w r w' :
  page_fault fault_addr error_code f_esp w = (r, w') →
  ∃ evs, log w' = log w ++ evs ∧ forallb handler_event evs = true.
Proof.
  intros Hrun.
  destruct (decide (fault_addr = 0)) as [Hz|Hnz].
  { rewrite page_fault_bad_addr in Hrun by auto. injection Hrun as <- <-.
    exists [EvPrintfExit (-1)]; split; reflexivity. }
  destruct (is_user_vaddr fault_addr) eqn:Hu.
  2:{ rewrite page_fault_bad_addr in Hrun by auto. injection Hrun as <- <-.
      exists [EvPrintfExit (-1)]; split; reflexivity. }
  rewrite page_fault_unfold in Hrun by assumption.
  destruct (SPT w !! pg_round_down fault_addr) as [p|].
  - destruct (ec_write error_code && negb (is_writable p)).
    { injection Hrun as <- <-. exists [EvPrintfExit (-1)]; split; reflexivity. }
    assert (∀ m : M unit, (m = load_from_file p ∨ m = load_from_swap p) →
              m w = (r, w') →
              ∃ evs, log w' = log w ++ evs ∧ forallb handler_event evs = true)
      as Hload.
    { intros m Hm Hmrun.
      destruct (files w !! page_file p) as [fo|] eqn:Hf.
      - destruct Hm as [-> | ->].
        + destruct (decide (page_got p fo = to_int (read_bytes p))) as [Hg|Hg].
          * rewrite (load_from_file_full _ _ _ Hf Hg) in Hmrun.
            injection Hmrun as <- <-. eexists. split; [reflexivity|].
            destruct (pt_ok w); reflexivity.
          * rewrite (load_from_file_short _ _ _ Hf Hg) in Hmrun.
            injection Hmrun as <- <-. eexists. split; reflexivity.
        + rewrite (load_from_swap_run _ _ _ Hf) in Hmrun.
          injection Hmrun as <- <-. eexists. split; [reflexivity|].
          destruct (pt_ok w); reflexivity.
      - exists []. rewrite app_nil_r.
        destruct Hm as [-> | ->];
          unfold load_from_file, load_from_swap in Hmrun;
          rewrite (bind_file_seek_closed _ _ _ _ Hf) in Hmrun;
          injection Hmrun as <- <-; split; reflexivity. }
    destruct (purpose p).
    + destruct (negb (is_swapped p));
        [apply (Hload (load_from_file p)) | apply (Hload (load_from_swap p))];
        auto.
    + clear Hload.
      destruct (negb (is_swapped p)); revert Hrun; run;
        rewrite bind_pagedir_set_page; fields;
        destruct (pt_ok w); run; unfold ret; intros [= <- <-]; fields.
      * exists []; split; [symmetry; apply app_nil_r | reflexivity].
      * exists []; split; [symmetry; apply app_nil_r | reflexivity].
      * exists [EvSDRead (swap_i p) (next_page w)]; split; reflexivity.
      * exists [EvSDRead (swap_i p) (next_page w)]; split; reflexivity.
    + destruct (negb (is_swapped p));
        [apply (Hload (load_from_file p)) | apply (Hload (load_from_swap p))];
        auto.
  - destruct (fault_addr <=? PHYS_BASE - 8388608).
    { injection Hrun as <- <-. exists [EvPrintfExit (-1)]; split; reflexivity. }
    destruct (fault_addr >=? wrap32 (user_esp error_code f_esp w - 32)).
    2:{ injection Hrun as <- <-. exists [EvPrintfExit (-1)]; split; reflexivity. }
    revert Hrun. run. rewrite bind_pagedir_set_page. fields.
    destruct (pt_ok w); run; unfold ret; intros [= <- <-]; fields;
      exists []; (split; [symmetry; apply app_nil_r | reflexivity]).
Qed.

(** ** What a served fault leaves mapped *)

Lemma spt_wf_alter f k w :
  (∀ p, page_addr (f p) = page_addr p) →
  spt_wf w → ∀ k' p, alter f k (SPT w) !! k' = Some p → page_addr p = k'.
Proof.
  intros Hf Hwf k' p. rewrite lookup_alter.
  destruct (decide (k = k')) as [->|Hne].
  - destruct (SPT w !! k') as [q|] eqn:Hq; [|done].
    cbn. intros [= <-]. rewrite Hf. by apply Hwf.
  - apply Hwf.
Qed.

(** What a run of the handler keeps: the page-table supply, the keys of the
    SPT, the mappings already installed; and, when it returns and a
    page-table page can be had, the faulting page is mapped. *)
Lemma page_fault_effect fault_addr error_code f_esp w r w' :
  page_fault fault_addr error_code f_esp w = (r, w') →
  spt_wf w →
  pt_ok w' = pt_ok w ∧
  spt_wf w' ∧
  (∀ k, is_Some (pagedir w !! k) → is_Some (pagedir w' !! k)) ∧
  (r = Ret tt → pt_ok w = true → is_Some (pagedir w' !! pg_round_down fault_addr)).
Proof.
  intros Hrun Hwf.
  destruct (decide (fault_addr = 0)) as [Hz|Hnz].
  { rewrite page_fault_bad_addr in Hrun by auto. injection Hrun as <- <-.
    repeat split; [exact Hwf | auto | discriminate]. }
  destruct (is_user_vaddr fault_addr) eqn:Hu.
  2:{ rewrite page_fault_bad_addr in Hrun by auto. injection Hrun as <- <-.
      repeat split; [exact Hwf | auto | discriminate]. }
  rewrite page_fault_unfold in Hrun by assumption.
  destruct (SPT w !! pg_round_down fault_addr) as [p|] eqn:Hspt.
  - assert (page_addr p = pg_round_down fault_addr) as Hkey by (by apply Hwf).
    destruct (ec_write error_code && negb (is_writable p)).
    { injection Hrun as <- <-.
      repeat split; [exact Hwf | auto | discriminate]. }
    assert (∀ k' q,
              alter (page_set_is_swapped false) (page_addr p)
                (alter (page_set_frame_addr (next_page w)) (page_addr p) (SPT w))
                !! k' = Some q → page_addr q = k') as Hwf2.
    { intros k' q. rewrite lookup_alter.
      destruct (decide (page_addr p = k')) as [<-|Hne].
      - destruct (alter _ _ _ !! page_addr p) as [q'|] eqn:Hq'; [|done].
        cbn. intros [= <-]. cbn.
        by apply (spt_wf_alter (page_set_frame_addr (next_page w)) (page_addr p) w)
          in Hq'.
      - by apply spt_wf_alter. }
    assert (∀ m : M unit, (m = load_from_file p ∨ m = load_from_swap p) →
              m w = (r, w') →
              pt_ok w' = pt_ok w ∧ spt_wf w' ∧
              (∀ k, is_Some (pagedir w !! k) → is_Some (pagedir w' !! k)) ∧
              (r = Ret tt → pt_ok w = true →
               is_Some (pagedir w' !! pg_round_down fault_addr))) as Hload.
    { clear Hrun. intros m Hm Hmrun.
      destruct (files w !! page_file p) as [fo|] eqn:Hf.
      - assert (∀ k, is_Some (pagedir w !! k) →
                  is_Some ((if pt_ok w
                            then <[page_addr p := mk_pte (next_page w) (is_writable p) false]>
                                   (pagedir w)
                            else pagedir w) !! k)) as Hmono.
        { intros k Hk. destruct (pt_ok w); [|done].
          rewrite lookup_insert. by destruct (decide (page_addr p = k)). }
        destruct Hm as [-> | ->].
        + destruct (decide (page_got p fo = to_int (read_bytes p))) as [Hg|Hg].
          * rewrite (load_from_file_full _ _ _ Hf Hg) in Hmrun.
            injection Hmrun as <- <-.
            split; [reflexivity|]. split; [exact Hwf2|]. split; [exact Hmono|].
            intros _ Hpt. fields. rewrite Hpt, Hkey, lookup_insert_eq. eauto.
          * rewrite (load_from_file_short _ _ _ Hf Hg) in Hmrun.
            injection Hmrun as <- <-.
            split; [reflexivity|]. split; [exact Hwf2|]. split; [auto|].
            discriminate.
        + rewrite (load_from_swap_run _ _ _ Hf) in Hmrun.
          injection Hmrun as <- <-.
          split; [reflexivity|]. split; [exact Hwf2|]. split; [exact Hmono|].
          intros _ Hpt. fields. rewrite Hpt, Hkey, lookup_insert_eq. eauto.
      - destruct Hm as [-> | ->];
          unfold load_from_file, load_from_swap in Hmrun;
          rewrite (bind_file_seek_closed _ _ _ _ Hf) in Hmrun;
          injection Hmrun as <- <-;
          (repeat split; [exact Hwf | auto | discriminate]). }
    destruct (purpose p).
    + destruct (negb (is_swapped p));
        [apply (Hload (load_from_file p)) | apply (Hload (load_from_swap p))];
        auto.
    + clear Hload.
      destruct (negb (is_swapped p)); revert Hrun; run;
        rewrite bind_pagedir_set_page; fields;
        destruct (pt_ok w) eqn:Hpt; run; unfold ret; intros [= <- <-];
        (split; [fields; by rewrite ?Hpt|]);
        (split; [unfold spt_wf; fields;
                 first [exact Hwf2 | by apply spt_wf_alter]|]);
        (split; [intros k Hk; fields;
                 rewrite ?lookup_insert; by try destruct (decide (page_addr p = k))|]);
        intros _ Hpt'; try discriminate Hpt';
        fields; rewrite Hkey, lookup_insert_eq; eauto.
    + destruct (negb (is_swapped p));
        [apply (Hload (load_from_file p)) | apply (Hload (load_from_swap p))];
        auto.
  - destruct (fault_addr <=? PHYS_BASE - 8388608).
    { injection Hrun as <- <-.
      repeat split; [exact Hwf | auto | discriminate]. }
    destruct (fault_addr >=? wrap32 (user_esp error_code f_esp w - 32)).
    2:{ injection Hrun as <- <-.
        repeat split; [exact Hwf | auto | discriminate]. }
    revert Hrun. run. rewrite bind_pagedir_set_page. fields.
    destruct (pt_ok w) eqn:Hpt; run; unfold ret; intros [= <- <-];
      (split; [fields; by rewrite ?Hpt|]);
      (split; [unfold spt_wf; fields; intros k q; rewrite lookup_insert;
               destruct (decide (pg_round_down fault_addr = k)) as [<-|];
               [by intros [= <-] | apply Hwf]|]);
      (split; [intros k Hk; fields; rewrite ?lookup_insert;
               by try destruct (decide (pg_round_down fault_addr = k))|]);
      intros _ Hpt'; try discriminate Hpt';
      fields; rewrite lookup_insert_eq; eauto.
Qed.

(** * More of the two files *)

(** Reading a field through the setters, [set_fd_table] and [add_log]
    included. *)
Ltac fields2 :=
  cbn [SPT pagedir frame_table mmap_table fd_table files swap_used esp
       data_segment_start exit_status cur_tid next_page next_file pt_ok log
       set_SPT set_pagedir set_frame_table set_mmap_table set_files set_swap_used set_esp
       set_exit_status set_next_page set_next_file set_fd_table add_log emit
       fst snd].

(** ** The handler: refusals *)

(** X1: a fault at the null address or at a kernel address ends the process
    with status -1 whatever the SPT holds; no table is changed and the
    recorded stack pointer stays. *)
Theorem page_fault_bad_address fault_addr error_code f_esp w :
  fault_addr = 0 ∨ PHYS_BASE ≤ fault_addr →
  terminated_with (-1) (page_fault fault_addr error_code f_esp w) ∧
  SPT (snd (page_fault fault_addr error_code f_esp w)) = SPT w ∧
  pagedir (snd (page_fault fault_addr error_code f_esp w)) = pagedir w ∧
  frame_table (snd (page_fault fault_addr error_code f_esp w)) = frame_table w ∧
  esp (snd (page_fault fault_addr error_code f_esp w)) = esp w.
Proof.
  intros Hbad. rewrite page_fault_bad_addr.
  - repeat split.
  - destruct Hbad as [->|Hk]; [by left|right].
    unfold is_user_vaddr. lia.
Qed.

Lemma page_fault_bad_address_witness :
  terminated_with (-1) (page_fault PHYS_BASE 4 (PHYS_BASE - 4) swapped_stack_world) ∧
  SPT (snd (page_fault PHYS_BASE 4 (PHYS_BASE - 4) swapped_stack_world))
    = SPT swapped_stack_world ∧
  pagedir (snd (page_fault PHYS_BASE 4 (PHYS_BASE - 4) swapped_stack_world))
    = pagedir swapped_stack_world ∧
  frame_table (snd (page_fault PHYS_BASE 4 (PHYS_BASE - 4) swapped_stack_world))
    = frame_table swapped_stack_world ∧
  esp (snd (page_fault PHYS_BASE 4 (PHYS_BASE - 4) swapped_stack_world))
    = esp swapped_stack_world.
Proof.
  apply (page_fault_bad_address PHYS_BASE 4 (PHYS_BASE - 4) swapped_stack_world).
  right. lia.
Defined.

(** X2: a write fault on a page whose SPT entry is not writable ends the
    process with status -1, whatever the purpose and the residency of the
    entry; no frame is taken and neither the SPT nor the page directory is
    changed. *)
Theorem page_fault_write_to_read_only fault_addr error_code f_esp w p :
  fault_addr ≠ 0 → is_user_vaddr fault_addr = true →
  SPT w !! pg_round_down fault_addr = Some p →
  ec_write error_code = true → is_writable p = false →
  terminated_with (-1) (page_fault fault_addr error_code f_esp w) ∧
  SPT (snd (page_fault fault_addr error_code f_esp w)) = SPT w ∧
  pagedir (snd (page_fault fault_addr error_code f_esp w)) = pagedir w ∧
  frame_table (snd (page_fault fault_addr error_code f_esp w)) = frame_table w ∧
  next_page (snd (page_fault fault_addr error_code f_esp w)) = next_page w.
Proof.
  intros Hnz Hu Hspt Hw Hro.
  rewrite (page_fault_write_protected _ _ _ _ _ Hnz Hu Hspt Hw Hro).
  repeat split.
Qed.

Lemma page_fault_write_to_read_only_witness :
  terminated_with (-1)
    (page_fault 0x08048abc 6 (PHYS_BASE - 4) no_page_table_world) ∧
  SPT (snd (page_fault 0x08048abc 6 (PHYS_BASE - 4) no_page_table_world))
    = SPT no_page_table_world ∧
  pagedir (snd (page_fault 0x08048abc 6 (PHYS_BASE - 4) no_page_table_world))
    = pagedir no_page_table_world ∧
  frame_table (snd (page_fault 0x08048abc 6 (PHYS_BASE - 4) no_page_table_world))
    = frame_table no_page_table_world ∧
  next_page (snd (page_fault 0x08048abc 6 (PHYS_BASE - 4) no_page_table_world))
    = next_page no_page_table_world.
Proof.
  apply (page_fault_write_to_read_only 0x08048abc 6 (PHYS_BASE - 4)
           no_page_table_world lazy_file_page).
  - discriminate.
  - reflexivity.
  - vm_compute. reflexivity.
  - reflexivity.
  - reflexivity.
Defined.

(** X3: the handler looks at the error code only for its write and user
    bits, and at the frame's stack pointer only for a user-mode fault: two
    faults at one address that agree on the write bit and on the stack
    pointer compared with are handled alike, whatever the present bit
    says. *)
Theorem page_fault_error_code_bits fault_addr ec1 ec2 esp1 esp2 w :
  ec_write ec1 = ec_write ec2 →
  user_esp ec1 esp1 w = user_esp ec2 esp2 w →
  page_fault fault_addr ec1 esp1 w = page_fault fault_addr ec2 esp2 w.
Proof.
  intros Hw Hesp.
  destruct (decide (fault_addr = 0)) as [Hz|Hnz].
  { by rewrite !page_fault_bad_addr by auto. }
  destruct (is_user_vaddr fault_addr) eqn:Hu.
  2:{ by rewrite !page_fault_bad_addr by auto. }
  rewrite !page_fault_unfold by assumption.
  rewrite Hw, Hesp. reflexivity.
Qed.

Lemma page_fault_error_code_bits_witness :
  page_fault 0x08048abc 0 (PHYS_BASE - 64) no_page_table_world
  = page_fault 0x08048abc 1 0 no_page_table_world.
Proof.
  apply (page_fault_error_code_bits 0x08048abc 0 1 (PHYS_BASE - 64) 0
           no_page_table_world).
  - reflexivity.
  - reflexivity.
Defined.

(** ** The descriptor calls: [open], [filesize], [seek], [tell], [close] *)

Lemma bind_file_tell {B} f (k : Z → M B) w fo :
  files w !! f = Some fo → bind (file_tell f) k w = k (f_pos fo) w.
Proof. intros H. unfold bind, file_tell. by rewrite H. Qed.

Lemma bind_filesys_open {B} inode len (k : option Z → M B) w :
  bind (filesys_open (Some (inode, len))) k w =
  k (Some (next_file w))
    (set_next_file (next_file w + 1)
       (set_files <[next_file w := mk_file inode len 0]> w)).
Proof. reflexivity. Qed.

Lemma wrap32_to_int z : wrap32 (to_int z) = wrap32 z.
Proof.
  unfold to_int. destruct (wrap32 z <? 2 ^ 31).
  - unfold wrap32. apply Z.mod_mod. lia.
  - unfold wrap32. change (2 ^ 32) with 4294967296.
    replace (z mod 4294967296 - 4294967296)
      with (z mod 4294967296 + (-1) * 4294967296) by lia.
    rewrite Z_mod_plus_full. apply Z.mod_mod. lia.
Qed.

Lemma descriptor_in_range fd :
  2 ≤ fd < FD_TABLE_SIZE → (fd <? 2) || (fd >=? FD_TABLE_SIZE) = false.
Proof. unfold FD_TABLE_SIZE. intros H. apply orb_false_iff. lia. Qed.

Lemma descriptor_calls_reject_aux fd w :
  fd < 2 ∨ FD_TABLE_SIZE ≤ fd ∨ fd_table w !! fd = None →
  filesize fd w = exit (-1) w ∧
  (∀ position, seek fd position w = exit (-1) w) ∧
  tell fd w = exit (-1) w ∧
  close fd w = exit (-1) w.
Proof.
  intros Hbad. unfold filesize, seek, tell, close.
  destruct ((fd <? 2) || (fd >=? FD_TABLE_SIZE)) eqn:Hr; [done|].
  apply orb_false_iff in Hr as [Hlo Hhi]. unfold FD_TABLE_SIZE in *.
  destruct Hbad as [?|[?|Hnone]]; [lia|lia|].
  repeat split; try intros position; rewrite bind_gets, Hnone; reflexivity.
Qed.

(** X4: [filesize], [seek], [tell] and [close] end the process with status
    -1 when the descriptor is below 2, at or above the table size, or names
    an empty slot; they do so before the lock is taken and change nothing
    but the exit status and the exit message. *)
Theorem descriptor_calls_reject fd w :
  fd < 2 ∨ FD_TABLE_SIZE ≤ fd ∨ fd_table w !! fd = None →
  (filesize fd w = exit (-1) w ∧
   (∀ position, seek fd position w = exit (-1) w) ∧
   tell fd w = exit (-1) w ∧
   close fd w = exit (-1) w) ∧
  log (snd (close fd w)) = log w ++ [EvPrintfExit (-1)] ∧
  fd_table (snd (close fd w)) = fd_table w ∧
  files (snd (close fd w)) = files w.
Proof.
  intros Hbad.
  destruct (descriptor_calls_reject_aux fd w Hbad) as (Hsize & Hseek & Htell & Hclose).
  split; [done|]. rewrite Hclose. repeat split.
Qed.

Lemma descriptor_calls_reject_witness :
  (filesize 3 sample_world = exit (-1) sample_world ∧
   (∀ position, seek 3 position sample_world = exit (-1) sample_world) ∧
   tell 3 sample_world = exit (-1) sample_world ∧
   close 3 sample_world = exit (-1) sample_world) ∧
  log (snd (close 3 sample_world)) = log sample_world ++ [EvPrintfExit (-1)] ∧
  fd_table (snd (close 3 sample_world)) = fd_table sample_world ∧
  files (snd (close 3 sample_world)) = files sample_world.
Proof.
  apply (descriptor_calls_reject 3 sample_world).
  right. right. vm_compute. reflexivity.
Defined.

(** X5: [seek] to a position that fits an [off_t] followed by [tell] on the
    same open descriptor returns that position: both calls reach the same
    [struct file] through the descriptor table, which is left alone, and
    each takes and releases the lock once.  ([file_seek] and [file_tell] are
    modelled: the position one sets is the position the other reads.) *)
Theorem seek_then_tell fd position w f fo :
  2 ≤ fd < FD_TABLE_SIZE →
  fd_table w !! fd = Some f → files w !! f = Some fo →
  0 ≤ position < 2147483648 →
  ∃ w',
    (seek fd position ;; tell fd) w = (Ret position, w') ∧
    files w' = <[f := file_set_pos position fo]> (files w) ∧
    fd_table w' = fd_table w ∧
    log w' = log w ++ [EvLockAcquire; EvFileSeek f position; EvLockRelease;
                       EvLockAcquire; EvLockRelease].
Proof.
  intros Hfd Hslot Hf Hpos. unfold seek, tell.
  rewrite (descriptor_in_range _ Hfd). run. rewrite Hslot. run.
  erewrite bind_file_seek by (fields; exact Hf). run. fields. rewrite Hslot. run.
  erewrite bind_file_tell by (fields; apply lookup_insert_eq). run.
  cbn [f_pos file_set_pos]. rewrite to_int_small, wrap32_small by lia.
  eexists. split; [reflexivity|]. fields.
  split; [reflexivity|]. split; [reflexivity|].
  rewrite <- !(assoc_L (++)). reflexivity.
Qed.

Lemma seek_then_tell_witness :
  ∃ w',
    (seek 2 1234 ;; tell 2) sample_world = (Ret 1234, w') ∧
    files w' = <[100 := file_set_pos 1234 (mk_file 7 5000 0)]> (files sample_world) ∧
    fd_table w' = fd_table sample_world ∧
    log w' = log sample_world ++
               [EvLockAcquire; EvFileSeek 100 1234; EvLockRelease;
                EvLockAcquire; EvLockRelease].
Proof.
  apply (seek_then_tell 2 1234 sample_world 100 (mk_file 7 5000 0)).
  - unfold FD_TABLE_SIZE. lia.
  - vm_compute. reflexivity.
  - vm_compute. reflexivity.
  - lia.
Defined.

(** A [close] that passes its checks. *)
Lemma close_run fd w f :
  2 ≤ fd < FD_TABLE_SIZE → fd_table w !! fd = Some f →
  ∃ w',
    close fd w = (Ret tt, w') ∧
    fd_table w' = delete fd (fd_table w) ∧
    files w' = delete f (files w) ∧
    log w' = log w ++ [EvLockAcquire; EvFileClose f; EvLockRelease].
Proof.
  intros Hfd Hslot. unfold close.
  rewrite (descriptor_in_range _ Hfd). run. rewrite Hslot.
  unfold file_close. run. unfold trace, modify.
  eexists. split; [reflexivity|]. fields2.
  split; [reflexivity|]. split; [reflexivity|].
  by rewrite <- !(assoc_L (++)).
Qed.

(** X6: [close] of an open descriptor returns with the slot empty and the
    [struct file] closed, every other slot as it was; a second [close] of the
    same descriptor, like [filesize] on it, ends the process with status
    -1. *)
Theorem close_frees_slot fd w f :
  2 ≤ fd < FD_TABLE_SIZE → fd_table w !! fd = Some f →
  ∃ w',
    close fd w = (Ret tt, w') ∧
    fd_table w' = delete fd (fd_table w) ∧
    files w' = delete f (files w) ∧
    log w' = log w ++ [EvLockAcquire; EvFileClose f; EvLockRelease] ∧
    terminated_with (-1) (close fd w') ∧
    terminated_with (-1) (filesize fd w').
Proof.
  intros Hfd Hslot.
  destruct (close_run fd w f Hfd Hslot) as (w' & Hrun & Hfd' & Hfiles & Hlog).
  exists w'. split; [exact Hrun|]. split; [exact Hfd'|].
  split; [exact Hfiles|]. split; [exact Hlog|].
  assert (fd_table w' !! fd = None) as Hgone.
  { rewrite Hfd'. apply lookup_delete_eq. }
  destruct (descriptor_calls_reject_aux fd w') as (Hsize & _ & _ & Hclose); [auto|].
  rewrite Hsize, Hclose. split; apply exit_terminated.
Qed.

Lemma close_frees_slot_witness :
  ∃ w',
    close 2 sample_world = (Ret tt, w') ∧
    fd_table w' = delete 2 (fd_table sample_world) ∧
    files w' = delete 100 (files sample_world) ∧
    log w' = log sample_world ++ [EvLockAcquire; EvFileClose 100; EvLockRelease] ∧
    terminated_with (-1) (close 2 w') ∧
    terminated_with (-1) (filesize 2 w').
Proof.
  apply (close_frees_slot 2 sample_world 100).
  - unfold FD_TABLE_SIZE. lia.
  - vm_compute. reflexivity.
Defined.

Lemma bind_filesys_open_none {B} (k : option Z → M B) w :
  bind (filesys_open None) k w = k None w.
Proof. reflexivity. Qed.

(** The slot search: it either takes the first empty slot from [i] on, or
    finds the [n] slots from [i] on all taken. *)
Lemma open_scan_run n : ∀ i f w,
  (∃ r, i ≤ r < i + Z.of_nat n ∧ fd_table w !! r = None ∧
        (∀ j, i ≤ j < r → is_Some (fd_table w !! j)) ∧
        open_scan n i f w
          = (Ret r, emit EvLockRelease (set_fd_table <[r := f]> w))) ∨
  ((∀ j, i ≤ j < i + Z.of_nat n → is_Some (fd_table w !! j)) ∧
   open_scan n i f w = (Ret (-1), emit EvLockRelease w)).
Proof.
  induction n as [|n IH]; intros i f w; cbn [open_scan].
  { right. split; [intros j Hj; lia|]. run. reflexivity. }
  rewrite bind_gets. destruct (fd_table w !! i) as [g|] eqn:Hslot.
  - destruct (IH (i + 1) f w) as [(r & Hr & Hnone & Hleast & Hrun)|(Hfull & Hrun)].
    + left. exists r. split; [lia|]. split; [exact Hnone|].
      split; [|exact Hrun].
      intros j Hj. destruct (decide (j = i)) as [->|Hne]; [eauto|].
      apply Hleast. lia.
    + right. split; [|exact Hrun].
      intros j Hj. destruct (decide (j = i)) as [->|Hne]; [eauto|].
      apply Hfull. lia.
  - left. exists i. split; [lia|]. split; [exact Hslot|].
    split; [intros j Hj; lia|]. run. reflexivity.
Qed.

(** X7: [open] of a file that exists returns the lowest descriptor from 2
    on whose slot is empty and puts a new [struct file], at position 0, in
    that slot; no other slot and no other open file is changed, and the lock
    is taken and released once. *)
Theorem open_takes_least_free_slot inode len w i :
  2 ≤ i < FD_TABLE_SIZE →
  fd_table w !! i = None →
  (∀ j, 2 ≤ j < i → is_Some (fd_table w !! j)) →
  ∃ w',
    open (Some (inode, len)) w = (Ret i, w') ∧
    fd_table w' = <[i := next_file w]> (fd_table w) ∧
    files w' = <[next_file w := mk_file inode len 0]> (files w) ∧
    log w' = log w ++ [EvLockAcquire; EvLockRelease].
Proof.
  intros Hi Hfree Hbelow. unfold open. run. rewrite bind_filesys_open. fields.
  match goal with |- context [open_scan 128 2 _ ?w1] => set (W1 := w1) end.
  assert (fd_table W1 = fd_table w) as Hfd by reflexivity.
  unfold FD_TABLE_SIZE in Hi.
  destruct (open_scan_run 128 2 (next_file w) W1)
    as [(r & Hr & Hnone & Hleast & Hrun)|(Hfull & Hrun)].
  - rewrite Hfd in Hnone.
    assert (r = i) as ->.
    { destruct (Z.lt_trichotomy r i) as [Hlt|[Heq|Hgt]]; [|exact Heq|].
      - destruct (Hbelow r) as [g Hg]; [lia|]. congruence.
      - destruct (Hleast i) as [g Hg]; [lia|]. rewrite Hfd in Hg. congruence. }
    rewrite Hrun. eexists. split; [reflexivity|]. unfold W1. fields2.
    split; [reflexivity|]. split; [reflexivity|].
    by rewrite <- (assoc_L (++)).
  - destruct (Hfull i) as [g Hg]; [lia|]. rewrite Hfd in Hg. congruence.
Qed.

Lemma open_takes_least_free_slot_witness :
  ∃ w',
    open (Some (9, 300)) sample_world = (Ret 3, w') ∧
    fd_table w' = <[3 := next_file sample_world]> (fd_table sample_world) ∧
    files w' = <[next_file sample_world := mk_file 9 300 0]> (files sample_world) ∧
    log w' = log sample_world ++ [EvLockAcquire; EvLockRelease].
Proof.
  apply (open_takes_least_free_slot 9 300 sample_world 3).
  - unfold FD_TABLE_SIZE. lia.
  - vm_compute. reflexivity.
  - intros j Hj. assert (j = 2) as -> by lia. vm_compute. eauto.
Defined.

(** X8: when every slot from 2 to 129 is taken, [open] of a file that exists
    returns -1 with the descriptor table as it was, but the [struct file]
    that [filesys_open] made stays open: no [file_close] is called on it and
    no descriptor names it. *)
Theorem open_table_full inode len w :
  (∀ j, 2 ≤ j < FD_TABLE_SIZE → is_Some (fd_table w !! j)) →
  ∃ w',
    open (Some (inode, len)) w = (Ret (-1), w') ∧
    fd_table w' = fd_table w ∧
    files w' !! next_file w = Some (mk_file inode len 0) ∧
    log w' = log w ++ [EvLockAcquire; EvLockRelease].
Proof.
  intros Hfull. unfold open. run. rewrite bind_filesys_open. fields.
  match goal with |- context [open_scan 128 2 _ ?w1] => set (W1 := w1) end.
  assert (fd_table W1 = fd_table w) as Hfd by reflexivity.
  unfold FD_TABLE_SIZE in Hfull.
  destruct (open_scan_run 128 2 (next_file w) W1)
    as [(r & Hr & Hnone & Hleast & Hrun)|(_ & Hrun)].
  - rewrite Hfd in Hnone. destruct (Hfull r) as [g Hg]; [lia|]. congruence.
  - rewrite Hrun. eexists. split; [reflexivity|]. unfold W1. fields2.
    split; [reflexivity|]. split; [apply lookup_insert_eq|].
    by rewrite <- (assoc_L (++)).
Qed.

Lemma open_table_full_witness :
  ∃ w',
    open (Some (9, 300)) full_fd_world = (Ret (-1), w') ∧
    fd_table w' = fd_table full_fd_world ∧
    files w' !! next_file full_fd_world = Some (mk_file 9 300 0) ∧
    log w' = log full_fd_world ++ [EvLockAcquire; EvLockRelease].
Proof.
  apply (open_table_full 9 300 full_fd_world).
  intros j Hj.
  assert (Forall (λ j, is_Some (fd_table full_fd_world !! j)) (seqZ 2 128)) as Hall.
  { apply (bool_decide_unpack _). vm_compute. exact I. }
  rewrite Forall_forall in Hall. apply Hall, elem_of_seqZ.
  unfold FD_TABLE_SIZE in Hj. lia.
Defined.

(** What a returning [open] leaves, whichever slot it took. *)
Lemma open_returns found w i w1 :
  open found w = (Ret i, w1) → i ≠ -1 →
  ∃ inode len,
    found = Some (inode, len) ∧
    2 ≤ i < FD_TABLE_SIZE ∧
    fd_table w !! i = None ∧
    fd_table w1 = <[i := next_file w]> (fd_table w) ∧
    files w1 = <[next_file w := mk_file inode len 0]> (files w).
Proof.
  unfold open. run. destruct found as [[inode len]|].
  2:{ rewrite bind_filesys_open_none. run. unfold ret. intros [= <- _]. done. }
  rewrite bind_filesys_open. fields.
  match goal with |- context [open_scan 128 2 _ ?w1] => set (W1 := w1) end.
  assert (fd_table W1 = fd_table w) as Hfd by reflexivity.
  destruct (open_scan_run 128 2 (next_file w) W1)
    as [(r & Hr & Hnone & Hleast & Hrun)|(_ & Hrun)];
    rewrite Hrun; intros [= <- <-] Hne; [|done].
  exists inode, len. rewrite Hfd in Hnone. unfold FD_TABLE_SIZE, W1. fields2.
  split; [reflexivity|]. split; [lia|]. split; [exact Hnone|].
  split; reflexivity.
Qed.

(** X9: [close] of the descriptor a successful [open] has just returned
    gives back the descriptor table and the set of open files as they were
    before the [open]. *)
Theorem open_then_close found w i w1 :
  open found w = (Ret i, w1) → i ≠ -1 →
  files w !! next_file w = None →
  ∃ w2,
    close i w1 = (Ret tt, w2) ∧
    fd_table w2 = fd_table w ∧
    files w2 = files w.
Proof.
  intros Hopen Hi Hfresh.
  destruct (open_returns _ _ _ _ Hopen Hi)
    as (inode & len & _ & Hrange & Hnone & Hfd & Hfiles).
  destruct (close_run i w1 (next_file w) Hrange)
    as (w2 & Hclose & Hfd2 & Hfiles2 & _).
  { rewrite Hfd. apply lookup_insert_eq. }
  exists w2. split; [exact Hclose|].
  rewrite Hfd2, Hfiles2, Hfd, Hfiles.
  split; [by apply delete_insert_id | by apply delete_insert_id].
Qed.

(** X10: on the descriptor a successful [open] has just returned,
    [filesize] returns the length the file was found with and [tell]
    returns 0; neither changes the descriptor table or the open files. *)
Theorem open_then_filesize_tell found w i w1 :
  open found w = (Ret i, w1) → i ≠ -1 →
  ∃ inode len,
    found = Some (inode, len) ∧
    filesize i w1 = (Ret len, add_log [EvLockAcquire; EvLockRelease] w1) ∧
    tell i w1 = (Ret 0, add_log [EvLockAcquire; EvLockRelease] w1).
Proof.
  intros Hopen Hi.
  destruct (open_returns _ _ _ _ Hopen Hi)
    as (inode & len & Hfound & Hrange & _ & Hfd & Hfiles).
  exists inode, len. split; [exact Hfound|].
  assert (fd_table w1 !! i = Some (next_file w)) as Hslot.
  { rewrite Hfd. apply lookup_insert_eq. }
  assert (files w1 !! next_file w = Some (mk_file inode len 0)) as Hf.
  { rewrite Hfiles. apply lookup_insert_eq. }
  unfold filesize, tell. rewrite (descriptor_in_range _ Hrange). run.
  rewrite Hslot. run.
  erewrite bind_file_length by (fields; exact Hf).
  erewrite bind_file_tell by (fields; exact Hf). run.
  unfold ret. cbn [f_length f_pos].
  split; f_equal; apply world_eq; fields2; try reflexivity;
    by rewrite <- (assoc_L (++)).
Qed.

Lemma open_then_filesize_tell_witness :
  ∃ inode len,
    Some (9, 300) = Some (inode, len) ∧
    filesize 3 (snd (open (Some (9, 300)) sample_world))
      = (Ret len, add_log [EvLockAcquire; EvLockRelease]
                    (snd (open (Some (9, 300)) sample_world))) ∧
    tell 3 (snd (open (Some (9, 300)) sample_world))
      = (Ret 0, add_log [EvLockAcquire; EvLockRelease]
                  (snd (open (Some (9, 300)) sample_world))).
Proof.
  apply (open_then_filesize_tell (Some (9, 300)) sample_world 3
           (snd (open (Some (9, 300)) sample_world))).
  - vm_compute. reflexivity.
  - discriminate.
Defined.

Lemma open_then_close_witness :
  ∃ w2,
    close 3 (snd (open (Some (9, 300)) sample_world)) = (Ret tt, w2) ∧
    fd_table w2 = fd_table sample_world ∧
    files w2 = files sample_world.
Proof.
  apply (open_then_close (Some (9, 300)) sample_world 3
           (snd (open (Some (9, 300)) sample_world))).
  - vm_compute. reflexivity.
  - discriminate.
  - vm_compute. reflexivity.
Defined.

(** ** The handler: what it keeps *)

Lemma is_Some_alter {A} (f : A → A) (k j : Z) (m : gmap Z A) :
  is_Some (alter f k m !! j) ↔ is_Some (m !! j).
Proof.
  rewrite lookup_alter. destruct (decide (k = j)) as [->|]; [|done].
  apply fmap_is_Some.
Qed.

Lemma is_Some_insert_present {A} (k j : Z) (v : A) (m : gmap Z A) :
  is_Some (m !! k) → is_Some (<[k := v]> m !! j) ↔ is_Some (m !! j).
Proof.
  intros Hk. rewrite lookup_insert. destruct (decide (k = j)) as [->|]; [|done].
  split; eauto.
Qed.

Lemma is_Some_insert_mono {A} (k j : Z) (v : A) (m : gmap Z A) :
  is_Some (m !! j) → is_Some (<[k := v]> m !! j).
Proof.
  intros Hj. rewrite lookup_insert. destruct (decide (k = j)); eauto.
Qed.

Lemma handler_keeps_refl w : handler_keeps w w.
Proof. repeat split; auto. Qed.

Lemma handler_keeps_trans w1 w2 w3 :
  handler_keeps w1 w2 → handler_keeps w2 w3 → handler_keeps w1 w3.
Proof.
  intros (H1 & H2 & H4 & H5 & H6 & H7 & H8 & H9 & H10)
         (G1 & G2 & G4 & G5 & G6 & G7 & G8 & G9 & G10).
  repeat split; try congruence; auto.
  - intros Hf. apply H10, G10, Hf.
  - intros Hf. apply G10, H10, Hf.
Qed.

Lemma handler_keeps_exit w : handler_keeps w (snd (@exit unit (-1) w)).
Proof. repeat split; auto. Qed.

Ltac keeps_fields :=
  unfold handler_keeps; fields;
  repeat match goal with
         | |- _ ∧ _ => split
         | |- _ = _ => reflexivity
         end.

Lemma page_fault_keeps fault_addr error_code f_esp w r w' :
  page_fault fault_addr error_code f_esp w = (r, w') → handler_keeps w w'.
Proof.
  intros Hrun.
  destruct (decide (fault_addr = 0)) as [Hz|Hnz].
  { rewrite page_fault_bad_addr in Hrun by auto. injection Hrun as <- <-.
    apply handler_keeps_exit. }
  destruct (is_user_vaddr fault_addr) eqn:Hu.
  2:{ rewrite page_fault_bad_addr in Hrun by auto. injection Hrun as <- <-.
      apply handler_keeps_exit. }
  rewrite page_fault_unfold in Hrun by assumption.
  destruct (SPT w !! pg_round_down fault_addr) as [p|] eqn:Hspt.
  - destruct (ec_write error_code && negb (is_writable p)).
    { injection Hrun as <- <-. apply handler_keeps_exit. }
    assert (∀ m : M unit, (m = load_from_file p ∨ m = load_from_swap p) →
              m w = (r, w') → handler_keeps w w') as Hload.
    { clear Hrun. intros m Hm Hmrun.
      destruct (files w !! page_file p) as [fo|] eqn:Hf.
      - assert (∀ k, is_Some (pagedir w !! k) →
                  is_Some ((if pt_ok w
                            then <[page_addr p := mk_pte (next_page w) (is_writable p) false]>
                                   (pagedir w)
                            else pagedir w) !! k)) as Hmono.
        { intros k Hk. destruct (pt_ok w); [|done]. by apply is_Some_insert_mono. }
        assert (∀ k, is_Some (SPT w !! k) →
                  is_Some (alter (page_set_is_swapped false) (page_addr p)
                             (alter (page_set_frame_addr (next_page w)) (page_addr p)
                                (SPT w)) !! k)) as Hspt2.
        { intros k Hk. by rewrite !is_Some_alter. }
        assert (∀ (x : file) f,
                  is_Some (<[page_file p := x]> (files w) !! f)
                  ↔ is_Some (files w !! f)) as Hfiles.
        { intros x f. apply is_Some_insert_present. eauto. }
        destruct Hm as [-> | ->].
        + destruct (decide (page_got p fo = to_int (read_bytes p))) as [Hg|Hg].
          * rewrite (load_from_file_full _ _ _ Hf Hg) in Hmrun.
            injection Hmrun as <- <-. keeps_fields; auto.
          * rewrite (load_from_file_short _ _ _ Hf Hg) in Hmrun.
            injection Hmrun as <- <-. keeps_fields; auto.
        + rewrite (load_from_swap_run _ _ _ Hf) in Hmrun.
          injection Hmrun as <- <-. keeps_fields; auto.
      - destruct Hm as [-> | ->];
          unfold load_from_file, load_from_swap in Hmrun;
          rewrite (bind_file_seek_closed _ _ _ _ Hf) in Hmrun;
          injection Hmrun as <- <-; apply handler_keeps_refl. }
    destruct (purpose p).
    + destruct (negb (is_swapped p));
        [apply (Hload (load_from_file p)) | apply (Hload (load_from_swap p))];
        auto.
    + clear Hload.
      destruct (negb (is_swapped p)); revert Hrun; run;
        rewrite bind_pagedir_set_page; fields;
        destruct (pt_ok w) eqn:Hpt; run; unfold ret; intros [= <- <-];
        keeps_fields; auto;
        intros k Hk; rewrite ?is_Some_alter; try apply is_Some_insert_mono;
        exact Hk.
    + destruct (negb (is_swapped p));
        [apply (Hload (load_from_file p)) | apply (Hload (load_from_swap p))];
        auto.
  - destruct (fault_addr <=? PHYS_BASE - 8388608).
    { injection Hrun as <- <-. apply handler_keeps_exit. }
    destruct (fault_addr >=? wrap32 (user_esp error_code f_esp w - 32)).
    2:{ injection Hrun as <- <-. apply handler_keeps_exit. }
    revert Hrun. run. rewrite bind_pagedir_set_page. fields.
    destruct (pt_ok w) eqn:Hpt; run; unfold ret; intros [= <- <-];
      keeps_fields; auto;
      intros k Hk; try apply is_Some_insert_mono; exact Hk.
Qed.

(** X11: a fault on a user page with no SPT entry, strictly above the
    8 MiB stack limit and not lower than 32 bytes below the stack pointer
    compared with, grows the stack: the handler returns with a new zeroed,
    writable stack entry for the page, its frame owned by the current thread
    and evictable, the page mapped writable when a page-table page can be
    had, and the recorded stack pointer set to the faulting address. *)
Theorem page_fault_grows_stack fault_addr error_code f_esp w :
  is_user_vaddr fault_addr = true →
  SPT w !! pg_round_down fault_addr = None →
  PHYS_BASE - 0x800000 < fault_addr →
  wrap32 (user_esp error_code f_esp w - 32) ≤ fault_addr →
  ∃ w',
    page_fault fault_addr error_code f_esp w = (Ret tt, w') ∧
    SPT w' = <[pg_round_down fault_addr :=
                 mk_page 0 0 (pg_round_down fault_addr) (next_page w) 0 PGSIZE
                   true FOR_STACK false 0]> (SPT w) ∧
    frame_table w' !! next_page w =
      Some (mk_frame 0 true (cur_tid w) (Z.lor PAL_USER PAL_ZERO) false) ∧
    (pt_ok w = true →
     pagedir w' = <[pg_round_down fault_addr := mk_pte (next_page w) true false]>
                    (pagedir w)) ∧
    esp w' = fault_addr ∧
    log w' = log w.
Proof.
  intros Hu Hspt Hlim Hesp.
  destruct (page_fault_stack_growth _ _ _ _ Hu Hspt Hlim Hesp)
    as (w' & Hrun & HS & Hft & Hpd & Hsp & _).
  exists w'. repeat (split; [assumption|]).
  destruct (page_fault_log _ _ _ _ _ _ Hrun) as (evs & Hlog & Hevs).
  revert Hrun Hlog.
  rewrite page_fault_unfold, Hspt; [|unfold PHYS_BASE in *; lia|done].
  replace (fault_addr <=? PHYS_BASE - 8388608) with false by lia.
  replace (fault_addr >=? wrap32 (user_esp error_code f_esp w - 32)) with true by lia.
  run. rewrite bind_pagedir_set_page. fields.
  destruct (pt_ok w); run; unfold ret; intros [= <-]; reflexivity.
Qed.

Lemma page_fault_grows_stack_witness :
  ∃ w',
    page_fault (PHYS_BASE - 20) 0 0 sample_world = (Ret tt, w') ∧
    SPT w' = <[pg_round_down (PHYS_BASE - 20) :=
                 mk_page 0 0 (pg_round_down (PHYS_BASE - 20)) (next_page sample_world)
                   0 PGSIZE true FOR_STACK false 0]> (SPT sample_world) ∧
    frame_table w' !! next_page sample_world =
      Some (mk_frame 0 true (cur_tid sample_world) (Z.lor PAL_USER PAL_ZERO) false) ∧
    (pt_ok sample_world = true →
     pagedir w' = <[pg_round_down (PHYS_BASE - 20) :=
                      mk_pte (next_page sample_world) true false]>
                    (pagedir sample_world)) ∧
    esp w' = PHYS_BASE - 20 ∧
    log w' = log sample_world.
Proof.
  apply (page_fault_grows_stack (PHYS_BASE - 20) 0 0 sample_world).
  - reflexivity.
  - vm_compute. reflexivity.
  - vm_compute. reflexivity.
  - vm_compute. discriminate.
Defined.

(** X12: a fault on a page with no SPT entry is refused, the process ending
    with status -1 and nothing but the exit status and the exit message
    changed, whenever the address is at or below the 8 MiB stack limit or
    lower than 32 bytes below the stack pointer compared with. *)
Theorem page_fault_no_entry_refused fault_addr error_code f_esp w :
  SPT w !! pg_round_down fault_addr = None →
  fault_addr ≤ PHYS_BASE - 0x800000 ∨
  fault_addr < wrap32 (user_esp error_code f_esp w - 32) →
  page_fault fault_addr error_code f_esp w = exit (-1) w.
Proof.
  intros Hspt Hout.
  destruct (decide (fault_addr = 0)) as [Hz|Hnz].
  { apply page_fault_bad_addr. auto. }
  destruct (is_user_vaddr fault_addr) eqn:Hu.
  2:{ apply page_fault_bad_addr. auto. }
  rewrite page_fault_unfold, Hspt by assumption.
  destruct (Z.leb_spec fault_addr (PHYS_BASE - 8388608)) as [|Hlim]; [reflexivity|].
  destruct Hout as [Hout|Hout]; [lia|].
  replace (fault_addr >=? wrap32 (user_esp error_code f_esp w - 32)) with false by lia.
  reflexivity.
Qed.

Lemma page_fault_no_entry_refused_witness :
  page_fault (PHYS_BASE - 4096) 4 (PHYS_BASE - 64) sample_world
  = exit (-1) sample_world.
Proof.
  apply (page_fault_no_entry_refused (PHYS_BASE - 4096) 4 (PHYS_BASE - 64) sample_world).
  - vm_compute. reflexivity.
  - right. vm_compute. reflexivity.
Defined.

(** The handler's choice of the file load. *)
Lemma page_fault_lazy_load fault_addr error_code f_esp w p :
  fault_addr ≠ 0 → is_user_vaddr fault_addr = true →
  SPT w !! pg_round_down fault_addr = Some p →
  purpose p = FOR_FILE ∨ purpose p = FOR_MMAP →
  is_swapped p = false →
  ec_write error_code && negb (is_writable p) = false →
  page_fault fault_addr error_code f_esp w = load_from_file p w.
Proof.
  intros Hnz Hu Hspt Hpu Hsw Hperm.
  rewrite page_fault_unfold, Hspt, Hperm, Hsw by assumption. cbn [negb].
  by destruct Hpu as [-> | ->].
Qed.



(** X14: when the file gives fewer bytes than the entry's [read_bytes], the
    handler gives the frame back and ends the process with status -1; no
    mapping is installed, but the SPT entry keeps the address of the frame
    that was given back. *)
Theorem page_fault_short_read_frees_frame fault_addr error_code f_esp w p fo :
  fault_addr ≠ 0 → is_user_vaddr fault_addr = true →
  SPT w !! pg_round_down fault_addr = Some p →
  purpose p = FOR_FILE ∨ purpose p = FOR_MMAP →
  is_swapped p = false →
  ec_write error_code && negb (is_writable p) = false →
  files w !! page_file p = Some fo →
  page_got p fo ≠ to_int (read_bytes p) →
  page_addr p = pg_round_down fault_addr →
  terminated_with (-1) (page_fault fault_addr error_code f_esp w) ∧
  pagedir (snd (page_fault fault_addr error_code f_esp w)) = pagedir w ∧
  frame_table (snd (page_fault fault_addr error_code f_esp w)) !! next_page w = None ∧
  SPT (snd (page_fault fault_addr error_code f_esp w)) !! pg_round_down fault_addr
    = Some (page_set_frame_addr (next_page w) p).
Proof.
  intros Hnz Hu Hspt Hpu Hsw Hperm Hf Hshort Hkey.
  rewrite (page_fault_lazy_load _ _ _ _ _ Hnz Hu Hspt Hpu Hsw Hperm).
  rewrite (load_from_file_short _ _ _ Hf Hshort).
  split; [done|]. fields. split; [reflexivity|].
  split; [apply lookup_delete_eq|].
  rewrite Hkey, !lookup_alter_eq, Hspt. cbn.
  destruct p. cbn in Hsw. by rewrite Hsw.
Qed.

Lemma page_fault_short_read_frees_frame_witness :
  terminated_with (-1)
    (page_fault 0x08048abc 0 0
       (set_files <[100 := mk_file 7 1000 0]> no_page_table_world)) ∧
  pagedir (snd (page_fault 0x08048abc 0 0
       (set_files <[100 := mk_file 7 1000 0]> no_page_table_world)))
    = pagedir (set_files <[100 := mk_file 7 1000 0]> no_page_table_world) ∧
  frame_table (snd (page_fault 0x08048abc 0 0
       (set_files <[100 := mk_file 7 1000 0]> no_page_table_world)))
    !! next_page (set_files <[100 := mk_file 7 1000 0]> no_page_table_world) = None ∧
  SPT (snd (page_fault 0x08048abc 0 0
       (set_files <[100 := mk_file 7 1000 0]> no_page_table_world)))
    !! pg_round_down 0x08048abc
    = Some (page_set_frame_addr
              (next_page (set_files <[100 := mk_file 7 1000 0]> no_page_table_world))
              lazy_file_page).
Proof.
  apply (page_fault_short_read_frees_frame 0x08048abc 0 0
           (set_files <[100 := mk_file 7 1000 0]> no_page_table_world)
           lazy_file_page (mk_file 7 1000 0)).
  - discriminate.
  - reflexivity.
  - vm_compute. reflexivity.
  - left. reflexivity.
  - reflexivity.
  - reflexivity.
  - vm_compute. reflexivity.
  - vm_compute. discriminate.
  - vm_compute. reflexivity.
Defined.

(** X15: whatever the fault and however the handler ends, it writes neither
    the mapping table nor the descriptor table, it opens and closes no file
    (it only moves the position of the files it reads), and it removes no
    SPT entry. *)
Theorem page_fault_keeps_tables fault_addr error_code f_esp w :
  mmap_table (snd (page_fault fault_addr error_code f_esp w)) = mmap_table w ∧
  fd_table (snd (page_fault fault_addr error_code f_esp w)) = fd_table w ∧
  (∀ f, is_Some (files (snd (page_fault fault_addr error_code f_esp w)) !! f)
        ↔ is_Some (files w !! f)) ∧
  (∀ k, is_Some (SPT w !! k) →
        is_Some (SPT (snd (page_fault fault_addr error_code f_esp w)) !! k)).
Proof.
  destruct (page_fault fault_addr error_code f_esp w) as [r w'] eqn:Hrun.
  destruct (page_fault_keeps _ _ _ _ _ _ Hrun)
    as (Hmt & Hfd & _ & _ & _ & _ & HS & _ & Hf).
  cbn [snd]. split; [exact Hmt|]. split; [exact Hfd|]. split; [exact Hf | exact HS].
Qed.

Lemma handler_event_not_lock e : handler_event e = true → is_lock_event e = false.
Proof. by destruct e. Qed.

Lemma touch_phase_event_not_lock e :
  touch_phase_event e = true → is_lock_event e = false.
Proof. by destruct e. Qed.

(** X16: the handler never takes or releases [filesys_lock]: what it adds to
    the log are exit and failure messages, file seeks and reads, zero fills
    and swap reads, so its file reads are made without the lock unless the
    faulting code holds it. *)
Theorem page_fault_takes_no_lock fault_addr error_code f_esp w :
  ∃ evs,
    log (snd (page_fault fault_addr error_code f_esp w)) = log w ++ evs ∧
    Forall (λ e, handler_event e = true ∧ is_lock_event e = false) evs.
Proof.
  destruct (page_fault fault_addr error_code f_esp w) as [r w'] eqn:Hrun.
  destruct (page_fault_log _ _ _ _ _ _ Hrun) as (evs & Hlog & Hevs).
  exists evs. split; [exact Hlog|].
  apply Forall_forall. intros e He.
  rewrite forallb_forall in Hevs.
  apply list_elem_of_In, Hevs in He.
  split; [exact He | by apply handler_event_not_lock].
Qed.

(** ** [mmap] and [munmap]: more *)

(** X23: [munmap] of an id that no mapping of the table has ends the process
    with status -1 in [munmap_write], before the lock is taken and with no
    table changed; so do [munmap_write] and [munmap_free] on their own. *)
Theorem munmap_unknown_id id w :
  find_mapping_id (mmap_table w) id = None →
  munmap id w = exit (-1) w ∧
  munmap_write id w = exit (-1) w ∧
  munmap_free id w = exit (-1) w.
Proof.
  intros Hnone.
  assert (munmap_write id w = exit (-1) w) as Hw.
  { unfold munmap_write. rewrite bind_gets, Hnone. reflexivity. }
  split; [|split; [exact Hw|]].
  - unfold munmap. apply bind_Exit. exact Hw.
  - unfold munmap_free. rewrite bind_gets, Hnone. reflexivity.
Qed.

Lemma munmap_unknown_id_witness :
  munmap 2 mapped_world = exit (-1) mapped_world ∧
  munmap_write 2 mapped_world = exit (-1) mapped_world ∧
  munmap_free 2 mapped_world = exit (-1) mapped_world.
Proof.
  apply (munmap_unknown_id 2 mapped_world).
  vm_compute. reflexivity.
Defined.

Lemma bind_file_length_closed {B} f (k : Z → M B) w :
  files w !! f = None → bind (file_length f) k w = (Panic, w).
Proof. intros H. unfold bind, file_length. by rewrite H. Qed.

Lemma bind_file_reopen_closed {B} f (k : Z → M B) w :
  files w !! f = None → bind (file_reopen f) k w = (Panic, w).
Proof. intros H. unfold bind, file_reopen. by rewrite H. Qed.

Lemma mmap_keeps_refl h w : mmap_keeps h w w.
Proof.
  repeat split; auto. exists []. split; [by rewrite app_nil_r | constructor].
Qed.

Lemma mmap_keeps_trans h w1 w2 w3 :
  mmap_keeps h w1 w2 → mmap_keeps h w2 w3 → mmap_keeps h w1 w3.
Proof.
  intros (H1 & H2 & H3 & H4 & H5 & H6 & H7 & evs1 & H8 & H9)
         (G1 & G2 & G3 & G4 & G5 & G6 & G7 & evs2 & G8 & G9).
  repeat split; try congruence.
  - intros g Hg. rewrite G7, H7 by done. reflexivity.
  - exists (evs1 ++ evs2). split; [by rewrite G8, H8, (assoc_L (++))|].
    by apply Forall_app.
Qed.

(** The handle's file keeps its length while the pages are read. *)
Lemma mmap_pages_keeps fuel : ∀ mi mfile rb o a w r w',
  mmap_pages fuel mi mfile rb o a w = (r, w') →
  r ≠ Exit ∧ mmap_keeps mfile w w' ∧
  ∀ fo, files w !! mfile = Some fo →
    ∃ fo', files w' !! mfile = Some fo' ∧ f_length fo' = f_length fo.
Proof.
  induction fuel as [|fuel IH]; intros mi mfile rb o a w r w';
    cbn [mmap_pages]; destruct (rb >? 0).
  2,4: intros [= <- <-]; (split; [discriminate|]);
    (split; [apply mmap_keeps_refl|eauto]).
  { intros [= <- <-]. split; [discriminate|].
    split; [apply mmap_keeps_refl|eauto]. }
  set (prb := if rb <? PGSIZE then rb else PGSIZE).
  run.
  match goal with |- context [bind (file_read _ _ _) _ ?w1] => set (W1 := w1) end.
  assert (mmap_keeps mfile w W1) as H1.
  { unfold W1, mmap_keeps. fields.
    repeat (split; [reflexivity|]).
    eexists [_]. split; [reflexivity|]. repeat constructor. }
  destruct (files w !! mfile) as [fo|] eqn:Hf.
  2:{ rewrite bind_file_read_closed by (unfold W1; fields; exact Hf).
      intros [= <- <-]. split; [discriminate|]. split; [exact H1|].
      intros fo Hfo. discriminate Hfo. }
  erewrite bind_file_read by (unfold W1; fields; exact Hf).
  match goal with |- context [negb (?n =? prb)] => set (got := n) end.
  match goal with
  | |- (if _ then _ else _) ?w2 = _ → _ => set (W2 := w2)
  end.
  assert (mmap_keeps mfile W1 W2) as H2.
  { unfold W2, mmap_keeps. fields.
    repeat (split; [reflexivity|]).
    split; [intros g Hg; by apply lookup_insert_ne|].
    eexists [_]. split; [reflexivity|]. repeat constructor. }
  assert (files W2 !! mfile = Some (file_set_pos (f_pos fo + got) fo)) as Hf2.
  { unfold W2. fields. apply lookup_insert_eq. }
  destruct (negb (got =? prb)).
  { intros [= <- <-]. split; [discriminate|].
    split; [exact (mmap_keeps_trans _ _ _ _ H1 H2)|].
    intros fo0 [= <-]. eauto. }
  run.
  match goal with |- mmap_pages _ _ _ _ _ _ ?w3 = _ → _ => set (W3 := w3) end.
  assert (mmap_keeps mfile W2 W3) as H3.
  { unfold W3, mmap_keeps. fields.
    repeat (split; [reflexivity|]).
    eexists [_]. split; [reflexivity|]. repeat constructor. }
  intros Hrest. destruct (IH _ _ _ _ _ _ _ _ Hrest) as (Hr & H4 & Hlen).
  split; [exact Hr|].
  split.
  { exact (mmap_keeps_trans _ _ _ _ H1
             (mmap_keeps_trans _ _ _ _ H2 (mmap_keeps_trans _ _ _ _ H3 H4))). }
  intros fo0 [= <-].
  destruct (Hlen (file_set_pos (f_pos fo + got) fo)) as (fo' & Hfo' & Hl).
  { unfold W3. fields. exact Hf2. }
  exists fo'. split; [exact Hfo'|]. rewrite Hl. reflexivity.
Qed.

Lemma mmap_run_keeps fd addr w r w' :
  mmap fd addr w = (r, w') →
  r ≠ Exit ∧ mmap_keeps (next_file w) w w'.
Proof.
  unfold mmap.
  destruct ((fd =? 0) || (fd =? 1) || (addr =? 0)).
  { intros [= <- <-]. split; [discriminate | apply mmap_keeps_refl]. }
  destruct (negb (pg_ofs addr =? 0)).
  { intros [= <- <-]. split; [discriminate | apply mmap_keeps_refl]. }
  rewrite bind_gets.
  destruct (fd_table w !! fd) as [f|].
  2:{ intros [= <- <-]. split; [discriminate | apply mmap_keeps_refl]. }
  destruct (files w !! f) as [fo|] eqn:Hf.
  2:{ rewrite (bind_file_length_closed _ _ _ Hf). intros [= <- <-].
      split; [discriminate | apply mmap_keeps_refl]. }
  rewrite (bind_file_length _ _ _ _ Hf).
  destruct (f_length fo =? 0).
  { intros [= <- <-]. split; [discriminate | apply mmap_keeps_refl]. }
  rewrite bind_gets.
  destruct (bool_decide (is_Some (find_mapping_addr (mmap_table w) addr))).
  { intros [= <- <-]. split; [discriminate | apply mmap_keeps_refl]. }
  rewrite bind_gets.
  destruct ((addr >=? PHYS_BASE - PGSIZE) || (addr <=? data_segment_start w)).
  { intros [= <- <-]. split; [discriminate | apply mmap_keeps_refl]. }
  rewrite bind_gets, (bind_file_reopen _ _ _ _ Hf), bind_modify.
  match goal with |- context [bind (mmap_pages _ _ _ _ _ _) _ ?w1] =>
    set (W1 := w1) end.
  assert (mmap_keeps (next_file w) w W1) as H1.
  { unfold W1, mmap_keeps. fields.
    repeat (split; [reflexivity|]).
    split; [intros g Hg; by apply lookup_insert_ne|].
    exists []. split; [by rewrite app_nil_r | constructor]. }
  destruct (mmap_pages (Z.to_nat (f_length fo)) (length (mmap_table w))
              (next_file w) (f_length fo) 0 addr W1) as [r1 w1] eqn:Hloop.
  destruct (mmap_pages_keeps _ _ _ _ _ _ _ _ _ Hloop) as (Hr1 & H2 & _).
  pose proof (mmap_keeps_trans _ _ _ _ H1 H2) as H12.
  destruct r1 as [[]| |].
  - rewrite (bind_Ret _ _ _ _ _ Hloop). intros [= <- <-].
    split; [discriminate | exact H12].
  - done.
  - rewrite (bind_Panic _ _ _ _ Hloop). intros [= <- <-].
    split; [discriminate | exact H12].
Qed.

(** X24: [mmap] never ends the process and never takes [filesys_lock], so
    the file reads it makes are made without the lock; it leaves the
    descriptor table, the page directory, the frame table, the stack pointer
    record and every open file but the mapping's own new handle as they
    were: the position of the caller's descriptor does not move. *)
Theorem mmap_keeps_descriptor fd addr w :
  fst (mmap fd addr w) ≠ Exit ∧
  mmap_keeps (next_file w) w (snd (mmap fd addr w)).
Proof.
  destruct (mmap fd addr w) as [r w'] eqn:Hrun.
  exact (mmap_run_keeps _ _ _ _ _ Hrun).
Qed.

Lemma pg_ofs_mod x : pg_ofs x = x mod PGSIZE.
Proof. unfold pg_ofs, PGMASK. apply Z.land_ones. done. Qed.

Lemma pg_round_down_aligned x : pg_ofs x = 0 → pg_round_down x = x.
Proof.
  unfold pg_ofs, pg_round_down. intros Hofs.
  apply Z.bits_inj'. intros n Hn.
  rewrite Z.land_spec, Z.lnot_spec by done.
  assert (Z.testbit (Z.land x PGMASK) n = false) as Hbit.
  { rewrite Hofs. apply Z.bits_0. }
  rewrite Z.land_spec in Hbit.
  destruct (Z.testbit x n), (Z.testbit PGMASK n); done.
Qed.

Lemma pg_ofs_add_pages x i : pg_ofs (x + i * PGSIZE) = pg_ofs x.
Proof. rewrite !pg_ofs_mod. apply Z_mod_plus_full. Qed.

(** A call that passes every check runs the body. *)
Lemma mmap_valid_run fd addr w f fo :
  mmap_valid fd addr w f fo →
  mmap fd addr w = mmap_body fd addr f (f_length fo) w.
Proof.
  intros (Hfd0 & Hfd1 & Haddr & Hofs & Hfd & Hf & Hlen & Hhit & Hrange).
  unfold mmap.
  replace ((fd =? 0) || (fd =? 1) || (addr =? 0)) with false
    by (symmetry; rewrite !orb_false_iff; lia).
  rewrite Hofs. cbn [Z.eqb negb].
  rewrite bind_gets, Hfd, (bind_file_length _ _ _ _ Hf).
  replace (f_length fo =? 0) with false by lia.
  rewrite bind_gets, Hhit.
  rewrite bool_decide_eq_false_2 by (by intros [? ?]).
  rewrite bind_gets.
  replace ((addr >=? PHYS_BASE - PGSIZE) || (addr <=? data_segment_start w))
    with false by (symmetry; rewrite !orb_false_iff; lia).
  reflexivity.
Qed.

(** C6: [mmap] looks for an existing mapping at [addr] alone
    ([find_mapping_addr (&t->mmap_table, addr)], under the comment "the
    range of pages mapped overlaps any existing set of mapped pages ->
    fail").  A call that passes the other checks and whose first byte lies
    in no mapping, but whose byte range reaches into the mapping [m] of the
    table, does not return -1: it returns a new id, adds its mapping to the
    table, which then holds two mappings that both cover the first byte of
    [m], and gives every page it covers an SPT entry of its own. *)
Theorem mmap_overlap_accepted fd addr w f fo m :
  mmap_valid fd addr w f fo →
  f_length fo < 2147483648 → 0 ≤ addr →
  m ∈ mmap_table w →
  addr < m_addr m < addr + f_length fo →
  ∃ w' ps,
    mmap fd addr w = (Ret (Z.of_nat (length (mmap_table w)) + 1), w') ∧
    Z.of_nat (length (mmap_table w)) + 1 ≠ -1 ∧
    mmap_table w' =
      mmap_table w ++
        [mk_mapping (Z.of_nat (length (mmap_table w)) + 1) addr (f_length fo)
           (next_file w) fd ps] ∧
    m ∈ mmap_table w' ∧
    ∀ i, 0 ≤ i < (f_length fo + PGSIZE - 1) / PGSIZE →
      SPT w' !! wrap32 (addr + i * PGSIZE) =
        Some (mmap_entry (next_file w) addr (f_length fo)
                (next_page w + i * PGSIZE) i).
Proof.
  intros Hv Hlen Haddr Hm Hover.
  rewrite (mmap_valid_run _ _ _ _ _ Hv).
  destruct Hv as (_ & _ & _ & _ & Hfd & Hf & Hlen0 & _ & Hrange).
  assert (0 ≤ addr < 4294967296) as Haddr32.
  { change PGSIZE with 4096 in Hrange.
    change PHYS_BASE with 3221225472 in Hrange. lia. }
  destruct (mmap_body_spec fd addr f w fo Hf Hlen Haddr32)
    as (w' & evs & ps & Hrun & Hcov & _ & _ & _ & Hmt & _).
  exists w', ps. split; [exact Hrun|]. split; [lia|]. split; [exact Hmt|].
  split; [rewrite Hmt; apply elem_of_app; by left|].
  intros i Hi. by destruct (Hcov i Hi) as (Hentry & _).
Qed.

Lemma mmap_overlap_accepted_witness :
  ∃ w' ps,
    mmap 2 0x1ffff000 mapped_world
      = (Ret (Z.of_nat (length (mmap_table mapped_world)) + 1), w') ∧
    Z.of_nat (length (mmap_table mapped_world)) + 1 ≠ -1 ∧
    mmap_table w' =
      mmap_table mapped_world ++
        [mk_mapping (Z.of_nat (length (mmap_table mapped_world)) + 1) 0x1ffff000
           (f_length (mk_file 7 5000 0)) (next_file mapped_world) 2 ps] ∧
    mk_mapping 1 0x20000000 5000 101 2 [0x20000000; 0x20001000] ∈ mmap_table w' ∧
    ∀ i, 0 ≤ i < (f_length (mk_file 7 5000 0) + PGSIZE - 1) / PGSIZE →
      SPT w' !! wrap32 (0x1ffff000 + i * PGSIZE) =
        Some (mmap_entry (next_file mapped_world) 0x1ffff000
                (f_length (mk_file 7 5000 0))
                (next_page mapped_world + i * PGSIZE) i).
Proof.
  apply (mmap_overlap_accepted 2 0x1ffff000 mapped_world 100 (mk_file 7 5000 0)
           (mk_mapping 1 0x20000000 5000 101 2 [0x20000000; 0x20001000])).
  - unfold mmap_valid. repeat split; try (vm_compute; reflexivity);
      vm_compute; discriminate.
  - vm_compute. reflexivity.
  - lia.
  - vm_compute. constructor.
  - vm_compute. split; reflexivity.
Defined.

(** The call of the witness: with the file mapped at [0x20000000], a second
    [mmap] one page lower returns 2 and the page [0x20000000] gets the entry
    of the second mapping. *)
Example mmap_overlap_run :
  fst (mmap 2 0x1ffff000 mapped_world) = Ret 2 ∧
  (λ m, (m_id m, m_addr m, m_size m)) <$>
    mmap_table (snd (mmap 2 0x1ffff000 mapped_world))
    = [(1, 0x20000000, 5000); (2, 0x1ffff000, 5000)] ∧
  page_file <$> SPT mapped_world !! 0x20000000 = Some 101 ∧
  page_file <$> SPT (snd (mmap 2 0x1ffff000 mapped_world)) !! 0x20000000 = Some 102.
Proof. vm_compute. repeat split. Qed.

(** The handle the body opens still has the length of the file when the
    body is done. *)
Lemma mmap_body_files fd addr f w fo r w1 :
  files w !! f = Some fo →
  mmap_body fd addr f (f_length fo) w = (r, w1) →
  ∃ fo', files w1 !! next_file w = Some fo' ∧ f_length fo' = f_length fo.
Proof.
  intros Hf. unfold mmap_body.
  rewrite bind_gets, (bind_file_reopen _ _ _ _ Hf), bind_modify.
  match goal with |- context [bind (mmap_pages _ _ _ _ _ _) _ ?w1] =>
    set (W1 := w1) end.
  destruct (mmap_pages (Z.to_nat (f_length fo)) (length (mmap_table w))
              (next_file w) (f_length fo) 0 addr W1) as [r1 w1'] eqn:Hloop.
  destruct (mmap_pages_keeps _ _ _ _ _ _ _ _ _ Hloop) as (_ & _ & Hlen).
  destruct (Hlen (file_set_pos 0 fo)) as (fo' & Hfo' & Hl).
  { unfold W1. fields. apply lookup_insert_eq. }
  destruct r1 as [[]| |];
    rewrite ?(bind_Ret _ _ _ _ _ Hloop), ?(bind_Exit _ _ _ _ Hloop),
      ?(bind_Panic _ _ _ _ Hloop);
    intros [= <- <-]; exists fo'; (split; [exact Hfo' | exact Hl]).
Qed.

Lemma close_run_fields fd w f :
  2 ≤ fd < FD_TABLE_SIZE → fd_table w !! fd = Some f →
  ∃ w',
    close fd w = (Ret tt, w') ∧
    SPT w' = SPT w ∧ pagedir w' = pagedir w ∧
    files w' = delete f (files w) ∧
    mmap_table w' = mmap_table w ∧
    pt_ok w' = pt_ok w ∧ next_page w' = next_page w.
Proof.
  intros Hfd Hslot. unfold close.
  rewrite (descriptor_in_range _ Hfd). run. rewrite Hslot.
  unfold file_close. run. unfold trace, modify.
  eexists. split; [reflexivity|]. fields2. repeat split.
Qed.

(** X25: a mapping outlives its descriptor.  After a successful [mmap] and
    a [close] of the descriptor it was made from, a fault on any page of the
    mapping below [PHYS_BASE] is served: the handler reads the page's bytes
    from the handle [mmap] re-opened and maps the page writable. *)
Theorem mmap_page_loads_after_close fd addr w f fo i error_code f_esp :
  mmap_valid fd addr w f fo →
  2 ≤ fd < FD_TABLE_SIZE →
  f_length fo < 2147483648 → 0 < addr →
  files w !! next_file w = None →
  pt_ok w = true →
  0 ≤ i < (f_length fo + PGSIZE - 1) / PGSIZE →
  addr + i * PGSIZE < PHYS_BASE →
  ∃ id w1 w2 w3,
    mmap fd addr w = (Ret id, w1) ∧
    close fd w1 = (Ret tt, w2) ∧
    page_fault (addr + i * PGSIZE) error_code f_esp w2 = (Ret tt, w3) ∧
    pagedir w3 !! (addr + i * PGSIZE) = Some (mk_pte (next_page w2) true false) ∧
    EvFileRead (next_file w) (next_page w2)
      (Z.min PGSIZE (f_length fo - i * PGSIZE))
      (Z.min PGSIZE (f_length fo - i * PGSIZE))
      ∈ drop (length (log w2)) (log w3).
Proof.
  intros Hv Hfdr Hlen Haddr Hfresh Hpt Hi Hbelow.
  pose proof (mmap_valid_run _ _ _ _ _ Hv) as Hbody.
  destruct Hv as (_ & _ & _ & Hofs & Hfd & Hf & _ & _ & Hrange).
  assert (0 ≤ addr < 4294967296) as Haddr32.
  { change PGSIZE with 4096 in Hrange.
    change PHYS_BASE with 3221225472 in Hrange. lia. }
  destruct (mmap_body_spec fd addr f w fo Hf Hlen Haddr32)
    as (w1 & evs & ps & Hrun & Hcov & _ & _ & _ & _ & _).
  rewrite <- Hbody in Hrun.
  destruct (mmap_run_keeps _ _ _ _ _ Hrun)
    as (_ & Hfd1 & _ & _ & _ & _ & Hpt1 & _).
  rewrite Hbody in Hrun.
  destruct (mmap_body_files _ _ _ _ _ _ _ Hf Hrun) as (fo' & Hfo' & Hl).
  rewrite <- Hbody in Hrun.
  destruct (close_run_fields fd w1 f Hfdr) as
    (w2 & Hclose & HS2 & Hpd2 & Hfiles2 & _ & Hpt2 & Hnp2).
  { by rewrite Hfd1. }
  set (a := addr + i * PGSIZE) in *.
  set (p := mmap_entry (next_file w) addr (f_length fo) (next_page w + i * PGSIZE) i).
  pose proof Hi as Hi'. apply page_index_bound in Hi' as [Hi0 Hilen].
  assert (wrap32 a = a) as Hwrap.
  { apply wrap32_small. unfold a. change PGSIZE with 4096 in *.
    change PHYS_BASE with 3221225472 in Hbelow. lia. }
  assert (pg_round_down a = a) as Hround.
  { apply pg_round_down_aligned. unfold a. by rewrite pg_ofs_add_pages. }
  assert (SPT w2 !! pg_round_down a = Some p) as Hspt.
  { rewrite Hround, HS2, <- Hwrap. apply Hcov. exact Hi. }
  assert (files w2 !! page_file p = Some fo') as Hf2.
  { rewrite Hfiles2. cbn [p mmap_entry page_file].
    rewrite lookup_delete_ne; [exact Hfo'|]. intros Heq. rewrite Heq in Hf. congruence. }
  assert (0 < read_bytes p ≤ PGSIZE) as Hrb.
  { cbn [p mmap_entry read_bytes]. change PGSIZE with 4096 in *. lia. }
  assert (page_got p fo' = to_int (read_bytes p)) as Hgot.
  { apply page_got_full; [lia|]. rewrite Hl.
    cbn [p mmap_entry read_bytes ofs]. lia. }
  assert (to_int (read_bytes p) = Z.min PGSIZE (f_length fo - i * PGSIZE)) as Hrb'.
  { rewrite to_int_small; [reflexivity|]. change PGSIZE with 4096 in Hrb. lia. }
  exists (Z.of_nat (length (mmap_table w)) + 1), w1, w2.
  rewrite (page_fault_lazy_load a error_code f_esp w2 p); cycle 1.
  { unfold a. change PGSIZE with 4096. lia. }
  { unfold is_user_vaddr. lia. }
  { exact Hspt. }
  { right. reflexivity. }
  { reflexivity. }
  { cbn [p mmap_entry is_writable negb]. apply andb_false_r. }
  rewrite (load_from_file_full _ _ _ Hf2 Hgot).
  eexists. split; [exact Hrun|]. split; [exact Hclose|].
  split; [reflexivity|]. fields.
  rewrite Hpt2, Hpt1, Hpt, Hgot, Hrb'. cbn [p mmap_entry page_addr is_writable page_file].
  fold a. rewrite Hwrap. split; [apply lookup_insert_eq|].
  rewrite drop_app_length.
  apply elem_of_app. left. apply list_elem_of_further, list_elem_of_here.
Qed.

Lemma mmap_page_loads_after_close_witness :
  ∃ id w1 w2 w3,
    mmap 2 0x20000000 sample_world = (Ret id, w1) ∧
    close 2 w1 = (Ret tt, w2) ∧
    page_fault (0x20000000 + 1 * PGSIZE) 6 (PHYS_BASE - 4) w2 = (Ret tt, w3) ∧
    pagedir w3 !! (0x20000000 + 1 * PGSIZE)
      = Some (mk_pte (next_page w2) true false) ∧
    EvFileRead (next_file sample_world) (next_page w2)
      (Z.min PGSIZE (5000 - 1 * PGSIZE)) (Z.min PGSIZE (5000 - 1 * PGSIZE))
      ∈ drop (length (log w2)) (log w3).
Proof.
  apply (mmap_page_loads_after_close 2 0x20000000 sample_world 100
           (mk_file 7 5000 0) 1 6 (PHYS_BASE - 4)).
  - unfold mmap_valid. repeat split; try (vm_compute; reflexivity);
      vm_compute; discriminate.
  - unfold FD_TABLE_SIZE. lia.
  - vm_compute. reflexivity.
  - lia.
  - vm_compute. reflexivity.
  - reflexivity.
  - vm_compute. split; [discriminate | reflexivity].
  - vm_compute. reflexivity.
Defined.

(** The pages the loop links to the mapping are the pages it covers. *)
Lemma mmap_pages_members fuel : ∀ mi mfile rb o a w fo,
  files w !! mfile = Some fo →
  0 ≤ f_pos fo → f_pos fo + rb ≤ f_length fo →
  (Z.to_nat rb ≤ fuel)%nat → rb < 4294967296 →
  0 ≤ a < 4294967296 →
  ∃ w' ps,
    mmap_pages fuel mi mfile rb o a w = (Ret tt, w') ∧
    mmap_table w' = alter (append_pages ps) mi (mmap_table w) ∧
    ∀ k, k ∈ ps ↔ ∃ i, 0 ≤ i ∧ i * PGSIZE < rb ∧ k = wrap32 (a + i * PGSIZE).
Proof.
  induction fuel as [|fuel IH];
    intros mi mfile rb o a w fo Hf Hpos Hlen Hfuel Hrb Ha;
    cbn [mmap_pages]; destruct (Z.gtb_spec rb 0) as [Hgt|Hle]; try lia.
  1,3: exists w, []; (split; [reflexivity|]);
    (split; [symmetry; apply list_alter_id; intros; apply append_pages_nil|]);
    intros k; (split; [intros Hk; by apply not_elem_of_nil in Hk|]);
    intros (i & Hi & Hlt & _); change PGSIZE with 4096 in Hlt; lia.
  set (prb := if rb <? PGSIZE then rb else PGSIZE).
  assert (prb = Z.min PGSIZE rb ∧ 0 < prb ≤ rb) as [Hprb Hprb'].
  { unfold prb. change PGSIZE with 4096.
    destruct (Z.ltb_spec rb 4096); lia. }
  run.
  erewrite bind_file_read by (fields; exact Hf).
  replace (Z.max 0 (Z.min prb (f_length fo - f_pos fo))) with prb by lia.
  rewrite Z.eqb_refl. run.
  match goal with |- context [mmap_pages fuel mi mfile _ _ _ ?w1] =>
    set (W1 := w1) end.
  destruct (IH mi mfile (rb - prb) (o + prb) (wrap32 (a + PGSIZE)) W1
              (file_set_pos (f_pos fo + prb) fo))
    as (w' & ps & Hrun & Hmt & Hmem).
  { unfold W1. fields. apply lookup_insert_eq. }
  { cbn. lia. }
  { cbn. lia. }
  { lia. }
  { lia. }
  { unfold wrap32. change (2 ^ 32) with 4294967296.
    apply Z.mod_pos_bound. lia. }
  exists w', (a :: ps). split; [exact Hrun|].
  split.
  { rewrite Hmt. unfold W1. fields.
    rewrite list_alter_alter_eq. apply list_alter_ext; [|done].
    intros m _. apply append_pages_cons. }
  assert (∀ j, wrap32 (wrap32 (a + PGSIZE) + j * PGSIZE)
               = wrap32 (a + (j + 1) * PGSIZE)) as Hshift.
  { intros j. rewrite wrap32_add_l. f_equal. lia. }
  intros k. rewrite elem_of_cons, Hmem. split.
  - intros [->|(j & Hj & Hlt & ->)].
    + exists 0. rewrite Z.mul_0_l, Z.add_0_r, wrap32_small by done.
      split; [lia|]. split; [lia|reflexivity].
    + exists (j + 1). rewrite Hshift.
      split; [lia|]. split; [|reflexivity].
      change PGSIZE with 4096 in *. lia.
  - intros (i & Hi & Hlt & ->).
    destruct (decide (i = 0)) as [->|Hne].
    + left. by rewrite Z.mul_0_l, Z.add_0_r, wrap32_small.
    + right. exists (i - 1). rewrite Hshift.
      split; [lia|]. split; [change PGSIZE with 4096 in *; lia|].
      f_equal. lia.
Qed.

Lemma mmap_body_members fd addr f w fo :
  files w !! f = Some fo →
  f_length fo < 2147483648 →
  0 ≤ addr < 4294967296 →
  ∃ w' ps,
    mmap_body fd addr f (f_length fo) w
      = (Ret (Z.of_nat (length (mmap_table w)) + 1), w') ∧
    mmap_table w' =
      mmap_table w ++
        [mk_mapping (Z.of_nat (length (mmap_table w)) + 1) addr (f_length fo)
           (next_file w) fd ps] ∧
    ∀ k, k ∈ ps ↔
         ∃ i, 0 ≤ i < (f_length fo + PGSIZE - 1) / PGSIZE ∧
              k = wrap32 (addr + i * PGSIZE).
Proof.
  intros Hf Hlen Haddr. unfold mmap_body.
  rewrite bind_gets, (bind_file_reopen _ _ _ _ Hf), bind_modify.
  match goal with |- context [bind (mmap_pages _ _ _ _ _ _) _ ?w1] =>
    set (W1 := w1) end.
  destruct (mmap_pages_members (Z.to_nat (f_length fo)) (length (mmap_table w))
              (next_file w) (f_length fo) 0 addr W1 (file_set_pos 0 fo))
    as (w' & ps & Hrun & Hmt & Hmem).
  { unfold W1. fields. apply lookup_insert_eq. }
  { cbn. lia. }
  { cbn. lia. }
  { lia. }
  { lia. }
  { done. }
  exists w', ps.
  rewrite (bind_Ret _ _ _ _ _ Hrun). split; [reflexivity|].
  split.
  { rewrite Hmt. unfold W1. fields.
    replace (length (mmap_table w)) with (length (mmap_table w) + 0)%nat at 1 by lia.
    rewrite alter_app_r. cbn. unfold append_pages. cbn. reflexivity. }
  intros k. rewrite Hmem. split.
  - intros (i & Hi & Hlt & ->). exists i. split; [|reflexivity].
    apply page_index_bound. done.
  - intros (i & Hi & ->). exists i. apply page_index_bound in Hi as [Hi Hlt]. done.
Qed.

(** What the teardown walk leaves of the page directory and of the
    descriptor table. *)
Lemma unmap_walk_pagedir ps : ∀ w r w',
  for_each ps (fun p =>
    frame_free p ;;
    pagedir_clear_page p ;;
    modify (set_SPT (delete p))) w = (r, w') →
  fd_table w' = fd_table w ∧
  ∀ k, pagedir w' !! k = if decide (k ∈ ps) then None else pagedir w !! k.
Proof.
  induction ps as [|p ps IH]; intros w r w'; cbn [for_each].
  { intros [= <- <-]. split; [reflexivity|]. intros k.
    rewrite decide_False; [reflexivity | apply not_elem_of_nil]. }
  run.
  match goal with |- context [for_each ps _ ?w1] => set (W1 := w1) end.
  intros Hrun. destruct (IH _ _ _ Hrun) as (Hfd & Hpd).
  split; [by rewrite Hfd|].
  intros k. rewrite Hpd. unfold W1. fields.
  destruct (decide (k ∈ ps)) as [Hin|Hnin].
  { rewrite decide_True; [reflexivity | by apply list_elem_of_further]. }
  destruct (decide (k = p)) as [->|Hne].
  - rewrite decide_True by apply list_elem_of_here. apply lookup_delete_eq.
  - rewrite decide_False by (rewrite elem_of_cons; tauto).
    by apply lookup_delete_ne.
Qed.

Lemma munmap_run_pagedir id w mi m r w' :
  find_mapping_id (mmap_table w) id = Some (mi, m) →
  munmap id w = (r, w') →
  fd_table w' = fd_table w ∧
  ∀ k, pagedir w' !! k = if decide (k ∈ m_pages m) then None else pagedir w !! k.
Proof.
  intros Hm. unfold munmap.
  erewrite bind_Ret by (apply munmap_write_run; eauto).
  unfold munmap_free. rewrite bind_gets.
  replace (mmap_table (add_log _ w)) with (mmap_table w) by reflexivity.
  rewrite Hm.
  match goal with |- context [bind (for_each _ _) _ ?w1] => set (W1 := w1) end.
  destruct (for_each (m_pages m)
              (fun p => frame_free p ;; pagedir_clear_page p ;;
                        modify (set_SPT (delete p))) W1) as [r1 w1] eqn:Hwalk.
  destruct (unmap_walk_pagedir _ _ _ _ Hwalk) as (Hfd & Hpd).
  destruct r1 as [[]| |];
    rewrite ?(bind_Ret _ _ _ _ _ Hwalk), ?(bind_Exit _ _ _ _ Hwalk),
      ?(bind_Panic _ _ _ _ Hwalk);
    intros [= <- <-]; fields; (split; [exact Hfd | exact Hpd]).
Qed.

(** X26: [munmap] of an existing mapping removes the SPT entry and the
    installed mapping of each page linked to the mapping, and of no other
    page; the descriptor table and the open files are as they were. *)
Theorem munmap_removes_its_pages id w mi m :
  find_mapping_id (mmap_table w) id = Some (mi, m) →
  ∃ w',
    munmap id w = (Ret tt, w') ∧
    (∀ k, k ∈ m_pages m → SPT w' !! k = None ∧ pagedir w' !! k = None) ∧
    (∀ k, k ∉ m_pages m →
       SPT w' !! k = SPT w !! k ∧ pagedir w' !! k = pagedir w !! k) ∧
    fd_table w' = fd_table w ∧
    files w' = files w.
Proof.
  intros Hm.
  destruct (munmap_run id w mi m Hm) as (w' & Hrun & _ & Hf & _ & Hkeep & Hgone).
  destruct (munmap_run_pagedir _ _ _ _ _ _ Hm Hrun) as (Hfd & Hpd).
  exists w'. split; [exact Hrun|].
  split.
  { intros k Hk. split; [by apply Hgone|]. rewrite Hpd. by rewrite decide_True. }
  split.
  { intros k Hk. split; [by apply Hkeep|]. rewrite Hpd. by rewrite decide_False. }
  split; [exact Hfd | exact Hf].
Qed.

Lemma munmap_removes_its_pages_witness :
  ∃ w',
    munmap 1 two_mappings_world = (Ret tt, w') ∧
    (∀ k, k ∈ [0x20000000; 0x20001000] →
       SPT w' !! k = None ∧ pagedir w' !! k = None) ∧
    (∀ k, k ∉ [0x20000000; 0x20001000] →
       SPT w' !! k = SPT two_mappings_world !! k ∧
       pagedir w' !! k = pagedir two_mappings_world !! k) ∧
    fd_table w' = fd_table two_mappings_world ∧
    files w' = files two_mappings_world.
Proof.
  apply (munmap_removes_its_pages 1 two_mappings_world 0%nat
           (mk_mapping 1 0x20000000 5000 101 2 [0x20000000; 0x20001000])).
  vm_compute. reflexivity.
Defined.

(** X27: [mmap] followed by [munmap] of the id it returned gives back the
    SPT, the page directory, the mapping table and the descriptor table as
    they were before the [mmap], when the pages the mapping covers were
    free and no mapping of the table has the id that [mmap] picks. *)
Theorem mmap_then_munmap fd addr w f fo :
  mmap_valid fd addr w f fo →
  f_length fo < 2147483648 → 0 ≤ addr →
  (∀ m, m ∈ mmap_table w → m_id m ≠ Z.of_nat (length (mmap_table w)) + 1) →
  (∀ i, 0 ≤ i < (f_length fo + PGSIZE - 1) / PGSIZE →
     SPT w !! wrap32 (addr + i * PGSIZE) = None ∧
     pagedir w !! wrap32 (addr + i * PGSIZE) = None) →
  ∃ id w1 w2,
    mmap fd addr w = (Ret id, w1) ∧
    munmap id w1 = (Ret tt, w2) ∧
    SPT w2 = SPT w ∧
    pagedir w2 = pagedir w ∧
    mmap_table w2 = mmap_table w ∧
    fd_table w2 = fd_table w.
Proof.
  intros Hv Hlen Haddr Hid Hfree.
  pose proof (mmap_valid_run _ _ _ _ _ Hv) as Hbody.
  destruct Hv as (_ & _ & _ & _ & Hfd & Hf & _ & _ & Hrange).
  assert (0 ≤ addr < 4294967296) as Haddr32.
  { change PGSIZE with 4096 in Hrange.
    change PHYS_BASE with 3221225472 in Hrange. lia. }
  destruct (mmap_body_spec fd addr f w fo Hf Hlen Haddr32)
    as (w1 & evs & ps0 & Hrun & _ & Hoth & Hpd1 & _ & _ & _).
  destruct (mmap_body_members fd addr f w fo Hf Hlen Haddr32)
    as (w1' & ps & Hrun' & Hmt & Hmem).
  rewrite Hrun in Hrun'. injection Hrun' as <-.
  rewrite <- Hbody in Hrun.
  destruct (mmap_run_keeps _ _ _ _ _ Hrun) as (_ & Hfd1 & _).
  set (id := Z.of_nat (length (mmap_table w)) + 1) in *.
  set (m := mk_mapping id addr (f_length fo) (next_file w) fd ps) in *.
  assert (find_mapping_id (mmap_table w1) id = Some (length (mmap_table w), m)) as Hfind.
  { unfold find_mapping_id. rewrite Hmt. apply list_find_app_Some. right.
    split; [lia|]. split.
    - apply list_find_None, Forall_forall. exact Hid.
    - rewrite Nat.sub_diag. cbn. rewrite decide_True by reflexivity. reflexivity. }
  destruct (munmap_run id w1 _ _ Hfind) as (w2 & Hun & Hmt2 & _ & _ & Hkeep & Hgone).
  destruct (munmap_run_pagedir _ _ _ _ _ _ Hfind Hun) as (Hfd2 & Hpd2).
  exists id, w1, w2. split; [exact Hrun|]. split; [exact Hun|].
  split.
  { apply map_eq. intros k. destruct (decide (k ∈ ps)) as [Hin|Hnin].
    - rewrite (Hgone k Hin). apply Hmem in Hin as (i & Hi & ->).
      symmetry. by apply Hfree.
    - rewrite (Hkeep k Hnin). apply Hoth. intros i Hi ->.
      apply Hnin, Hmem. eauto. }
  split.
  { apply map_eq. intros k. rewrite Hpd2, Hpd1. cbn [m m_pages].
    destruct (decide (k ∈ ps)) as [Hin|Hnin]; [|reflexivity].
    apply Hmem in Hin as (i & Hi & ->). symmetry. by apply Hfree. }
  split.
  { rewrite Hmt2, Hmt, delete_middle. apply app_nil_r. }
  by rewrite Hfd2, Hfd1.
Qed.

Lemma mmap_then_munmap_witness :
  ∃ id w1 w2,
    mmap 2 0x20000000 sample_world = (Ret id, w1) ∧
    munmap id w1 = (Ret tt, w2) ∧
    SPT w2 = SPT sample_world ∧
    pagedir w2 = pagedir sample_world ∧
    mmap_table w2 = mmap_table sample_world ∧
    fd_table w2 = fd_table sample_world.
Proof.
  apply (mmap_then_munmap 2 0x20000000 sample_world 100 (mk_file 7 5000 0)).
  - unfold mmap_valid. repeat split; try (vm_compute; reflexivity);
      vm_compute; discriminate.
  - vm_compute. reflexivity.
  - lia.
  - intros m Hm. change (mmap_table sample_world) with (@nil mapping) in Hm.
    by apply not_elem_of_nil in Hm.
  - intros i Hi. change (SPT sample_world) with (∅ : gmap Z page).
    change (pagedir sample_world) with (∅ : gmap Z pte).
    rewrite !lookup_empty. split; reflexivity.
Defined.

(** ** Kernel accesses to user memory *)

Lemma mem_access_load fuel addr w e :
  pagedir w !! pg_round_down addr = Some e →
  mem_access fuel false addr w = (Ret tt, w).
Proof. intros He. destruct fuel; cbn [mem_access]; by rewrite bind_gets, He. Qed.

Lemma mem_access_store fuel addr w e :
  pagedir w !! pg_round_down addr = Some e → pte_writable e = true →
  mem_access fuel true addr w
  = (Ret tt, set_pagedir (alter pte_set_dirty (pg_round_down addr)) w).
Proof.
  intros He Hw. destruct fuel; cbn [mem_access]; by rewrite bind_gets, He, Hw.
Qed.

Lemma mem_access_unmapped fuel write addr w :
  pagedir w !! pg_round_down addr = None →
  mem_access (S fuel) write addr w
  = (page_fault addr (if write then PF_W else 0) 0 ;;
     mem_access fuel write addr) w.
Proof. intros He. cbn [mem_access]. by rewrite bind_gets, He. Qed.

Lemma mem_access_protected fuel addr w e :
  pagedir w !! pg_round_down addr = Some e → pte_writable e = false →
  mem_access (S fuel) true addr w
  = (page_fault addr (Z.lor PF_P PF_W) 0 ;; mem_access fuel true addr) w.
Proof. intros He Hw. cbn [mem_access]. by rewrite bind_gets, He, Hw. Qed.

(** Every run of an access is one of: no fault; out of fuel at a fault; a
    fault, the handler, and the rest of the run. *)
Lemma mem_access_cases fuel write addr w :
  (∃ e, pagedir w !! pg_round_down addr = Some e ∧
        (write = true → pte_writable e = true) ∧
        mem_access fuel write addr w
        = (Ret tt, if write
                   then set_pagedir (alter pte_set_dirty (pg_round_down addr)) w
                   else w)) ∨
  (fuel = O ∧ mem_access fuel write addr w = (Panic, w)) ∨
  (∃ fuel' error_code,
     fuel = S fuel' ∧
     (pagedir w !! pg_round_down addr = None ∨ write = true) ∧
     mem_access fuel write addr w
     = (page_fault addr error_code 0 ;; mem_access fuel' write addr) w).
Proof.
  destruct (pagedir w !! pg_round_down addr) as [e|] eqn:He.
  - destruct write.
    + destruct (pte_writable e) eqn:Hw.
      * left. exists e. split; [reflexivity|]. split; [done|].
        by apply mem_access_store with e.
      * right. destruct fuel as [|fuel'].
        { left. split; [reflexivity|]. cbn [mem_access].
          by rewrite bind_gets, He, Hw. }
        right. exists fuel', (Z.lor PF_P PF_W). split; [reflexivity|].
        split; [by right|]. by apply mem_access_protected with e.
    + left. exists e. split; [reflexivity|]. split; [done|].
      by apply mem_access_load with e.
  - right. destruct fuel as [|fuel'].
    { left. split; [reflexivity|]. cbn [mem_access]. by rewrite bind_gets, He. }
    right. exists fuel', (if write then PF_W else 0). split; [reflexivity|].
    split; [by left|]. by apply mem_access_unmapped.
Qed.


Ltac access_cases H :=
  match type of H with
  | mem_access ?f ?wr ?a ?w = _ =>
      destruct (mem_access_cases f wr a w)
        as [(e & He & Hw & Heq)|[(Hf & Heq)|(fuel' & ec & Hf & Hwhy & Heq)]];
      try discriminate Hf; rewrite Heq in H
  end.

(** An access adds to the log what the handler adds. *)
Lemma mem_access_log fuel write addr : ∀ w r w',
  mem_access fuel write addr w = (r, w') →
  ∃ evs, log w' = log w ++ evs ∧ forallb handler_event evs = true.
Proof.
  induction fuel as [|fuel IH]; intros w r w' Hrun; access_cases Hrun.
  1,2,3: injection Hrun as <- <-; exists []; rewrite app_nil_r;
    (split; [by destruct write | reflexivity]).
  injection Hf as <-.
  destruct (page_fault addr ec 0 w) as [r1 w1] eqn:Hpf.
  destruct (page_fault_log _ _ _ _ _ _ Hpf) as (evs1 & Hlog1 & Hevs1).
  destruct r1 as [[]| |].
  - rewrite (bind_Ret _ _ _ _ _ Hpf) in Hrun.
    destruct (IH _ _ _ Hrun) as (evs2 & Hlog2 & Hevs2).
    exists (evs1 ++ evs2). split; [by rewrite Hlog2, Hlog1, (assoc_L (++))|].
    by rewrite forallb_app, Hevs1, Hevs2.
  - rewrite (bind_Exit _ _ _ _ Hpf) in Hrun. injection Hrun as <- <-. eauto.
  - rewrite (bind_Panic _ _ _ _ Hpf) in Hrun. injection Hrun as <- <-. eauto.
Qed.

(** An access writes none of the tables the handler leaves alone. *)
Lemma mem_access_keeps fuel write addr : ∀ w r w',
  mem_access fuel write addr w = (r, w') → handler_keeps w w'.
Proof.
  assert (∀ w, handler_keeps w
                 (set_pagedir (alter pte_set_dirty (pg_round_down addr)) w)) as Hst.
  { intros w. keeps_fields; auto. intros k Hk. by rewrite is_Some_alter. }
  induction fuel as [|fuel IH]; intros w r w' Hrun; access_cases Hrun.
  1,3: injection Hrun as <- <-; destruct write;
    [apply Hst | apply handler_keeps_refl].
  1: injection Hrun as <- <-; apply handler_keeps_refl.
  injection Hf as <-.
  destruct (page_fault addr ec 0 w) as [r1 w1] eqn:Hpf.
  pose proof (page_fault_keeps _ _ _ _ _ _ Hpf) as H1.
  destruct r1 as [[]| |].
  - rewrite (bind_Ret _ _ _ _ _ Hpf) in Hrun.
    exact (handler_keeps_trans _ _ _ H1 (IH _ _ _ Hrun)).
  - rewrite (bind_Exit _ _ _ _ Hpf) in Hrun. by injection Hrun as <- <-.
  - rewrite (bind_Panic _ _ _ _ Hpf) in Hrun. by injection Hrun as <- <-.
Qed.

(** An access that goes through leaves the page mapped, writable and dirty
    when it was a store. *)
Lemma mem_access_Ret fuel write addr : ∀ w w',
  mem_access fuel write addr w = (Ret tt, w') →
  ∃ e, pagedir w' !! pg_round_down addr = Some e ∧
       (write = true → pte_writable e = true ∧ pte_dirty e = true).
Proof.
  induction fuel as [|fuel IH]; intros w w' Hrun; access_cases Hrun;
    try discriminate Hrun.
  1,2: injection Hrun as <-; destruct write;
    [exists (pte_set_dirty e); fields; rewrite lookup_alter_eq, He;
     split; [reflexivity|]; intros _; split; [by apply Hw | reflexivity]
    |exists e; split; [exact He | discriminate]].
  injection Hf as <-.
  destruct (page_fault addr ec 0 w) as [r1 w1] eqn:Hpf.
  destruct r1 as [[]| |].
  - rewrite (bind_Ret _ _ _ _ _ Hpf) in Hrun. exact (IH _ _ Hrun).
  - rewrite (bind_Exit _ _ _ _ Hpf) in Hrun. discriminate Hrun.
  - rewrite (bind_Panic _ _ _ _ Hpf) in Hrun. discriminate Hrun.
Qed.

(** An access to a page that is not mapped goes through only after a fault
    from which the handler has returned. *)
Lemma mem_access_faulted fuel write addr w w' :
  mem_access fuel write addr w = (Ret tt, w') →
  pagedir w !! pg_round_down addr = None →
  ∃ wh, page_fault addr (if write then PF_W else 0) 0 w = (Ret tt, wh).
Proof.
  intros Hrun Hnone. destruct fuel as [|fuel].
  { cbn [mem_access] in Hrun. rewrite bind_gets, Hnone in Hrun. discriminate Hrun. }
  rewrite (mem_access_unmapped _ _ _ _ Hnone) in Hrun.
  destruct (page_fault addr (if write then PF_W else 0) 0 w) as [r1 w1] eqn:Hpf.
  destruct r1 as [[]| |].
  - eauto.
  - rewrite (bind_Exit _ _ _ _ Hpf) in Hrun. discriminate Hrun.
  - rewrite (bind_Panic _ _ _ _ Hpf) in Hrun. discriminate Hrun.
Qed.

(** ** The touch loop *)

Lemma touch_addr_log fuel a w r w' :
  touch_addr fuel a w = (r, w') →
  ∃ evs, log w' = log w ++ EvTouch a :: evs ∧ forallb handler_event evs = true.
Proof.
  unfold touch_addr. rewrite bind_trace. intros Hrun.
  apply mem_access_log in Hrun as (evs & Hlog & Hevs).
  exists evs. split; [|done]. rewrite Hlog. fields. by rewrite <- (assoc_L (++)).
Qed.

Lemma touch_addr_keeps fuel a w r w' :
  touch_addr fuel a w = (r, w') → handler_keeps w w'.
Proof.
  unfold touch_addr. rewrite bind_trace. intros Hrun.
  apply mem_access_keeps in Hrun.
  refine (handler_keeps_trans _ _ _ _ Hrun). keeps_fields; auto.
Qed.

(** A touch that returns leaves the byte's page mapped, after a fault from
    which the handler returned when the page was not mapped before. *)
Lemma touch_addr_Ret fuel a w w' :
  touch_addr fuel a w = (Ret tt, w') →
  is_Some (pagedir w' !! pg_round_down a) ∧
  (pagedir w !! pg_round_down a = None →
   ∃ wh, page_fault a 0 0 (emit (EvTouch a) w) = (Ret tt, wh)).
Proof.
  unfold touch_addr. rewrite bind_trace. intros Hrun. split.
  - destruct (mem_access_Ret _ _ _ _ _ Hrun) as (e & He & _). eauto.
  - intros Hnone. by apply (mem_access_faulted _ false _ _ _ Hrun).
Qed.

(** The loop touches [b + j], [b + j + 1], ... in order; if a touch ends
    the process, the loop ends there. *)
Lemma touch_loop_log fuel b n : ∀ j w r w',
  for_upto n j (fun j => touch_addr fuel (wrap32 (b + j))) w = (r, w') →
  ∃ evs,
    log w' = log w ++ evs ∧
    forallb touch_phase_event evs = true ∧
    (r = Ret tt →
     touches evs = (λ i : nat, wrap32 (b + (j + Z.of_nat i))) <$> seq 0 n).
Proof.
  induction n as [|n IH]; intros j w r w'; cbn [for_upto].
  { intros [= <- <-]. exists []. by rewrite app_nil_r. }
  destruct (touch_addr fuel (wrap32 (b + j)) w) as [r1 w1] eqn:Ht.
  destruct (touch_addr_log _ _ _ _ _ Ht) as (evs1 & Hlog1 & Hevs1).
  destruct r1 as [[]| |].
  - rewrite (bind_Ret _ _ _ _ _ Ht). intros Hrest.
    destruct (IH _ _ _ _ Hrest) as (evs2 & Hlog2 & Hevs2 & Htouch).
    exists (EvTouch (wrap32 (b + j)) :: evs1 ++ evs2).
    split; [by rewrite Hlog2, Hlog1, <- (assoc_L (++))|].
    split.
    { cbn [forallb touch_phase_event]. rewrite forallb_app, Hevs2.
      by rewrite handler_touch_phase. }
    intros Hr. change (EvTouch ?a :: ?l) with ([EvTouch a] ++ l).
    rewrite !touches_app, (touches_handler evs1), Htouch by done.
    cbn [seq fmap list_fmap].
    change (touches [EvTouch ?a] ++ ?l) with (a :: l).
    f_equal; [f_equal; lia|].
    rewrite <- seq_shift, <- list_fmap_compose.
    apply list_fmap_ext. intros _ i _. cbn. f_equal. lia.
  - rewrite (bind_Exit _ _ _ _ Ht). intros [= <- <-].
    exists (EvTouch (wrap32 (b + j)) :: evs1).
    split; [done|]. split; [|done].
    cbn [forallb touch_phase_event]. by rewrite handler_touch_phase.
  - rewrite (bind_Panic _ _ _ _ Ht). intros [= <- <-].
    exists (EvTouch (wrap32 (b + j)) :: evs1).
    split; [done|]. split; [|done].
    cbn [forallb touch_phase_event]. by rewrite handler_touch_phase.
Qed.

Lemma touch_loop_keeps fuel b n : ∀ j w r w',
  for_upto n j (fun j => touch_addr fuel (wrap32 (b + j))) w = (r, w') →
  handler_keeps w w'.
Proof.
  induction n as [|n IH]; intros j w r w'; cbn [for_upto].
  { intros [= <- <-]. apply handler_keeps_refl. }
  destruct (touch_addr fuel (wrap32 (b + j)) w) as [r1 w1] eqn:Ht.
  pose proof (touch_addr_keeps _ _ _ _ _ Ht) as H1.
  destruct r1 as [[]| |].
  - rewrite (bind_Ret _ _ _ _ _ Ht). intros Hrest.
    exact (handler_keeps_trans _ _ _ H1 (IH _ _ _ _ Hrest)).
  - rewrite (bind_Exit _ _ _ _ Ht). by intros [= <- <-].
  - rewrite (bind_Panic _ _ _ _ Ht). by intros [= <- <-].
Qed.

(** A loop that returns has run each of its rounds, from the state the
    rounds before it left. *)
Lemma for_upto_round body n : ∀ j w w' k,
  for_upto n j body w = (Ret tt, w') → (k < n)%nat →
  ∃ wk wk',
    for_upto k j body w = (Ret tt, wk) ∧
    body (j + Z.of_nat k) wk = (Ret tt, wk').
Proof.
  induction n as [|n IH]; intros j w w' k Hrun Hk; [lia|].
  cbn [for_upto] in Hrun.
  destruct (body j w) as [r1 w1] eqn:Hb.
  destruct r1 as [[]| |].
  2:{ rewrite (bind_Exit _ _ _ _ Hb) in Hrun. discriminate Hrun. }
  2:{ rewrite (bind_Panic _ _ _ _ Hb) in Hrun. discriminate Hrun. }
  rewrite (bind_Ret _ _ _ _ _ Hb) in Hrun.
  destruct k as [|k].
  { exists w, w1. split; [reflexivity|]. by rewrite Z.add_0_r. }
  destruct (IH _ _ _ k Hrun) as (wk & wk' & Hpre & Hround); [lia|].
  exists wk, wk'. split.
  - cbn [for_upto]. by rewrite (bind_Ret _ _ _ _ _ Hb).
  - rewrite <- Hround. f_equal. lia.
Qed.

Lemma seqZ_touch b n :
  (λ i : nat, wrap32 (b + (0 + Z.of_nat i))) <$> seq 0 (Z.to_nat n)
  = (λ j, wrap32 (b + j)) <$> seqZ 0 n.
Proof.
  unfold seqZ. rewrite <- list_fmap_compose.
  apply list_fmap_ext. intros _ i _. cbn. f_equal. lia.
Qed.

(** The copies add to the log what the handler adds. *)
Lemma copy_log fuel write buf n : ∀ j w r w',
  for_upto n j (fun j => mem_access fuel write (wrap32 (buf + j))) w = (r, w') →
  ∃ evs, log w' = log w ++ evs ∧ forallb handler_event evs = true.
Proof.
  induction n as [|n IH]; intros j w r w'; cbn [for_upto].
  { intros [= <- <-]. exists []. by rewrite app_nil_r. }
  destruct (mem_access fuel write (wrap32 (buf + j)) w) as [r1 w1] eqn:Ha.
  destruct (mem_access_log _ _ _ _ _ _ Ha) as (evs1 & Hlog1 & Hevs1).
  destruct r1 as [[]| |].
  - rewrite (bind_Ret _ _ _ _ _ Ha). intros Hrest.
    destruct (IH _ _ _ _ Hrest) as (evs2 & Hlog2 & Hevs2).
    exists (evs1 ++ evs2). split; [by rewrite Hlog2, Hlog1, (assoc_L (++))|].
    by rewrite forallb_app, Hevs1, Hevs2.
  - rewrite (bind_Exit _ _ _ _ Ha). intros [= <- <-]. eauto.
  - rewrite (bind_Panic _ _ _ _ Ha). intros [= <- <-]. eauto.
Qed.

Lemma quiet_bind {A B} (m : M A) (k : A → M B) :
  quiet m → (∀ a, quiet (k a)) → quiet (bind m k).
Proof.
  intros Hm Hk w r w' Hrun.
  destruct (m w) as [r1 w1] eqn:Hm1.
  destruct (Hm _ _ _ Hm1) as (evs1 & Hlog1 & Hevs1).
  destruct r1 as [a| |].
  - rewrite (bind_Ret _ _ _ _ _ Hm1) in Hrun.
    destruct (Hk a _ _ _ Hrun) as (evs2 & Hlog2 & Hevs2).
    exists (evs1 ++ evs2). split; [by rewrite Hlog2, Hlog1, (assoc_L (++))|].
    by rewrite touches_app, Hevs1, Hevs2.
  - rewrite (bind_Exit _ _ _ _ Hm1) in Hrun. injection Hrun as <- <-. eauto.
  - rewrite (bind_Panic _ _ _ _ Hm1) in Hrun. injection Hrun as <- <-. eauto.
Qed.

Lemma quiet_ret {A} (a : A) : quiet (ret a).
Proof. intros w r w' [= <- <-]. exists []. by rewrite app_nil_r. Qed.

Lemma quiet_gets {A} (f : world → A) : quiet (gets f).
Proof. intros w r w' [= <- <-]. exists []. by rewrite app_nil_r. Qed.

Lemma quiet_trace e : touches [e] = [] → quiet (trace e).
Proof. intros He w r w' [= <- <-]. exists [e]. by split. Qed.

Lemma quiet_copy fuel write buf n :
  quiet (for_upto n 0 (fun j => mem_access fuel write (wrap32 (buf + j)))).
Proof.
  intros w r w' Hrun.
  destruct (copy_log _ _ _ _ _ _ _ _ Hrun) as (evs & Hlog & Hevs).
  exists evs. split; [exact Hlog | by apply touches_handler].
Qed.

Lemma quiet_for_upto body n : (∀ j, quiet (body j)) → ∀ j, quiet (for_upto n j body).
Proof.
  intros Hb. induction n as [|n IH]; intros j; cbn [for_upto].
  - apply quiet_ret.
  - apply quiet_bind; [apply Hb | intros _; apply IH].
Qed.

Lemma quiet_file_read f buf n : quiet (file_read f buf n).
Proof.
  intros w r w'. unfold file_read.
  destruct (files w !! f) as [fo|]; intros [= <- <-]; fields.
  - eexists [_]. by split.
  - exists []. by rewrite app_nil_r.
Qed.

Lemma quiet_file_write f buf n : quiet (file_write f buf n).
Proof.
  intros w r w'. unfold file_write.
  destruct (files w !! f) as [fo|]; intros [= <- <-]; fields.
  - eexists [_]. by split.
  - exists []. by rewrite app_nil_r.
Qed.

(** What follows the lock in [read] and in [write] touches nothing. *)
Lemma read_transfer_quiet fuel fd b n :
  quiet (if fd =? 0 then
           for_upto (Z.to_nat n) 0
             (fun i =>
                trace (EvInputGetc (wrap32 (b + 4 * i))) ;;
                copy_out fuel (wrap32 (b + 4 * i)) 4) ;;
           lock_release ;;
           ret (to_int n)
         else
           f ← gets (fun w => fd_table w !! fd) ;
           match f with
           | None => lock_release ;; ret (-1)
           | Some f =>
               r ← file_read f b (to_int n) ;
               copy_out fuel b r ;;
               lock_release ;;
               ret r
           end).
Proof.
  unfold lock_release, copy_out. destruct (fd =? 0).
  - apply quiet_bind.
    { apply quiet_for_upto. intros j.
      apply quiet_bind; [by apply quiet_trace | intros _; apply quiet_copy]. }
    intros _. apply quiet_bind; [by apply quiet_trace | intros _; apply quiet_ret].
  - apply quiet_bind; [apply quiet_gets|]. intros [f|].
    + apply quiet_bind; [apply quiet_file_read|]. intros r.
      apply quiet_bind; [apply quiet_copy|]. intros _.
      apply quiet_bind; [by apply quiet_trace | intros _; apply quiet_ret].
    + apply quiet_bind; [by apply quiet_trace | intros _; apply quiet_ret].
Qed.

Lemma write_transfer_quiet fuel fd b n :
  quiet (if fd =? 1 then
           trace (EvPutbuf b n) ;;
           copy_in fuel b n ;;
           lock_release ;;
           ret (to_int n)
         else
           f ← gets (fun w => fd_table w !! fd) ;
           match f with
           | None => lock_release ;; ret (-1)
           | Some f =>
               r ← file_write f b (to_int n) ;
               copy_in fuel b r ;;
               lock_release ;;
               ret r
           end).
Proof.
  unfold lock_release, copy_in. destruct (fd =? 1).
  - apply quiet_bind; [by apply quiet_trace|]. intros _.
    apply quiet_bind; [apply quiet_copy|]. intros _.
    apply quiet_bind; [by apply quiet_trace | intros _; apply quiet_ret].
  - apply quiet_bind; [apply quiet_gets|]. intros [f|].
    + apply quiet_bind; [apply quiet_file_write|]. intros r.
      apply quiet_bind; [apply quiet_copy|]. intros _.
      apply quiet_bind; [by apply quiet_trace | intros _; apply quiet_ret].
    + apply quiet_bind; [by apply quiet_trace | intros _; apply quiet_ret].
Qed.

(** Every byte of a touch loop that has returned was touched in its turn. *)
Lemma touch_loop_in_turn fuel b n w w1 :
  touch_loop fuel b n w = (Ret tt, w1) →
  ∀ j, 0 ≤ j < n → touched_in_turn fuel b w j.
Proof.
  unfold touch_loop. intros Hloop j Hj.
  destruct (for_upto_round _ _ _ _ _ (Z.to_nat j) Hloop) as (wj & wj' & Hpre & Ht);
    [lia|].
  rewrite Z.add_0_l, Z2Nat.id in Ht by lia.
  destruct (touch_addr_Ret _ _ _ _ Ht) as (Hmapped & Hfault).
  exists wj, wj'. unfold touch_loop. done.
Qed.

(** C10: in every [read] or [write] whose descriptor passes the first
    check, the touch loop comes first.  If a touch ends the process, the
    call ends there and the lock was never taken.  If the loop returns, it
    has touched each byte address b, b+1, ..., b+n-1 in order, each touch
    returning with the byte's page mapped, after a fault served by
    [page_fault] when the page was not mapped before; only then is the
    filesystem lock acquired, and the transfer that follows touches
    nothing. *)
Theorem buffer_touched_before_lock fuel is_write fd b n w r w' :
  rw_call fuel is_write fd b n w = (r, w') →
  rw_fd_checked is_write fd = true →
  ∃ r1 w1 pre,
    touch_loop fuel b n w = (r1, w1) ∧
    log w1 = log w ++ pre ∧
    forallb touch_phase_event pre = true ∧
    match r1 with
    | Ret _ =>
        touches pre = (λ j, wrap32 (b + j)) <$> seqZ 0 n ∧
        (∀ j, 0 ≤ j < n → touched_in_turn fuel b w j) ∧
        ∃ post, log w' = log w1 ++ EvLockAcquire :: post ∧ touches post = []
    | Exit => r = Exit ∧ w' = w1
    | Panic => r = Panic ∧ w' = w1
    end.
Proof.
  intros Hrun Hfd.
  assert (∀ k : M Z,
            (touch_loop fuel b n ;; lock_acquire ;; k) w = (r, w') →
            quiet k →
            ∃ r1 w1 pre,
              touch_loop fuel b n w = (r1, w1) ∧
              log w1 = log w ++ pre ∧
              forallb touch_phase_event pre = true ∧
              match r1 with
              | Ret _ =>
                  touches pre = (λ j, wrap32 (b + j)) <$> seqZ 0 n ∧
                  (∀ j, 0 ≤ j < n → touched_in_turn fuel b w j) ∧
                  ∃ post, log w' = log w1 ++ EvLockAcquire :: post ∧
                          touches post = []
              | Exit => r = Exit ∧ w' = w1
              | Panic => r = Panic ∧ w' = w1
              end) as Hgen.
  { intros k Hk Hquiet.
    destruct (touch_loop fuel b n w) as [r1 w1] eqn:Hloop.
    destruct (touch_loop_log _ _ _ _ _ _ _ Hloop) as (pre & Hlog1 & Hpre & Htouch).
    exists r1, w1, pre. split; [reflexivity|]. split; [exact Hlog1|].
    split; [exact Hpre|].
    destruct r1 as [[]| |].
    - rewrite (bind_Ret _ _ _ _ _ Hloop) in Hk. unfold lock_acquire in Hk.
      rewrite bind_trace in Hk.
      destruct (Hquiet _ _ _ Hk) as (post & Hlog' & Hpost).
      split; [rewrite Htouch by reflexivity; apply seqZ_touch|].
      split; [exact (touch_loop_in_turn _ _ _ _ _ Hloop)|].
      exists post. split; [|exact Hpost].
      rewrite Hlog'. fields. by rewrite <- (assoc_L (++)).
    - rewrite (bind_Exit _ _ _ _ Hloop) in Hk. by injection Hk as <- <-.
    - rewrite (bind_Panic _ _ _ _ Hloop) in Hk. by injection Hk as <- <-. }
  destruct is_write; cbn [rw_call rw_fd_checked] in Hrun, Hfd;
    unfold read, write in Hrun;
    apply negb_true_iff in Hfd; rewrite Hfd in Hrun;
    (eapply Hgen; [exact Hrun|]).
  - apply write_transfer_quiet.
  - apply read_transfer_quiet.
Qed.

Lemma buffer_touched_before_lock_witness :
  ∃ r1 w1 pre,
    touch_loop 1 0x20000ffe 4 mapped_world = (r1, w1) ∧
    log w1 = log mapped_world ++ pre ∧
    forallb touch_phase_event pre = true ∧
    match r1 with
    | Ret _ =>
        touches pre = (λ j, wrap32 (0x20000ffe + j)) <$> seqZ 0 4 ∧
        (∀ j, 0 ≤ j < 4 → touched_in_turn 1 0x20000ffe mapped_world j) ∧
        ∃ post, log (snd (rw_call 1 true 2 0x20000ffe 4 mapped_world))
                = log w1 ++ EvLockAcquire :: post ∧
                touches post = []
    | Exit => Ret 4 = Exit ∧ snd (rw_call 1 true 2 0x20000ffe 4 mapped_world) = w1
    | Panic => Ret 4 = Panic ∧ snd (rw_call 1 true 2 0x20000ffe 4 mapped_world) = w1
    end.
Proof.
  apply (buffer_touched_before_lock 1 true 2 0x20000ffe 4 mapped_world (Ret 4)
           (snd (rw_call 1 true 2 0x20000ffe 4 mapped_world))).
  - vm_compute. reflexivity.
  - reflexivity.
Defined.

(** A [write] of four bytes from a buffer that straddles the two pages of
    the mapping: both pages are loaded by the touches, then the lock is
    taken and the file is written. *)
Example write_faults_in_buffer :
  fst (write 1 2 0x20000ffe 4 mapped_world) = Ret 4 ∧
  drop (length (log mapped_world))
       (log (snd (write 1 2 0x20000ffe 4 mapped_world))) =
    [EvTouch 0x20000ffe;
       EvFileSeek 101 0; EvFileRead 101 0xc0102000 4096 4096; EvMemset 0xc0103000 0;
     EvTouch 0x20000fff;
     EvTouch 0x20001000;
       EvFileSeek 101 4096; EvFileRead 101 0xc0103000 904 904; EvMemset 0xc0103388 3192;
     EvTouch 0x20001001;
     EvLockAcquire; EvFileWrite 100 0x20000ffe 4; EvLockRelease] ∧
  dom (pagedir (snd (write 1 2 0x20000ffe 4 mapped_world)))
    = {[ 0x20000000; 0x20001000 ]}.
Proof. vm_compute. repeat split. Qed.

(** ** Touches, faults and the checks of the handler *)

(** X17: once the handler has returned from a fault, with a page-table page
    to be had, a touch of any byte of the same page raises no further fault:
    it leaves the state as it is. *)
Theorem served_fault_not_repeated fuel fault_addr error_code f_esp w w' a :
  page_fault fault_addr error_code f_esp w = (Ret tt, w') →
  spt_wf w → pt_ok w = true →
  pg_round_down a = pg_round_down fault_addr →
  touch_addr fuel a w' = (Ret tt, emit (EvTouch a) w').
Proof.
  intros Hrun Hwf Hpt Hpage.
  destruct (page_fault_effect _ _ _ _ _ _ Hrun Hwf) as (_ & _ & _ & Hmap).
  destruct (Hmap eq_refl Hpt) as [e He].
  unfold touch_addr. rewrite bind_trace.
  apply mem_access_load with e. fields. by rewrite Hpage.
Qed.

Lemma served_fault_not_repeated_witness :
  touch_addr 0 (PHYS_BASE - 4000) (snd (page_fault (PHYS_BASE - 20) 0 0 sample_world))
  = (Ret tt, emit (EvTouch (PHYS_BASE - 4000))
               (snd (page_fault (PHYS_BASE - 20) 0 0 sample_world))).
Proof.
  apply (served_fault_not_repeated 0 (PHYS_BASE - 20) 0 0 sample_world
           (snd (page_fault (PHYS_BASE - 20) 0 0 sample_world)) (PHYS_BASE - 4000)).
  - vm_compute. reflexivity.
  - intros k p Hk. change (SPT sample_world) with (∅ : gmap Z page) in Hk.
    rewrite lookup_empty in Hk. discriminate Hk.
  - reflexivity.
  - vm_compute. reflexivity.
Defined.



(** ** [check_valid] *)

(** X28: [check_valid] returns only for a non-null user address whose page
    is mapped, and then changes nothing; a touch of an address it has let
    through raises no fault. *)
Theorem check_valid_returns fuel addr w r w' :
  check_valid addr w = (r, w') → r ≠ Exit →
  r = Ret tt ∧ w' = w ∧
  addr ≠ 0 ∧ is_user_vaddr addr = true ∧
  touch_addr fuel addr w = (Ret tt, emit (EvTouch addr) w).
Proof.
  unfold check_valid, pagedir_get_page, touch_addr.
  destruct (Z.eqb_spec addr 0) as [|Hnz].
  { intros [= <- <-] Hr. done. }
  destruct (is_user_vaddr addr).
  2:{ intros [= <- <-] Hr. done. }
  cbn [orb negb]. rewrite bind_gets, bind_trace.
  destruct (pagedir w !! pg_round_down addr) as [e|] eqn:He.
  2:{ intros [= <- <-] Hr. done. }
  intros [= <- <-] _. repeat (split; [done|]).
  by apply mem_access_load with e.
Qed.

Lemma check_valid_returns_witness :
  Ret tt = Ret tt ∧
  snd (page_fault (PHYS_BASE - 20) 0 0 sample_world)
    = snd (page_fault (PHYS_BASE - 20) 0 0 sample_world) ∧
  PHYS_BASE - 8 ≠ 0 ∧ is_user_vaddr (PHYS_BASE - 8) = true ∧
  touch_addr 0 (PHYS_BASE - 8) (snd (page_fault (PHYS_BASE - 20) 0 0 sample_world))
    = (Ret tt, emit (EvTouch (PHYS_BASE - 8))
                 (snd (page_fault (PHYS_BASE - 20) 0 0 sample_world))).
Proof.
  apply (check_valid_returns 0 (PHYS_BASE - 8)
           (snd (page_fault (PHYS_BASE - 20) 0 0 sample_world)) (Ret tt)
           (snd (page_fault (PHYS_BASE - 20) 0 0 sample_world))).
  - vm_compute. reflexivity.
  - discriminate.
Defined.

(** X29: [check_valid] refuses a page that is known to the SPT but not
    loaded yet: the process ends with status -1, although a touch of the
    same address, with a page-table page to be had, makes the handler load
    the page from its file and returns with the page mapped. *)
Theorem check_valid_refuses_unloaded_page fuel addr w p fo :
  addr ≠ 0 → is_user_vaddr addr = true →
  pagedir w !! pg_round_down addr = None →
  SPT w !! pg_round_down addr = Some p →
  page_addr p = pg_round_down addr →
  purpose p = FOR_FILE ∨ purpose p = FOR_MMAP →
  is_swapped p = false →
  files w !! page_file p = Some fo →
  page_got p fo = to_int (read_bytes p) →
  pt_ok w = true →
  check_valid addr w = exit (-1) w ∧
  ∃ w', touch_addr (S fuel) addr w = (Ret tt, w') ∧
        pagedir w' !! pg_round_down addr
        = Some (mk_pte (next_page w) (is_writable p) false).
Proof.
  intros Hnz Hu Hpd Hspt Hkey Hpu Hsw Hf Hgot Hpt. split.
  - unfold check_valid, pagedir_get_page.
    replace (addr =? 0) with false by lia. rewrite Hu. cbn [orb negb].
    rewrite bind_gets, Hpd. reflexivity.
  - unfold touch_addr. rewrite bind_trace.
    rewrite mem_access_unmapped by (fields; exact Hpd).
    erewrite bind_Ret.
    2:{ rewrite (page_fault_lazy_load addr 0 0 _ p); try assumption; try reflexivity.
        apply (load_from_file_full _ _ fo); [exact Hf | exact Hgot]. }
    fields. rewrite Hpt, Hkey.
    erewrite mem_access_load by (fields; apply lookup_insert_eq).
    eexists. split; [reflexivity|]. fields. apply lookup_insert_eq.
Qed.

Lemma check_valid_refuses_unloaded_page_witness :
  check_valid 0x20000010 mapped_world = exit (-1) mapped_world ∧
  ∃ w', touch_addr 1 0x20000010 mapped_world = (Ret tt, w') ∧
        pagedir w' !! pg_round_down 0x20000010
        = Some (mk_pte (next_page mapped_world) true false).
Proof.
  apply (check_valid_refuses_unloaded_page 0 0x20000010 mapped_world
           (mmap_entry 101 0x20000000 5000 0xc0100000 0) (mk_file 7 5000 5000)).
  - discriminate.
  - reflexivity.
  - vm_compute. reflexivity.
  - vm_compute. reflexivity.
  - vm_compute. reflexivity.
  - right. reflexivity.
  - reflexivity.
  - vm_compute. reflexivity.
  - vm_compute. reflexivity.
  - reflexivity.
Defined.

(** ** [read] and [write]: more *)

(** X18: [read] and [write] on a descriptor that passes the first check but
    whose slot is empty return -1, once the touches of the buffer have
    returned, with the lock taken and released; unlike [filesize], [seek],
    [tell] and [close] they do not end the process. *)
Theorem rw_unopened_descriptor fuel is_write fd b n w w1 :
  rw_fd_checked is_write fd = true →
  fd ≠ (if is_write then 1 else 0) →
  fd_table w !! fd = None →
  touch_loop fuel b n w = (Ret tt, w1) →
  rw_call fuel is_write fd b n w
  = (Ret (-1), emit EvLockRelease (emit EvLockAcquire w1)).
Proof.
  intros Hfd Hstd Hnone Hloop.
  destruct (touch_loop_keeps _ _ _ _ _ _ _ Hloop) as (_ & Hfd1 & _).
  unfold touch_loop in Hloop.
  destruct is_write; cbn [rw_call rw_fd_checked] in *; unfold read, write;
    apply negb_true_iff in Hfd; rewrite Hfd;
    rewrite (bind_Ret _ _ _ _ _ Hloop); unfold lock_acquire, lock_release;
    rewrite bind_trace.
  - replace (fd =? 1) with false by lia.
    rewrite bind_gets. fields. rewrite Hfd1, Hnone, bind_trace. reflexivity.
  - replace (fd =? 0) with false by lia.
    rewrite bind_gets. fields. rewrite Hfd1, Hnone, bind_trace. reflexivity.
Qed.

Lemma rw_unopened_descriptor_witness :
  rw_call 1 true 3 0x20000000 2 mapped_world
  = (Ret (-1), emit EvLockRelease
                 (emit EvLockAcquire (snd (touch_loop 1 0x20000000 2 mapped_world)))).
Proof.
  apply (rw_unopened_descriptor 1 true 3 0x20000000 2 mapped_world
           (snd (touch_loop 1 0x20000000 2 mapped_world))).
  - reflexivity.
  - discriminate.
  - vm_compute. reflexivity.
  - vm_compute. reflexivity.
Defined.

Lemma byte_pages_S buf j n :
  byte_pages buf j (S n)
  = pg_round_down (wrap32 (buf + j)) :: byte_pages buf (j + 1) n.
Proof.
  unfold byte_pages. cbn [seq fmap list_fmap]. f_equal; [do 3 f_equal; lia|].
  rewrite <- seq_shift, <- list_fmap_compose.
  apply list_fmap_ext. intros _ i _. cbn. do 3 f_equal. lia.
Qed.

Lemma elem_of_byte_pages buf j n k :
  k ∈ byte_pages buf j n ↔
  ∃ i, j ≤ i < j + Z.of_nat n ∧ k = pg_round_down (wrap32 (buf + i)).
Proof.
  unfold byte_pages. rewrite list_elem_of_fmap. split.
  - intros (i & -> & Hi). apply elem_of_seq in Hi.
    exists (j + Z.of_nat i). split; [lia | reflexivity].
  - intros (i & Hi & ->). exists (Z.to_nat (i - j)).
    split; [do 3 f_equal; lia | apply elem_of_seq; lia].
Qed.

Lemma pte_set_dirty_twice (x : option pte) :
  pte_set_dirty <$> (pte_set_dirty <$> x) = pte_set_dirty <$> x.
Proof. by destruct x. Qed.

Lemma set_pagedir_const pd w : pagedir w = pd → set_pagedir (λ _, pd) w = w.
Proof. intros <-. by destruct w. Qed.

(** Stores to pages that are mapped writable raise no fault: they set the
    dirty bits of the pages and nothing else. *)
Lemma copy_out_resident fuel buf n : ∀ j w,
  (∀ k, k ∈ byte_pages buf j n →
     ∃ e, pagedir w !! k = Some e ∧ pte_writable e = true) →
  ∃ pd',
    for_upto n j (fun j => mem_access fuel true (wrap32 (buf + j))) w
    = (Ret tt, set_pagedir (λ _, pd') w) ∧
    ∀ k, pd' !! k = if decide (k ∈ byte_pages buf j n)
                    then pte_set_dirty <$> pagedir w !! k
                    else pagedir w !! k.
Proof.
  induction n as [|n IH]; intros j w Hres; cbn [for_upto].
  { exists (pagedir w). split; [by rewrite set_pagedir_const|].
    intros k. rewrite decide_False; [reflexivity | apply not_elem_of_nil]. }
  rewrite byte_pages_S in Hres.
  set (pj := pg_round_down (wrap32 (buf + j))) in *.
  destruct (Hres pj) as (e & He & Hw); [apply list_elem_of_here|].
  erewrite bind_Ret by (apply mem_access_store with e; [exact He | exact Hw]).
  fold pj.
  destruct (IH (j + 1) (set_pagedir (alter pte_set_dirty pj) w)) as (pd' & Hrun & Hpd).
  { intros k Hk. destruct (Hres k) as (e' & He' & Hw'); [by apply list_elem_of_further|].
    fields. rewrite lookup_alter. destruct (decide (pj = k)) as [->|].
    - rewrite He'. exists (pte_set_dirty e'). by split.
    - exists e'. by split. }
  exists pd'. split; [rewrite Hrun; reflexivity|].
  intros k. rewrite Hpd, byte_pages_S. fold pj. fields. rewrite lookup_alter.
  destruct (decide (k ∈ byte_pages buf (j + 1) n)) as [Hin|Hnin];
    destruct (decide (pj = k)) as [->|Hne].
  - rewrite decide_True by apply list_elem_of_here. apply pte_set_dirty_twice.
  - rewrite decide_True by (by apply list_elem_of_further). reflexivity.
  - rewrite decide_True by apply list_elem_of_here. reflexivity.
  - rewrite decide_False; [reflexivity|].
    rewrite elem_of_cons. intros [->|?]; done.
Qed.

(** The touch loop over bytes whose pages are all mapped raises no fault. *)
Lemma touch_loop_resident fuel b n : ∀ j w,
  (∀ i, j ≤ i < j + Z.of_nat n →
     is_Some (pagedir w !! pg_round_down (wrap32 (b + i)))) →
  for_upto n j (fun j => touch_addr fuel (wrap32 (b + j))) w
  = (Ret tt,
     add_log ((λ i : nat, EvTouch (wrap32 (b + (j + Z.of_nat i)))) <$> seq 0 n) w).
Proof.
  induction n as [|n IH]; intros j w Hres; cbn [for_upto].
  { by rewrite add_log_nil. }
  destruct (Hres j) as [e He]; [lia|].
  unfold touch_addr at 1. rewrite bind_assoc, bind_trace.
  erewrite bind_Ret by (apply mem_access_load with e; fields; exact He).
  change (emit ?e w) with (add_log [e] w).
  rewrite IH.
  2:{ intros i Hi. apply Hres. lia. }
  rewrite add_log_add_log. f_equal. f_equal.
  cbn [seq fmap list_fmap app]. f_equal; [do 2 f_equal; lia|].
  rewrite <- seq_shift, <- list_fmap_compose.
  apply list_fmap_ext. intros _ i _. cbn. do 2 f_equal. lia.
Qed.

Lemma seqZ_fmap_nat {A} (g : Z → A) n :
  (λ i : nat, g (0 + Z.of_nat i)) <$> seq 0 (Z.to_nat n) = g <$> seqZ 0 n.
Proof.
  unfold seqZ. rewrite <- list_fmap_compose.
  apply list_fmap_ext. intros _ i _. cbn. f_equal. lia.
Qed.

(** X19: [read] from an open file into a buffer whose pages are all mapped
    writable raises no fault and returns the bytes left in the file from the
    position, at most the size asked for.  The position moves on by what was
    read, the pages the bytes are stored in become dirty, and nothing else
    of the page directory, the SPT or the frame table changes. *)
Theorem read_resident_buffer fuel fd b n w f fo :
  2 ≤ fd < FD_TABLE_SIZE →
  fd_table w !! fd = Some f → files w !! f = Some fo →
  0 ≤ n < 2147483648 →
  (∀ i, 0 ≤ i < n →
     ∃ e, pagedir w !! pg_round_down (wrap32 (b + i)) = Some e ∧
          pte_writable e = true) →
  ∃ w',
    read fuel fd b n w = (Ret (Z.max 0 (Z.min n (f_length fo - f_pos fo))), w') ∧
    files w' = <[f := file_set_pos
                        (f_pos fo + Z.max 0 (Z.min n (f_length fo - f_pos fo))) fo]>
                 (files w) ∧
    SPT w' = SPT w ∧ frame_table w' = frame_table w ∧
    (∀ k, pagedir w' !! k =
          if decide (k ∈ byte_pages b 0
                           (Z.to_nat (Z.max 0 (Z.min n (f_length fo - f_pos fo)))))
          then pte_set_dirty <$> pagedir w !! k
          else pagedir w !! k) ∧
    log w' = log w ++ ((λ j, EvTouch (wrap32 (b + j))) <$> seqZ 0 n)
                   ++ [EvLockAcquire;
                       EvFileRead f b n (Z.max 0 (Z.min n (f_length fo - f_pos fo)));
                       EvLockRelease].
Proof.
  intros Hfd Hslot Hf Hn Hres. unfold read. unfold FD_TABLE_SIZE in *.
  replace ((fd <? 0) || (fd =? 1) || (fd >=? 130)) with false
    by (symmetry; rewrite !orb_false_iff; lia).
  erewrite bind_Ret.
  2:{ apply touch_loop_resident. intros i Hi.
      destruct (Hres i) as (e & He & _); [lia|]. eauto. }
  rewrite (seqZ_fmap_nat (λ j, EvTouch (wrap32 (b + j)))).
  replace (fd =? 0) with false by lia.
  unfold lock_acquire, lock_release.
  rewrite bind_trace, bind_gets. fields2. rewrite Hslot.
  erewrite bind_file_read by (fields2; exact Hf).
  rewrite to_int_small by done.
  set (got := Z.max 0 (Z.min n (f_length fo - f_pos fo))).
  match goal with |- context [bind (copy_out _ _ _) _ ?w1] => set (W1 := w1) end.
  destruct (copy_out_resident fuel b (Z.to_nat got) 0 W1) as (pd' & Hcopy & Hpd).
  { intros k Hk. apply elem_of_byte_pages in Hk as (i & Hi & ->).
    unfold W1. fields2. apply Hres. lia. }
  unfold copy_out. rewrite (bind_Ret _ _ _ _ _ Hcopy), bind_trace.
  eexists. split; [reflexivity|]. unfold W1. fields2.
  split; [reflexivity|]. split; [reflexivity|]. split; [reflexivity|].
  split; [exact Hpd|].
  by rewrite <- !(assoc_L (++)).
Qed.

Lemma read_resident_buffer_witness :
  ∃ w',
    read 0 2 (PHYS_BASE - 64) 3 (snd (page_fault (PHYS_BASE - 20) 0 0 sample_world))
    = (Ret (Z.max 0 (Z.min 3 (f_length (mk_file 7 5000 0) - f_pos (mk_file 7 5000 0)))), w') ∧
    files w' = <[100 := file_set_pos
                          (f_pos (mk_file 7 5000 0)
                           + Z.max 0 (Z.min 3 (f_length (mk_file 7 5000 0)
                                               - f_pos (mk_file 7 5000 0))))
                          (mk_file 7 5000 0)]>
                 (files (snd (page_fault (PHYS_BASE - 20) 0 0 sample_world))) ∧
    SPT w' = SPT (snd (page_fault (PHYS_BASE - 20) 0 0 sample_world)) ∧
    frame_table w' = frame_table (snd (page_fault (PHYS_BASE - 20) 0 0 sample_world)) ∧
    (∀ k, pagedir w' !! k =
          if decide (k ∈ byte_pages (PHYS_BASE - 64) 0
                           (Z.to_nat (Z.max 0 (Z.min 3 (f_length (mk_file 7 5000 0)
                                                        - f_pos (mk_file 7 5000 0))))))
          then pte_set_dirty
                 <$> pagedir (snd (page_fault (PHYS_BASE - 20) 0 0 sample_world)) !! k
          else pagedir (snd (page_fault (PHYS_BASE - 20) 0 0 sample_world)) !! k) ∧
    log w' = log (snd (page_fault (PHYS_BASE - 20) 0 0 sample_world))
             ++ ((λ j, EvTouch (wrap32 (PHYS_BASE - 64 + j))) <$> seqZ 0 3)
             ++ [EvLockAcquire;
                 EvFileRead 100 (PHYS_BASE - 64) 3
                   (Z.max 0 (Z.min 3 (f_length (mk_file 7 5000 0)
                                      - f_pos (mk_file 7 5000 0))));
                 EvLockRelease].
Proof.
  apply (read_resident_buffer 0 2 (PHYS_BASE - 64) 3
           (snd (page_fault (PHYS_BASE - 20) 0 0 sample_world)) 100 (mk_file 7 5000 0)).
  - unfold FD_TABLE_SIZE. lia.
  - vm_compute. reflexivity.
  - vm_compute. reflexivity.
  - lia.
  - intros i Hi. exists (mk_pte 0xc0100000 true false).
    assert (i = 0 ∨ i = 1 ∨ i = 2) as [->|[->| ->]] by lia;
      vm_compute; split; reflexivity.
Defined.

(** X21: a [read] from an open file that hands over at least one byte, into
    a buffer whose first byte lies in a page that is mapped read-only and
    whose SPT entry is not writable, ends the process with status -1 in the
    store of the first byte: the touches, which are loads, have all
    returned, [filesys_lock] has been taken, and it is not released. *)
Theorem read_into_read_only_page fuel fd b n w w1 f fo e p :
  2 ≤ fd < FD_TABLE_SIZE → 0 ≤ n < 2147483648 →
  touch_loop (S fuel) b n w = (Ret tt, w1) →
  fd_table w1 !! fd = Some f → files w1 !! f = Some fo →
  0 < Z.min n (f_length fo - f_pos fo) →
  wrap32 b ≠ 0 → is_user_vaddr (wrap32 b) = true →
  pagedir w1 !! pg_round_down (wrap32 b) = Some e → pte_writable e = false →
  SPT w1 !! pg_round_down (wrap32 b) = Some p → is_writable p = false →
  ∃ w',
    read (S fuel) fd b n w = (Exit, w') ∧ exit_status w' = -1 ∧
    log w' = log w1 ++ [EvLockAcquire;
                        EvFileRead f b n (Z.min n (f_length fo - f_pos fo));
                        EvPrintfExit (-1)].
Proof.
  intros Hfd Hn Htouch Hslot Hf Hgot Hnz Hu He Hro Hp Hpro.
  unfold read. unfold FD_TABLE_SIZE in *.
  replace ((fd <? 0) || (fd =? 1) || (fd >=? 130)) with false
    by (symmetry; rewrite !orb_false_iff; lia).
  unfold touch_loop in Htouch. rewrite (bind_Ret _ _ _ _ _ Htouch).
  replace (fd =? 0) with false by lia.
  unfold lock_acquire. rewrite bind_trace, bind_gets. fields2. rewrite Hslot.
  erewrite bind_file_read by (fields2; exact Hf).
  rewrite to_int_small by done.
  replace (Z.max 0 (Z.min n (f_length fo - f_pos fo)))
    with (Z.min n (f_length fo - f_pos fo)) by lia.
  match goal with |- context [bind (copy_out _ _ _) _ ?w1] => set (W1 := w1) end.
  assert (Hstore : copy_out (S fuel) b (Z.min n (f_length fo - f_pos fo)) W1
                   = exit (-1) W1).
  { unfold copy_out.
    destruct (Z.to_nat (Z.min n (f_length fo - f_pos fo))) as [|m] eqn:Hm; [lia|].
    cbn [for_upto]. rewrite Z.add_0_r.
    apply bind_Exit.
    rewrite (mem_access_protected fuel (wrap32 b) W1 e) by (unfold W1; fields2; done).
    apply bind_Exit.
    apply (page_fault_write_protected _ _ _ _ p); done. }
  rewrite (bind_Exit _ _ _ _ Hstore).
  eexists. split; [reflexivity|]. unfold W1. fields2. split; [reflexivity|].
  by rewrite <- !(assoc_L (++)).
Qed.

Lemma read_into_read_only_page_witness :
  ∃ w',
    read 1 2 0x08048000 2 (swapped_file_world false) = (Exit, w') ∧
    exit_status w' = -1 ∧
    log w' = log (snd (touch_loop 1 0x08048000 2 (swapped_file_world false)))
             ++ [EvLockAcquire;
                 EvFileRead 100 0x08048000 2
                   (Z.min 2 (f_length (mk_file 7 5000 0) - f_pos (mk_file 7 5000 0)));
                 EvPrintfExit (-1)].
Proof.
  apply (read_into_read_only_page 0 2 0x08048000 2 (swapped_file_world false)
           (snd (touch_loop 1 0x08048000 2 (swapped_file_world false)))
           100 (mk_file 7 5000 0) (mk_pte 0xc0100000 false false)
           (page_set_is_swapped false
              (page_set_frame_addr 0xc0100000 (swapped_file_page false)))).
  - unfold FD_TABLE_SIZE. lia.
  - lia.
  - vm_compute. reflexivity.
  - vm_compute. reflexivity.
  - vm_compute. reflexivity.
  - vm_compute. reflexivity.
  - vm_compute. discriminate.
  - vm_compute. reflexivity.
  - vm_compute. reflexivity.
  - reflexivity.
  - vm_compute. reflexivity.
  - reflexivity.
Defined.

(** ** [read] from the keyboard *)

Lemma dirty_twice_pages (P P1 P2 : list Z) k (x : option pte) :
  (k ∈ P ↔ k ∈ P1 ∨ k ∈ P2) →
  (if decide (k ∈ P2)
   then pte_set_dirty <$> (if decide (k ∈ P1) then pte_set_dirty <$> x else x)
   else (if decide (k ∈ P1) then pte_set_dirty <$> x else x))
  = if decide (k ∈ P) then pte_set_dirty <$> x else x.
Proof.
  intros HP.
  destruct (decide (k ∈ P2)), (decide (k ∈ P1)), (decide (k ∈ P));
    try reflexivity; try apply pte_set_dirty_twice; tauto.
Qed.

Lemma byte_pages_wrap b j n :
  byte_pages (wrap32 (b + j)) 0 n = byte_pages b j n.
Proof.
  unfold byte_pages. apply list_fmap_ext. intros _ i _. cbn.
  by rewrite wrap32_add_l, <- Z.add_assoc.
Qed.

(** The keyboard loop over bytes that lie in pages mapped writable: one key
    per round, stored as an [int]. *)
Lemma getc_loop_resident fuel b n : ∀ i w,
  (∀ k, k ∈ byte_pages b (4 * i) (4 * n) →
     ∃ e, pagedir w !! k = Some e ∧ pte_writable e = true) →
  ∃ pd',
    for_upto n i
      (fun i => trace (EvInputGetc (wrap32 (b + 4 * i))) ;;
                copy_out fuel (wrap32 (b + 4 * i)) 4) w
    = (Ret tt,
       set_pagedir (λ _, pd')
         (add_log ((λ m : nat, EvInputGetc (wrap32 (b + 4 * (i + Z.of_nat m))))
                     <$> seq 0 n) w)) ∧
    ∀ k, pd' !! k = if decide (k ∈ byte_pages b (4 * i) (4 * n))
                    then pte_set_dirty <$> pagedir w !! k
                    else pagedir w !! k.
Proof.
  induction n as [|n IH]; intros i w Hres; cbn [for_upto].
  { exists (pagedir w). split.
    - cbn [seq fmap list_fmap]. by rewrite add_log_nil, set_pagedir_const.
    - intros k. rewrite decide_False; [reflexivity|].
      change (4 * 0)%nat with 0%nat. apply not_elem_of_nil. }
  rewrite bind_assoc, bind_trace.
  set (ev := EvInputGetc (wrap32 (b + 4 * i))).
  destruct (copy_out_resident fuel (wrap32 (b + 4 * i)) 4 0 (emit ev w))
    as (pd1 & Hcopy & Hpd1).
  { intros k Hk. rewrite byte_pages_wrap in Hk. fields. apply Hres.
    apply elem_of_byte_pages in Hk as (j & Hj & ->).
    apply elem_of_byte_pages. exists j. split; [lia | reflexivity]. }
  change (for_upto 4 0 (λ j, mem_access fuel true (wrap32 (wrap32 (b + 4 * i) + j))))
    with (copy_out fuel (wrap32 (b + 4 * i)) 4) in Hcopy.
  rewrite (bind_Ret _ _ _ _ _ Hcopy).
  rewrite byte_pages_wrap in Hpd1.
  destruct (IH (i + 1) (set_pagedir (λ _, pd1) (emit ev w))) as (pd' & Hrun & Hpd).
  { intros k Hk. fields. rewrite Hpd1. fields.
    destruct (Hres k) as (e & He & Hw).
    { apply elem_of_byte_pages in Hk as (j & Hj & ->).
      apply elem_of_byte_pages. exists j. split; [lia | reflexivity]. }
    rewrite He. destruct (decide _).
    - exists (pte_set_dirty e). by split.
    - exists e. by split. }
  exists pd'. split.
  - rewrite Hrun. f_equal. unfold set_pagedir, add_log, emit. fields.
    f_equal. rewrite <- (assoc_L (++)). f_equal.
    cbn [seq fmap list_fmap app]. f_equal.
    { unfold ev. do 3 f_equal. lia. }
    rewrite <- seq_shift, <- list_fmap_compose.
    apply list_fmap_ext. intros _ m _. cbn. do 3 f_equal. lia.
  - intros k. rewrite Hpd. fields. rewrite Hpd1. fields.
    apply dirty_twice_pages.
    rewrite !elem_of_byte_pages. split.
    + intros (j & Hj & ->).
      destruct (decide (j < 4 * i + 4)); [left | right];
        exists j; (split; [lia | reflexivity]).
    + intros [(j & Hj & ->) | (j & Hj & ->)]; exists j; (split; [lia | reflexivity]).
Qed.

(** X20: [read] from descriptor 0 touches the [size] bytes of the buffer,
    but stores every key through an [int] pointer: key [i] goes to the four
    bytes from [buffer + 4 * i] on.  When the pages of all these
    [4 * size] bytes are mapped writable the call raises no fault and
    returns [size]; the pages it has made dirty are those of the
    [4 * size] bytes, not only those of the [size] bytes that were touched. *)
Theorem read_stdin_stores_ints fuel b n w :
  0 ≤ n < 2147483648 →
  (∀ i, 0 ≤ i < 4 * n →
     ∃ e, pagedir w !! pg_round_down (wrap32 (b + i)) = Some e ∧
          pte_writable e = true) →
  ∃ w',
    read fuel 0 b n w = (Ret n, w') ∧
    log w' = log w ++ ((λ j, EvTouch (wrap32 (b + j))) <$> seqZ 0 n)
                   ++ [EvLockAcquire]
                   ++ ((λ i, EvInputGetc (wrap32 (b + 4 * i))) <$> seqZ 0 n)
                   ++ [EvLockRelease] ∧
    (∀ k, pagedir w' !! k =
          if decide (k ∈ byte_pages b 0 (4 * Z.to_nat n))
          then pte_set_dirty <$> pagedir w !! k
          else pagedir w !! k) ∧
    SPT w' = SPT w ∧ frame_table w' = frame_table w ∧ files w' = files w.
Proof.
  intros Hn Hres. unfold read.
  replace ((0 <? 0) || (0 =? 1) || (0 >=? FD_TABLE_SIZE)) with false by reflexivity.
  erewrite bind_Ret.
  2:{ apply touch_loop_resident. intros i Hi.
      destruct (Hres i) as (e & He & _); [lia|]. eauto. }
  rewrite (seqZ_fmap_nat (λ j, EvTouch (wrap32 (b + j)))).
  replace (0 =? 0) with true by reflexivity.
  unfold lock_acquire, lock_release. rewrite bind_trace.
  match goal with |- context [bind (for_upto _ _ _) _ ?w1] => set (W1 := w1) end.
  destruct (getc_loop_resident fuel b (Z.to_nat n) 0 W1) as (pd' & Hloop & Hpd).
  { intros k Hk. apply elem_of_byte_pages in Hk as (i & Hi & ->).
    unfold W1. fields2. apply Hres. lia. }
  rewrite (bind_Ret _ _ _ _ _ Hloop), bind_trace.
  rewrite (seqZ_fmap_nat (λ i, EvInputGetc (wrap32 (b + 4 * i)))).
  rewrite to_int_small by done.
  eexists. split; [reflexivity|]. unfold W1. fields2.
  split; [by rewrite <- !(assoc_L (++))|].
  split; [exact Hpd|]. done.
Qed.

Lemma read_stdin_stores_ints_witness :
  ∃ w',
    read 0 0 (PHYS_BASE - 64) 2 (snd (page_fault (PHYS_BASE - 20) 0 0 sample_world))
    = (Ret 2, w') ∧
    log w' = log (snd (page_fault (PHYS_BASE - 20) 0 0 sample_world))
             ++ ((λ j, EvTouch (wrap32 (PHYS_BASE - 64 + j))) <$> seqZ 0 2)
             ++ [EvLockAcquire]
             ++ ((λ i, EvInputGetc (wrap32 (PHYS_BASE - 64 + 4 * i))) <$> seqZ 0 2)
             ++ [EvLockRelease] ∧
    (∀ k, pagedir w' !! k =
          if decide (k ∈ byte_pages (PHYS_BASE - 64) 0 (4 * Z.to_nat 2))
          then pte_set_dirty
                 <$> pagedir (snd (page_fault (PHYS_BASE - 20) 0 0 sample_world)) !! k
          else pagedir (snd (page_fault (PHYS_BASE - 20) 0 0 sample_world)) !! k) ∧
    SPT w' = SPT (snd (page_fault (PHYS_BASE - 20) 0 0 sample_world)) ∧
    frame_table w' = frame_table (snd (page_fault (PHYS_BASE - 20) 0 0 sample_world)) ∧
    files w' = files (snd (page_fault (PHYS_BASE - 20) 0 0 sample_world)).
Proof.
  apply (read_stdin_stores_ints 0 (PHYS_BASE - 64) 2
           (snd (page_fault (PHYS_BASE - 20) 0 0 sample_world))).
  - lia.
  - intros i Hi. exists (mk_pte 0xc0100000 true false).
    assert (i = 0 ∨ i = 1 ∨ i = 2 ∨ i = 3 ∨ i = 4 ∨ i = 5 ∨ i = 6 ∨ i = 7)
      as [->|[->|[->|[->|[->|[->|[->| ->]]]]]]] by lia;
      vm_compute; split; reflexivity.
Defined.

(** With only the touched bytes in a mapped page, the [int] store of the
    second key runs over the end of the page into an address that no SPT
    entry covers: the handler ends the process while [filesys_lock] is
    held. *)
Example read_stdin_overruns_buffer :
  ∃ w',
    read 1 0 0x20001ffa 2 mapped_world = (Exit, w') ∧ exit_status w' = -1 ∧
    drop (length (log mapped_world)) (log w')
    = [EvTouch 0x20001ffa; EvFileSeek 101 4096; EvFileRead 101 0xc0102000 904 904;
       EvMemset 0xc0102388 3192; EvTouch 0x20001ffb; EvLockAcquire;
       EvInputGetc 0x20001ffa; EvInputGetc 0x20001ffe; EvPrintfExit (-1)].
Proof. eexists. vm_compute. repeat split. Qed.
